(** * Orderly market maker: quoting / risk decision engine and order lifecycle

    Shallow embedding of [src/mm/bot.py] (class [MarketMaker]) together with
    the part of [src/mm/client.py] it calls.

    Numbers.  The bot computes on Python floats and, inside [_round], on
    [decimal.Decimal].  The quoting arithmetic and the loop are embedded over
    exact rationals [Q]: binary rounding of floats and the 28-digit precision
    of the decimal context are idealised away, and infinities and NaN are
    outside the model.  Comparisons are the boolean tests the code performs;
    arithmetic facts are stated up to [Qeq] ([==]).

    Where the idealisation shows.  A binary product can fall just under the
    grid point that exact arithmetic reaches, and [_round] truncates: at a
    mark of 2000, 10 bps and a tick of 0.01 the program asks 2001.99 where
    this model asks 2002.  Properties that depend on where a price lies are
    therefore stated for the price of the model and for the grid point one
    tick below it ([at_or_tick_below]).  The two decision functions that
    compare against a threshold, [_should_take_profit] and
    [_should_update_quotes], are embedded a second time in module
    [Binary64], every operation rounded to the nearest binary64 value: at a
    threshold that rounding decides.

    Exceptions.  A Python exception is a value of type [exn]; code that may
    raise returns a [result].  Float division raises [ZeroDivisionError] on a
    zero divisor, decimal division raises [DivisionByZero] (or
    [InvalidOperation] for 0/0).

    Effects.  The venue is an abstract state machine (class [OrderlyClient]);
    the bot runs in a state-and-exception monad [M] over a [World] that holds
    the bot object, the venue and the log of client calls.  State changes made
    before an exception is raised persist, as in Python.  The requests that
    [asyncio.gather] issues concurrently are issued here one after the other,
    in the order of the argument list. *)

From Stdlib Require Import ZArith QArith Qabs Qround List Bool Lia Lqa.
Import ListNotations.
Open Scope Q_scope.

(** ** Exceptions and results *)

Inductive exn : Type :=
| ZeroDivisionError                 (* float division by zero *)
| DivisionByZero                    (* decimal.DivisionByZero: x / 0, x <> 0 *)
| InvalidOperation                  (* decimal.InvalidOperation: 0 / 0 *)
| ClientResponseError (status : Z)  (* HTTP error raised by raise_for_status *)
| OtherError.                       (* any other Exception; has no [status] *)

Inductive result (A : Type) : Type :=
| Ok (a : A)
| Raise (e : exn).
Arguments Ok {A} a.
Arguments Raise {A} e.

Definition rbind {A B} (r : result A) (k : A -> result B) : result B :=
  match r with
  | Ok a => k a
  | Raise e => Raise e
  end.

Notation "'let?' x ':=' r 'in' k" := (rbind r (fun x => k))
  (at level 10, x name, r at level 100, k at level 200).

(** ** Comparisons the code performs on numbers *)

Definition Qltb (x y : Q) : bool := negb (Qle_bool y x).
Definition Qgtb (x y : Q) : bool := Qltb y x.

(** Python's [x / y] on floats. *)
Definition float_div (x y : Q) : result Q :=
  if Qeq_bool y 0 then Raise ZeroDivisionError else Ok (x / y).

(** [Decimal.__truediv__] under the default context traps. *)
Definition decimal_div (x y : Q) : result Q :=
  if Qeq_bool y 0
  then Raise (if Qeq_bool x 0 then InvalidOperation else DivisionByZero)
  else Ok (x / y).

(** [Decimal.to_integral_value(ROUND_DOWN)]: truncation toward zero. *)
Definition to_integral_value_ROUND_DOWN (q : Q) : Z :=
  Z.quot (Qnum q) (Zpos (Qden q)).

(** ** Configuration and bot object *)

Record Config : Type := {
  spread_bps : Q;
  order_size_usd : Q;
  refresh_interval : Q;
  dry_run : bool
}.

Record MarketMaker : Type := {
  cfg : Config;
  price_tick : Q;
  qty_tick : Q;
  current_bid_price : option Q;
  current_ask_price : option Q;
  last_position_qty : Q
}.

Definition set_current_bid_price (p : Q) (self : MarketMaker) : MarketMaker :=
  {| cfg := cfg self; price_tick := price_tick self; qty_tick := qty_tick self;
     current_bid_price := Some p;
     current_ask_price := current_ask_price self;
     last_position_qty := last_position_qty self |}.

Definition set_current_ask_price (p : Q) (self : MarketMaker) : MarketMaker :=
  {| cfg := cfg self; price_tick := price_tick self; qty_tick := qty_tick self;
     current_bid_price := current_bid_price self;
     current_ask_price := Some p;
     last_position_qty := last_position_qty self |}.

Definition set_last_position_qty (q : Q) (self : MarketMaker) : MarketMaker :=
  {| cfg := cfg self; price_tick := price_tick self; qty_tick := qty_tick self;
     current_bid_price := current_bid_price self;
     current_ask_price := current_ask_price self;
     last_position_qty := q |}.

(** ** Tick rounding: [MarketMaker._round] (bot.py 28-32) *)

Definition _round (value tick : Q) : result Q :=
  let v := value in
  let t := tick in
  let? q := decimal_div v t in
  Ok (inject_Z (to_integral_value_ROUND_DOWN q) * t).

(** ** Risk controller *)

(** The literal 0.0001 that guards every use of the position quantity. *)
Definition QTY_EPSILON : Q := 1 # 10000.

(** [MarketMaker._should_take_profit] (bot.py 55-80). *)
Definition _should_take_profit (position_qty mark_price avg_entry_price : Q)
  : result bool :=
  if Qltb (Qabs position_qty) QTY_EPSILON || Qeq_bool avg_entry_price 0
  then Ok false
  else
    let unrealized_pnl := position_qty * (mark_price - avg_entry_price) in
    if Qgtb unrealized_pnl (8 # 100)
    then Ok true
    else
      let? ratio := float_div (mark_price - avg_entry_price) avg_entry_price in
      let price_move_pct := ratio * 100 in
      let favorable_move :=
        (Qgtb position_qty 0 && Qgtb price_move_pct (1 # 2))
        || (Qltb position_qty 0 && Qltb price_move_pct (- (1 # 2))) in
      if favorable_move then Ok true else Ok false.

(** [MarketMaker._should_stop_quoting] (bot.py 104-125).  The divisor is the
    non-zero literal 2000.0, so the float division cannot raise. *)
Definition COLLATERAL_USD : Q := 100.
Definition MAX_LEVERAGE : Q := 8.
Definition STOP_THRESHOLD : Q := 6 # 10.
Definition REFERENCE_ETH_PRICE : Q := 2000.

Definition _should_stop_quoting (position_qty mark_price : Q) : bool :=
  let max_notional := COLLATERAL_USD * MAX_LEVERAGE in
  let max_position_eth := max_notional / REFERENCE_ETH_PRICE in
  let stop_position := max_position_eth * STOP_THRESHOLD in
  if Qgtb (Qabs position_qty) stop_position then true else false.

(** ** Quote engine *)

(** [MarketMaker._should_update_quotes] (bot.py 204-228). *)
Definition _should_update_quotes (self : MarketMaker)
    (mark_price position_qty : Q) : bool :=
  match current_bid_price self, current_ask_price self with
  | Some bid, Some ask =>
      if Qgtb (Qabs (position_qty - last_position_qty self)) (qty_tick self * 2)
      then true
      else
        let spread_width := ask - bid in
        let price_move_threshold := spread_width * (6 # 10) in
        if Qgtb mark_price (ask + price_move_threshold) then true
        else if Qltb mark_price (bid - price_move_threshold) then true
        else false
  | _, _ => true
  end.

(** [computeBaseQuotes]: the normal market-making prices and size
    (bot.py 243-255). *)
Record Quotes : Type := {
  bid_price : Q;
  bid_quantity : Q;
  ask_price : Q;
  ask_quantity : Q
}.

Definition base_quotes (self : MarketMaker) (mark_price : Q) : result Quotes :=
  let base_spread_bps := spread_bps (cfg self) in
  let bid_spread_bps := base_spread_bps in
  let ask_spread_bps := base_spread_bps in
  let? bid_price :=
    _round (mark_price * (1 - bid_spread_bps / 10000)) (price_tick self) in
  let? ask_price :=
    _round (mark_price * (1 + ask_spread_bps / 10000)) (price_tick self) in
  let mid_price := (bid_price + ask_price) / 2 in
  let? size := float_div (order_size_usd (cfg self)) mid_price in
  let? bid_quantity := _round size (qty_tick self) in
  let ask_quantity := bid_quantity in
  Ok {| bid_price := bid_price; bid_quantity := bid_quantity;
        ask_price := ask_price; ask_quantity := ask_quantity |}.

(** The unrealized PnL as [_place_quotes] measures it (bot.py 239-241). *)
Definition unrealized_pnl_of (position_qty mark_price avg_entry_price : Q) : Q :=
  if Qgtb (Qabs position_qty) QTY_EPSILON && Qgtb avg_entry_price 0
  then position_qty * (mark_price - avg_entry_price)
  else 0.

Definition PROFIT_TARGET : Q := 5 # 100.

(** Dynamic loss protection (bot.py 259-289), applied to the base quotes. *)
Definition loss_protection (self : MarketMaker)
    (mark_price position_qty avg_entry_price : Q) (base : Quotes)
  : result Quotes :=
  let unrealized_pnl :=
    unrealized_pnl_of position_qty mark_price avg_entry_price in
  let base_spread_bps := spread_bps (cfg self) in
  if Qltb unrealized_pnl 0 && Qgtb (Qabs position_qty) QTY_EPSILON
  then
    let? price_offset := float_div PROFIT_TARGET (Qabs position_qty) in
    if Qltb position_qty 0
    then
      if Qgtb (bid_price base) avg_entry_price
      then
        let? bid_price :=
          _round (avg_entry_price - price_offset) (price_tick self) in
        let? bid_quantity := _round (Qabs position_qty) (qty_tick self) in
        let ask_spread_bps := base_spread_bps * 2 in
        let? ask_price :=
          _round (mark_price * (1 + ask_spread_bps / 10000)) (price_tick self) in
        Ok {| bid_price := bid_price; bid_quantity := bid_quantity;
              ask_price := ask_price; ask_quantity := ask_quantity base |}
      else Ok base
    else if Qgtb position_qty 0
    then
      if Qltb (ask_price base) avg_entry_price
      then
        let? ask_price :=
          _round (avg_entry_price + price_offset) (price_tick self) in
        let? ask_quantity := _round (Qabs position_qty) (qty_tick self) in
        let bid_spread_bps := base_spread_bps * 2 in
        let? bid_price :=
          _round (mark_price * (1 - bid_spread_bps / 10000)) (price_tick self) in
        Ok {| bid_price := bid_price; bid_quantity := bid_quantity base;
              ask_price := ask_price; ask_quantity := ask_quantity |}
      else Ok base
    else Ok base
  else Ok base.

(** The prices and sizes [_place_quotes] settles on before it touches the
    venue (bot.py 238-289). *)
Definition quote_prices (self : MarketMaker)
    (mark_price position_qty avg_entry_price : Q) : result Quotes :=
  let? base := base_quotes self mark_price in
  loss_protection self mark_price position_qty avg_entry_price base.

(** ** The venue, as the bot sees it (client.py) *)

Inductive side : Type := BUY | SELL.

(** An open order as returned by the venue: a dict whose ["order_id"] key may
    be missing. *)
Record order : Type := { order_id : option Z }.

Class OrderlyClient (V : Type) : Type := {
  get_mark_price : V -> result Q * V;
  get_position : V -> result (Q * Q) * V;
  get_open_orders : V -> result (list order) * V;
  cancel_order : Z -> V -> result unit * V;
  create_order : side -> Q -> Q -> V -> result unit * V
}.

(** Client calls and sleeps, in the order the bot performs them. *)
Inductive call : Type :=
| GetMarkPrice
| GetPosition
| GetOpenOrders
| CancelOrder (id : Z)
| CreateOrder (s : side) (price quantity : Q)
| Sleep (seconds : Q).

Record World (V : Type) : Type := {
  self : MarketMaker;
  venue : V;
  calls : list call
}.
Arguments self {V} w.
Arguments venue {V} w.
Arguments calls {V} w.

(** ** State-and-exception monad *)

Definition M (V A : Type) : Type := World V -> result A * World V.

Definition ret {V A} (a : A) : M V A := fun w => (Ok a, w).

Definition bind {V A B} (m : M V A) (k : A -> M V B) : M V B :=
  fun w =>
    match m w with
    | (Ok a, w') => k a w'
    | (Raise e, w') => (Raise e, w')
    end.

Notation "x <- m ;; k" := (bind m (fun x => k))
  (at level 61, m at next level, right associativity).
Notation "m ;;; k" := (bind m (fun _ => k))
  (at level 61, right associativity).

Definition lift {V A} (r : result A) : M V A := fun w => (r, w).

Definition try_except {V A} (body : M V A) (handler : exn -> M V A) : M V A :=
  fun w =>
    match body w with
    | (Ok a, w') => (Ok a, w')
    | (Raise e, w') => handler e w'
    end.

Definition get_self {V} : M V MarketMaker := fun w => (Ok (self w), w).

Definition modify_self {V} (f : MarketMaker -> MarketMaker) : M V unit :=
  fun w => (Ok tt, {| self := f (self w); venue := venue w; calls := calls w |}).

(** One client call: logged, then answered by the venue. *)
Definition client {V A} (c : call) (op : V -> result A * V) : M V A :=
  fun w =>
    let (r, v') := op (venue w) in
    (r, {| self := self w; venue := v'; calls := calls w ++ [c] |}).

Definition sleep {V} (seconds : Q) : M V unit :=
  fun w =>
    (Ok tt, {| self := self w; venue := venue w;
               calls := calls w ++ [Sleep seconds] |}).

(** [asyncio.gather] with [return_exceptions=True]: every task runs, an
    exception becomes the task's result. *)
Fixpoint gather_results {V A} (tasks : list (M V A)) (w : World V)
  : list (result A) * World V :=
  match tasks with
  | [] => ([], w)
  | t :: ts =>
      let (r, w1) := t w in
      let (rs, w2) := gather_results ts w1 in
      (r :: rs, w2)
  end.

Definition gather {V A} (tasks : list (M V A)) : M V (list (result A)) :=
  fun w => let (rs, w') := gather_results tasks w in (Ok rs, w').

Definition gather2 {V A B} (t1 : M V A) (t2 : M V B)
  : M V (result A * result B) :=
  fun w =>
    let (r1, w1) := t1 w in
    let (r2, w2) := t2 w1 in
    (Ok (r1, r2), w2).

(** ** The bot's effectful operations *)

Definition is_empty {A} (l : list A) : bool :=
  match l with
  | [] => true
  | _ :: _ => false
  end.

(** [[o["order_id"] for o in orders if "order_id" in o]]. *)
Definition order_ids_of (orders : list order) : list Z :=
  flat_map (fun o => match order_id o with
                     | Some id => [id]
                     | None => []
                     end) orders.

(** A gathered cancel result that lands in [failed_non_400]: an exception
    that has no [status] attribute or whose status is not 400. *)
Definition is_non_400_failure (r : result unit) : bool :=
  match r with
  | Ok _ => false
  | Raise (ClientResponseError status) => negb (Z.eqb status 400)
  | Raise _ => true
  end.

Section Bot.
Context {V : Type} `{OrderlyClient V}.

Definition client_get_mark_price : M V Q :=
  client GetMarkPrice get_mark_price.
Definition client_get_position : M V (Q * Q) :=
  client GetPosition get_position.
Definition client_get_open_orders : M V (list order) :=
  client GetOpenOrders get_open_orders.
Definition client_cancel_order (id : Z) : M V unit :=
  client (CancelOrder id) (cancel_order id).
Definition client_create_order (s : side) (price quantity : Q) : M V unit :=
  client (CreateOrder s price quantity) (create_order s price quantity).

(** [MarketMaker._get_position] (bot.py 41-53). *)
Definition _get_position : M V (Q * Q) :=
  try_except client_get_position (fun _ => ret (0, 0)).

(** [MarketMaker._close_position] (bot.py 82-101). *)
Definition _close_position (position_qty mark_price : Q) : M V unit :=
  if Qltb (Qabs position_qty) QTY_EPSILON
  then ret tt
  else
    let side := if Qgtb position_qty 0 then SELL else BUY in
    let quantity := Qabs position_qty in
    try_except
      (self <- get_self ;;
       let close_price :=
         match side with
         | SELL => mark_price * (999 # 1000)
         | BUY => mark_price * (1001 # 1000)
         end in
       close_price <- lift (_round close_price (price_tick self)) ;;
       client_create_order side close_price quantity)
      (fun _ => ret tt).

(** [MarketMaker._cancel_all_orders] (bot.py 128-202). *)
Definition _cancel_all_orders : M V bool :=
  try_except
    (orders <- client_get_open_orders ;;
     if is_empty orders then ret true
     else
       let order_ids := order_ids_of orders in
       if is_empty order_ids then ret false
       else
         results <- gather (map client_cancel_order order_ids) ;;
         let failed_non_400 := filter is_non_400_failure results in
         if negb (is_empty failed_non_400) then ret false
         else
           sleep (3 # 10) ;;;
           remaining_orders <- client_get_open_orders ;;
           if negb (is_empty remaining_orders)
           then
             let remaining_ids := order_ids_of remaining_orders in
             if negb (is_empty remaining_ids)
             then
               gather (map client_cancel_order remaining_ids) ;;;
               sleep (2 # 10) ;;;
               final_check <- client_get_open_orders ;;
               if negb (is_empty final_check) then ret false else ret true
             else ret true
           else ret true)
    (fun _ => ret false).

(** [MarketMaker._place_quotes] (bot.py 230-327): the prices are those of
    [quote_prices]; then the dry-run gate, then the two orders. *)
Definition _place_quotes (mark_price position_qty avg_entry_price : Q)
  : M V unit :=
  self <- get_self ;;
  q <- lift (quote_prices self mark_price position_qty avg_entry_price) ;;
  if dry_run (cfg self)
  then
    modify_self (set_current_bid_price (bid_price q)) ;;;
    modify_self (set_current_ask_price (ask_price q))
  else
    try_except
      (results <- gather2
         (client_create_order BUY (bid_price q) (bid_quantity q))
         (client_create_order SELL (ask_price q) (ask_quantity q)) ;;
       let (bid_result, ask_result) := results in
       match bid_result with
       | Raise _ => ret tt
       | Ok _ => modify_self (set_current_bid_price (bid_price q))
       end ;;;
       match ask_result with
       | Raise _ => ret tt
       | Ok _ => modify_self (set_current_ask_price (ask_price q))
       end)
      (fun _ => ret tt).

(** The [EVALUATE_QUOTES] part of the loop body (bot.py 360-385). *)
Definition evaluate_quotes (mark_price position_qty avg_entry_price : Q)
  : M V unit :=
  self <- get_self ;;
  let should_update := _should_update_quotes self mark_price position_qty in
  if should_update
  then
    cancel_success <- _cancel_all_orders ;;
    if (cancel_success : bool)
    then
      _place_quotes mark_price position_qty avg_entry_price ;;;
      modify_self (set_last_position_qty position_qty)
    else ret tt
  else ret tt.

(** One iteration of the [while True] loop of [MarketMaker.run]
    (bot.py 340-392), with its handler at the loop boundary. *)
Definition run_iteration : M V unit :=
  try_except
    (mark_price <- client_get_mark_price ;;
     position <- _get_position ;;
     let (position_qty, avg_entry_price) := (position : Q * Q) in
     take_profit <-
       lift (_should_take_profit position_qty mark_price avg_entry_price) ;;
     if (take_profit : bool)
     then
       _cancel_all_orders ;;;
       _close_position position_qty mark_price ;;;
       sleep 2
     else if _should_stop_quoting position_qty mark_price
     then
       _cancel_all_orders ;;;
       self <- get_self ;;
       sleep (refresh_interval (cfg self))
     else
       evaluate_quotes mark_price position_qty avg_entry_price ;;;
       self <- get_self ;;
       sleep (refresh_interval (cfg self)))
    (fun _ => sleep 5).

End Bot.

(** ** A scripted venue

    Each operation answers with the next entry of its list and raises
    [OtherError] once the list is used up. *)

Record Script : Type := {
  mark_prices : list (result Q);
  positions : list (result (Q * Q));
  open_orders : list (result (list order));
  cancel_results : list (result unit);
  create_results : list (result unit)
}.

Definition next {A} (l : list (result A)) : result A * list (result A) :=
  match l with
  | [] => (Raise OtherError, [])
  | r :: l' => (r, l')
  end.

#[export] Instance Script_client : OrderlyClient Script := {
  get_mark_price s :=
    let (r, l) := next (mark_prices s) in
    (r, {| mark_prices := l; positions := positions s;
           open_orders := open_orders s; cancel_results := cancel_results s;
           create_results := create_results s |});
  get_position s :=
    let (r, l) := next (positions s) in
    (r, {| mark_prices := mark_prices s; positions := l;
           open_orders := open_orders s; cancel_results := cancel_results s;
           create_results := create_results s |});
  get_open_orders s :=
    let (r, l) := next (open_orders s) in
    (r, {| mark_prices := mark_prices s; positions := positions s;
           open_orders := l; cancel_results := cancel_results s;
           create_results := create_results s |});
  cancel_order _ s :=
    let (r, l) := next (cancel_results s) in
    (r, {| mark_prices := mark_prices s; positions := positions s;
           open_orders := open_orders s; cancel_results := l;
           create_results := create_results s |});
  create_order _ _ _ s :=
    let (r, l) := next (create_results s) in
    (r, {| mark_prices := mark_prices s; positions := positions s;
           open_orders := open_orders s; cancel_results := cancel_results s;
           create_results := l |})
}.

Definition example_cfg (dry : bool) : Config :=
  {| spread_bps := 10; order_size_usd := 50; refresh_interval := 5;
     dry_run := dry |}.

Definition example_bot (dry : bool) : MarketMaker :=
  {| cfg := example_cfg dry; price_tick := 1 # 100; qty_tick := 1 # 1000;
     current_bid_price := None; current_ask_price := None;
     last_position_qty := 0 |}.

Definition example_world (dry : bool) (s : Script) : World Script :=
  {| self := example_bot dry; venue := s; calls := [] |}.

(** A value sits on the tick grid when it is an integer multiple of the
    tick. *)
Definition on_tick (x tick : Q) : Prop :=
  exists n : Z, x == inject_Z n * tick.

(** The prices the program can quote where exact arithmetic quotes [p]: [p]
    itself, or the grid point one tick below it when the binary value handed
    to [_round] lies just under [p]. *)
Definition at_or_tick_below (price p tick : Q) : Prop :=
  price == p \/ price == p - tick.

(** A long position of 0.0505 bought at 1990 with the mark at 2000 and no
    resting orders: take-profit fires. *)
Definition take_profit_script : Script :=
  {| mark_prices := [Ok 2000];
     positions := [Ok (505 # 10000, 1990)];
     open_orders := [Ok []];
     cancel_results := [];
     create_results := [Ok tt] |}.

(** One order fetched and cancelled; the verification finds another one,
    whose cancel fails with HTTP 500; the final fetch is empty. *)
Definition retry_500_script : Script :=
  {| mark_prices := [];
     positions := [];
     open_orders := [Ok [{| order_id := Some 1%Z |}];
                     Ok [{| order_id := Some 2%Z |}];
                     Ok []];
     cancel_results := [Ok tt; Raise (ClientResponseError 500)];
     create_results := [] |}.

(** The venue lists one open order that carries no ["order_id"]; a second
    fetch would find nothing. *)
Definition no_id_script : Script :=
  {| mark_prices := [];
     positions := [];
     open_orders := [Ok [{| order_id := None |}]; Ok []];
     cancel_results := [];
     create_results := [] |}.

(** Two resting orders, both already resolved at the venue (HTTP 400 on
    cancel); the verification fetch is empty. *)
Definition already_resolved_script : Script :=
  {| mark_prices := [];
     positions := [];
     open_orders := [Ok [{| order_id := Some 1%Z |}; {| order_id := Some 2%Z |}];
                     Ok []];
     cancel_results := [Raise (ClientResponseError 400);
                        Raise (ClientResponseError 400)];
     create_results := [] |}.

(** The orders the bot sent to the venue, read off the call log. *)
Definition is_create_order (c : call) : bool :=
  match c with
  | CreateOrder _ _ _ => true
  | _ => false
  end.

Definition orders_sent (l : list call) : list call := filter is_create_order l.

(** A run from [w] to [w'] that leaves the bot object alone and sends no
    order. *)
Definition quiet {V} (w w' : World V) : Prop :=
  self w' = self w /\ orders_sent (calls w') = orders_sent (calls w).

Definition quiet_m {V A} (m : M V A) : Prop :=
  forall w r w', m w = (r, w') -> quiet w w'.

(** A small long position at its entry price, nothing resting, and a venue
    that answers the two placements with [creates]. *)
Definition quoting_script (mark : Q) (creates : list (result unit)) : Script :=
  {| mark_prices := [Ok mark];
     positions := [Ok (1 # 100, 2000)];
     open_orders := [Ok []];
     cancel_results := [];
     create_results := creates |}.

(** The same tick, but the fetch of the open orders fails. *)
Definition cancel_failure_script : Script :=
  {| mark_prices := [Ok 2000];
     positions := [Ok (1 # 100, 2000)];
     open_orders := [Raise (ClientResponseError 500)];
     cancel_results := [];
     create_results := [Ok tt; Ok tt] |}.

(** A bot that believes it is quoting 1995 / 2005 on a flat position. *)
Definition quoted_bot : MarketMaker :=
  {| cfg := example_cfg false; price_tick := 1 # 100; qty_tick := 1 # 1000;
     current_bid_price := Some 1995; current_ask_price := Some 2005;
     last_position_qty := 0 |}.

(** ** Shutdown helper of the client: [OrderlyClient.cancel_all]
    (client.py 158-170) *)

Section ClientHelpers.
Context {V : Type} `{OrderlyClient V}.

Definition cancel_all : M V unit :=
  orders <- client_get_open_orders ;;
  if is_empty orders then ret tt
  else
    gather (map client_cancel_order (order_ids_of orders)) ;;;
    ret tt.

End ClientHelpers.

(** ** Start-up and the loop: [_load_market_info] and [run]
    (bot.py 34-39, 329-392) *)

(** The market-info dict, with the three keys the bot reads; a key may be
    missing, a key that is present holds a number. *)
Record MarketInfo : Type := {
  quote_tick : option Q;
  info_price_tick : option Q;
  base_tick : option Q
}.

Class MarketInfoClient (V : Type) : Type := {
  get_market_info : V -> result MarketInfo * V
}.

Definition set_ticks (price qty : Q) (self : MarketMaker) : MarketMaker :=
  {| cfg := cfg self; price_tick := price; qty_tick := qty;
     current_bid_price := current_bid_price self;
     current_ask_price := current_ask_price self;
     last_position_qty := last_position_qty self |}.

(** [info.get("quote_tick") or info.get("price_tick", 0.01)]: a missing or
    zero [quote_tick] is falsy. *)
Definition price_tick_of (info : MarketInfo) : Q :=
  let fallback := match info_price_tick info with
                  | Some p => p
                  | None => 1 # 100
                  end in
  match quote_tick info with
  | Some q => if Qeq_bool q 0 then fallback else q
  | None => fallback
  end.

(** [info.get("base_tick", 0.001)]. *)
Definition qty_tick_of (info : MarketInfo) : Q :=
  match base_tick info with
  | Some b => b
  | None => 1 # 1000
  end.

Section Run.
Context {V : Type} `{OrderlyClient V} `{MarketInfoClient V}.

(** The start-up fetch is made once, before the loop; the call log, which
    records the loop's traffic, does not list it. *)
Definition client_get_market_info : M V MarketInfo :=
  fun w =>
    let (r, v') := get_market_info (venue w) in
    (r, {| self := self w; venue := v'; calls := calls w |}).

Definition _load_market_info : M V unit :=
  info <- client_get_market_info ;;
  modify_self (set_ticks (price_tick_of info) (qty_tick_of info)).

(** The first [fuel] iterations of the [while True] loop. *)
Fixpoint run_loop (fuel : nat) : M V unit :=
  match fuel with
  | O => ret tt
  | S n => run_iteration ;;; run_loop n
  end.

(** [MarketMaker.run], cut after [fuel] iterations. *)
Definition run (fuel : nat) : M V unit :=
  _load_market_info ;;; run_loop fuel.

End Run.

(** A scripted venue that also answers the start-up fetch. *)
Record InfoScript : Type := {
  market_infos : list (result MarketInfo);
  script : Script
}.

Definition on_script {A} (op : Script -> result A * Script) (s : InfoScript)
  : result A * InfoScript :=
  let (r, s') := op (script s) in
  (r, {| market_infos := market_infos s; script := s' |}).

#[export] Instance InfoScript_client : OrderlyClient InfoScript := {
  get_mark_price := on_script get_mark_price;
  get_position := on_script get_position;
  get_open_orders := on_script get_open_orders;
  cancel_order id := on_script (cancel_order id);
  create_order s p q := on_script (create_order s p q)
}.

#[export] Instance InfoScript_info : MarketInfoClient InfoScript := {
  get_market_info s :=
    let (r, l) := next (market_infos s) in
    (r, {| market_infos := l; script := script s |})
}.

(** ** Invariants of a run *)

(** From [w] to [w'] the configuration and the tick sizes are the same and
    the call log has only grown. *)
Definition steady {V} (w w' : World V) : Prop :=
  cfg (self w') = cfg (self w)
  /\ price_tick (self w') = price_tick (self w)
  /\ qty_tick (self w') = qty_tick (self w)
  /\ exists l, calls w' = calls w ++ l.

Definition respects {V A} (R : World V -> World V -> Prop) (m : M V A) : Prop :=
  forall w r w', m w = (r, w') -> R w w'.

(** A mark price that cannot be fetched. *)
Definition mark_failure_script : Script :=
  {| mark_prices := [Raise (ClientResponseError 503)];
     positions := [Ok (1 # 100, 2000)];
     open_orders := [Ok []];
     cancel_results := [];
     create_results := [Ok tt; Ok tt] |}.

(** A position that cannot be fetched, with nothing resting. *)
Definition position_failure_script : Script :=
  {| mark_prices := [Ok 2000];
     positions := [Raise (ClientResponseError 503)];
     open_orders := [Ok []];
     cancel_results := [];
     create_results := [Ok tt; Ok tt] |}.

(** A position of [qty] entered at [avg] with the mark at [mark] and one
    resting order that cancels cleanly. *)
Definition position_script (mark qty avg : Q) : Script :=
  {| mark_prices := [Ok mark];
     positions := [Ok (qty, avg)];
     open_orders := [Ok [{| order_id := Some 7%Z |}]; Ok []];
     cancel_results := [Ok tt];
     create_results := [Ok tt; Ok tt] |}.

(** A computation that, when it returns, has just slept for the cool-down
    of 2 seconds or for the refresh interval. *)
Definition ends_with_sleep {V A} (m : M V A) : Prop :=
  forall w a w',
    m w = (Ok a, w') ->
    exists w0 s,
      steady w w0
      /\ calls w' = calls w0 ++ [Sleep s]
      /\ self w' = self w0
      /\ (s = 2 \/ s = refresh_interval (cfg (self w0))).


(** One order is cancelled; the verification fetch still lists an order,
    which carries no id. *)
Definition remaining_without_id_script : Script :=
  {| mark_prices := [];
     positions := [];
     open_orders := [Ok [{| order_id := Some 1%Z |}];
                     Ok [{| order_id := None |}]];
     cancel_results := [Ok tt];
     create_results := [] |}.

(** A venue whose market info carries a zero [quote_tick], no [price_tick]
    and a [base_tick] of 0.001. *)
Definition zero_quote_tick_info : MarketInfo :=
  {| quote_tick := Some 0; info_price_tick := None;
     base_tick := Some (1 # 1000) |}.

(** A venue whose market info carries a [price_tick] of 0.05 and neither
    [quote_tick] nor [base_tick]. *)
Definition price_tick_only_info : MarketInfo :=
  {| quote_tick := None; info_price_tick := Some (5 # 100);
     base_tick := None |}.

Definition info_world (infos : list (result MarketInfo)) (s : Script)
  : World InfoScript :=
  {| self := {| cfg := example_cfg false; price_tick := 0; qty_tick := 0;
                current_bid_price := None; current_ask_price := None;
                last_position_qty := 0 |};
     venue := {| market_infos := infos; script := s |};
     calls := [] |}.

(** ** The decision functions in binary64 arithmetic

    [_should_take_profit] and [_should_update_quotes] compare values against
    thresholds, so the rounding of Python's floats decides their answer at
    the boundary.  In this module a float is the rational it denotes, every
    arithmetic operation is the exact operation followed by rounding to the
    nearest binary64 value (ties to even), and every decimal literal of the
    source is the binary64 value nearest to it.  Comparisons and [abs] are
    exact.  Overflow to infinity and NaN are outside the model. *)

Module Binary64.

Definition pow2 (e : Z) : Q :=
  if (0 <=? e)%Z then inject_Z (2 ^ e) else 1 # Z.to_pos (2 ^ (- e)).

(** Nearest integer, ties to the even one. *)
Definition round_half_even (q : Q) : Z :=
  let f := Qfloor q in
  match Qcompare (q - inject_Z f) (1 # 2) with
  | Lt => f
  | Gt => (f + 1)%Z
  | Eq => if Z.even f then f else (f + 1)%Z
  end.

(** The binary64 value nearest to a positive rational: a 53-bit significand
    times a power of two, the exponent never below that of the
    subnormals. *)
Definition binary64_pos (a : Q) : Q :=
  let e0 := (Z.log2 (Qnum a) - Z.log2 (Zpos (Qden a)) - 52)%Z in
  let e1 := if Qltb (a / pow2 e0) (inject_Z (2 ^ 52))
            then (e0 - 1)%Z else e0 in
  let e := Z.max e1 (-1074) in
  Qred (inject_Z (round_half_even (a / pow2 e)) * pow2 e).

Definition binary64 (q : Q) : Q :=
  match Qnum q with
  | Z0 => 0
  | Zpos _ => binary64_pos q
  | Zneg _ => - binary64_pos (- q)
  end.

Definition fadd (x y : Q) : Q := binary64 (x + y).
Definition fsub (x y : Q) : Q := binary64 (x - y).
Definition fmul (x y : Q) : Q := binary64 (x * y).

(** Python's [x / y] on floats. *)
Definition fdiv (x y : Q) : result Q :=
  if Qeq_bool y 0 then Raise ZeroDivisionError else Ok (binary64 (x / y)).

(** [MarketMaker._should_take_profit] (bot.py 55-80). *)
Definition _should_take_profit (position_qty mark_price avg_entry_price : Q)
  : result bool :=
  if Qltb (Qabs position_qty) (binary64 (1 # 10000))
     || Qeq_bool avg_entry_price 0
  then Ok false
  else
    let unrealized_pnl :=
      fmul position_qty (fsub mark_price avg_entry_price) in
    if Qgtb unrealized_pnl (binary64 (8 # 100))
    then Ok true
    else
      let? ratio := fdiv (fsub mark_price avg_entry_price) avg_entry_price in
      let price_move_pct := fmul ratio 100 in
      let favorable_move :=
        (Qgtb position_qty 0 && Qgtb price_move_pct (1 # 2))
        || (Qltb position_qty 0 && Qltb price_move_pct (- (1 # 2))) in
      if favorable_move then Ok true else Ok false.

(** [MarketMaker._should_update_quotes] (bot.py 204-228). *)
Definition _should_update_quotes (self : MarketMaker)
    (mark_price position_qty : Q) : bool :=
  match current_bid_price self, current_ask_price self with
  | Some bid, Some ask =>
      if Qgtb (Qabs (fsub position_qty (last_position_qty self)))
              (fmul (qty_tick self) 2)
      then true
      else
        let spread_width := fsub ask bid in
        let price_move_threshold := fmul spread_width (binary64 (6 # 10)) in
        if Qgtb mark_price (fadd ask price_move_threshold) then true
        else if Qltb mark_price (fsub bid price_move_threshold) then true
        else false
  | _, _ => true
  end.

End Binary64.

(** A bot quoting 1995 / 2005 whose last seen position is the float 0.015,
    on a quantity tick that is the float 0.001. *)
(** A bot with ticks 0.01 / 0.001 that holds the given quotes and tracked
    position, each the float nearest the given number. *)
Definition float_quoting_bot (bid ask last_qty : Q) : MarketMaker :=
  {| cfg := example_cfg false; price_tick := Binary64.binary64 (1 # 100);
     qty_tick := Binary64.binary64 (1 # 1000);
     current_bid_price := Some (Binary64.binary64 bid);
     current_ask_price := Some (Binary64.binary64 ask);
     last_position_qty := Binary64.binary64 last_qty |}.

Definition float_quoted_bot : MarketMaker :=
  {| cfg := example_cfg false; price_tick := Binary64.binary64 (1 # 100);
     qty_tick := Binary64.binary64 (1 # 1000);
     current_bid_price := Some 1995; current_ask_price := Some 2005;
     last_position_qty := Binary64.binary64 (15 # 1000) |}.

(** * Properties *)

(** ** Boolean comparisons against their propositions *)

Lemma Qltb_lt (x y : Q) : Qltb x y = true <-> x < y.
Proof.
  unfold Qltb. rewrite negb_true_iff, <- not_true_iff_false, Qle_bool_iff.
  split; intro Hxy; [apply Qnot_le_lt | apply Qlt_not_le]; exact Hxy.
Qed.

Lemma Qltb_ge (x y : Q) : Qltb x y = false <-> y <= x.
Proof.
  unfold Qltb. rewrite negb_false_iff, Qle_bool_iff. reflexivity.
Qed.

Lemma Qgtb_gt (x y : Q) : Qgtb x y = true <-> y < x.
Proof. apply Qltb_lt. Qed.

Lemma Qgtb_le (x y : Q) : Qgtb x y = false <-> x <= y.
Proof. apply Qltb_ge. Qed.

Lemma Qeq_bool_false (x y : Q) : Qeq_bool x y = false <-> ~ x == y.
Proof.
  rewrite <- not_true_iff_false, Qeq_bool_iff. reflexivity.
Qed.

(** Case analysis on a test of the code, keeping the fact it decides. *)
Ltac case_test :=
  match goal with
  | |- context [Qltb ?x ?y] =>
      let E := fresh "E" in
      destruct (Qltb x y) eqn:E;
      [apply Qltb_lt in E | apply Qltb_ge in E]
  | |- context [Qgtb ?x ?y] =>
      let E := fresh "E" in
      destruct (Qgtb x y) eqn:E;
      [apply Qgtb_gt in E | apply Qgtb_le in E]
  | |- context [Qeq_bool ?x ?y] =>
      let E := fresh "E" in
      destruct (Qeq_bool x y) eqn:E;
      [apply Qeq_bool_iff in E | apply Qeq_bool_false in E]
  end.

(** ** Tick rounding *)

Lemma to_integral_value_ROUND_DOWN_toward_zero (q : Q) :
  to_integral_value_ROUND_DOWN q
  = if Qle_bool 0 q then Qfloor q else Qceiling q.
Proof.
  destruct q as [a b].
  unfold to_integral_value_ROUND_DOWN, Qceiling, Qfloor, Qle_bool. simpl.
  rewrite Z.mul_1_r.
  destruct (Z.leb_spec 0 a).
  - apply Z.quot_div_nonneg; lia.
  - rewrite <- (Z.opp_involutive a) at 1. rewrite Z.quot_opp_l by lia.
    f_equal. apply Z.quot_div_nonneg; lia.
Qed.

Lemma round_ok_iff (v t : Q) :
  (exists r, _round v t = Ok r) <-> ~ t == 0.
Proof.
  unfold _round, decimal_div. case_test; simpl.
  - split; [intros [r Hr]; discriminate | intros Ht; contradiction].
  - split; [intros _; exact E | intros _; eexists; reflexivity].
Qed.

Lemma round_value (v t : Q) :
  ~ t == 0 ->
  _round v t = Ok (inject_Z (to_integral_value_ROUND_DOWN (v / t)) * t).
Proof.
  intros Ht. unfold _round, decimal_div.
  apply Qeq_bool_false in Ht. rewrite Ht. reflexivity.
Qed.

(** C9 fails as stated: with the negative tick -0.5 the value 1 is rounded
    to (-2) * (-0.5) = 1 and nothing is raised. *)
Lemma round_negative_tick_returns :
  - (1 # 2) <= 0
  /\ (exists r, _round 1 (- (1 # 2)) = Ok r /\ r == 1)
  /\ ~ (forall v t : Q, t <= 0 -> exists e, _round v t = Raise e).
Proof.
  split; [lra |]. split.
  - eexists. split; [reflexivity | reflexivity].
  - intros Hall. destruct (Hall 1 (- (1 # 2))) as [e He]; [lra |].
    discriminate He.
Qed.

(** C9 (amended): [_round] raises exactly when the tick is zero, and then it
    is the decimal division that raises ([InvalidOperation] for 0/0,
    [DivisionByZero] otherwise); for every non-zero tick, negative ones
    included, it returns [n * tick] where [n] is [value / tick] rounded
    toward zero: its floor when the quotient is non-negative, its ceiling
    when it is non-positive. *)
Theorem round_raises_only_on_zero_tick (v t : Q) :
  (t == 0 ->
     _round v t
     = Raise (if Qeq_bool v 0 then InvalidOperation else DivisionByZero))
  /\ (~ t == 0 ->
      exists n : Z,
        _round v t = Ok (inject_Z n * t)
        /\ (0 <= v / t -> n = Qfloor (v / t))
        /\ (v / t <= 0 -> n = Qceiling (v / t))
        /\ (0 < t -> 0 <= v -> inject_Z n * t <= v < inject_Z n * t + t)).
Proof.
  split.
  - intros Ht. unfold _round, decimal_div.
    apply Qeq_bool_iff in Ht. rewrite Ht. reflexivity.
  - intros Ht. exists (to_integral_value_ROUND_DOWN (v / t)).
    split; [apply round_value; exact Ht |].
    rewrite to_integral_value_ROUND_DOWN_toward_zero.
    split; [| split].
    + intros Hq. apply Qle_bool_iff in Hq. rewrite Hq. reflexivity.
    + intros Hq. destruct (Qle_bool 0 (v / t)) eqn:E; [| reflexivity].
      apply Qle_bool_iff in E.
      assert (Hz : v / t == 0) by lra.
      rewrite Hz. reflexivity.
    + intros Htpos Hv.
      assert (Hq : 0 <= v / t).
      { apply Qle_shift_div_l; [exact Htpos | lra]. }
      apply Qle_bool_iff in Hq. rewrite Hq.
      pose proof (Qfloor_le (v / t)) as Hlo.
      pose proof (Qlt_floor (v / t)) as Hhi.
      rewrite inject_Z_plus in Hhi.
      assert (Hv' : v == v / t * t) by (field; exact Ht).
      split.
      * rewrite Hv' at 2. apply Qmult_le_compat_r; lra.
      * rewrite Hv' at 1.
        setoid_replace (inject_Z (Qfloor (v / t)) * t + t)
          with ((inject_Z (Qfloor (v / t)) + inject_Z 1) * t) by ring.
        apply Qmult_lt_compat_r; [exact Htpos | exact Hhi].
Qed.

(** A zero tick raises; -1.7 on a tick of 0.5 is rounded toward zero to
    -1.5 = (-3) * 0.5, not down to -2. *)
Lemma round_raises_only_on_zero_tick_witness :
  _round 1 0 = Raise DivisionByZero
  /\ _round 0 0 = Raise InvalidOperation
  /\ exists n : Z,
       _round (- (17 # 10)) (1 # 2) = Ok (inject_Z n * (1 # 2))
       /\ n = (-3)%Z.
Proof.
  split; [| split].
  - destruct (round_raises_only_on_zero_tick 1 0) as [Hzero _].
    apply Hzero. reflexivity.
  - destruct (round_raises_only_on_zero_tick 0 0) as [Hzero _].
    apply Hzero. reflexivity.
  - destruct (round_raises_only_on_zero_tick (- (17 # 10)) (1 # 2))
      as [_ Hnonzero].
    destruct Hnonzero as (n & Hrun & _ & Hceil & _); [discriminate |].
    exists n. split; [exact Hrun |].
    rewrite Hceil; [reflexivity | discriminate].
Defined.

(** ** Risk controller *)

Lemma should_take_profit_guard (qty avg : Q) :
  Qltb (Qabs qty) QTY_EPSILON || Qeq_bool avg 0 = true
  <-> Qabs qty < QTY_EPSILON \/ avg == 0.
Proof.
  rewrite orb_true_iff, Qltb_lt, Qeq_bool_iff. reflexivity.
Qed.

Lemma should_take_profit_value (qty mark avg : Q) :
  Qltb (Qabs qty) QTY_EPSILON || Qeq_bool avg 0 = false ->
  _should_take_profit qty mark avg
  = Ok (Qgtb (qty * (mark - avg)) (8 # 100)
        || (Qgtb qty 0 && Qgtb ((mark - avg) / avg * 100) (1 # 2))
        || (Qltb qty 0 && Qltb ((mark - avg) / avg * 100) (- (1 # 2)))).
Proof.
  intros G. unfold _should_take_profit. rewrite G.
  apply orb_false_iff in G. destruct G as [_ Havg].
  unfold float_div. rewrite Havg. simpl.
  destruct (Qgtb (qty * (mark - avg)) (8 # 100)); [reflexivity |]. simpl.
  match goal with |- (if ?b then _ else _) = _ => destruct b end; reflexivity.
Qed.

Lemma Ok_bool_true_false (b : bool) :
  (@Ok bool b = Ok true <-> b = true) /\ (@Ok bool b = Ok false <-> b <> true).
Proof.
  destruct b; repeat split; intros; try reflexivity; try discriminate;
    congruence.
Qed.

(** The take-profit rule over exact rationals, as the idealised
    [_should_take_profit] states it: false on a flat position
    (|qty| < 0.0001) or a zero entry price; otherwise true exactly when
    qty*(mark-avgEntry) exceeds 0.08 or the percentage move
    (mark-avgEntry)/avgEntry*100 is beyond 0.5 in the position's favour.
    The program's own answer, in binary64 arithmetic, is characterised
    further below; the two differ only at a threshold. *)
Theorem should_take_profit_spec (qty mark avg : Q) :
  let favorable :=
    8 # 100 < qty * (mark - avg)
    \/ (0 < qty /\ 1 # 2 < (mark - avg) / avg * 100)
    \/ (qty < 0 /\ (mark - avg) / avg * 100 < - (1 # 2)) in
  (Qabs qty < QTY_EPSILON \/ avg == 0 ->
     _should_take_profit qty mark avg = Ok false)
  /\ (~ (Qabs qty < QTY_EPSILON \/ avg == 0) ->
      (_should_take_profit qty mark avg = Ok true <-> favorable)
      /\ (_should_take_profit qty mark avg = Ok false <-> ~ favorable)).
Proof.
  intros favorable. subst favorable.
  destruct (Qltb (Qabs qty) QTY_EPSILON || Qeq_bool avg 0) eqn:G.
  - split.
    + intros _. unfold _should_take_profit. rewrite G. reflexivity.
    + apply should_take_profit_guard in G. intros Hn. contradiction.
  - split.
    + intros Hg. apply should_take_profit_guard in Hg. congruence.
    + intros _. rewrite (should_take_profit_value qty mark avg G).
      match goal with
      | |- (Ok ?b = _ <-> _) /\ _ =>
          destruct (Ok_bool_true_false b) as [Ht Hf]; rewrite Ht, Hf
      end.
      rewrite !orb_true_iff, !andb_true_iff, !Qgtb_gt, !Qltb_lt.
      tauto.
Qed.

(** A long of 0.05 bought at 1990 with the mark at 2000 has a PnL of 0.5 and
    triggers; with an entry price of 0 nothing triggers. *)
Lemma should_take_profit_spec_witness :
  _should_take_profit (5 # 100) 2000 1990 = Ok true
  /\ _should_take_profit (5 # 100) 2000 0 = Ok false.
Proof.
  split.
  - destruct (should_take_profit_spec (5 # 100) 2000 1990) as [_ Hopen].
    destruct Hopen as [Htrue _].
    + intros [Hflat | Hzero]; [discriminate Hflat | discriminate Hzero].
    + apply Htrue. left. reflexivity.
  - destruct (should_take_profit_spec (5 # 100) 2000 0) as [Hguard _].
    apply Hguard. right. reflexivity.
Defined.

(** C10: [_should_take_profit] is total.  It returns a boolean on every
    input; the float division by [avg_entry_price] sits behind the early
    guard, so wherever it is evaluated the entry price is non-zero (and
    |qty| >= 0.0001) and the division returns. *)
Theorem should_take_profit_total (qty mark avg : Q) :
  (exists b : bool, _should_take_profit qty mark avg = Ok b)
  /\ (Qltb (Qabs qty) QTY_EPSILON || Qeq_bool avg 0 = true ->
      _should_take_profit qty mark avg = Ok false)
  /\ (Qltb (Qabs qty) QTY_EPSILON || Qeq_bool avg 0 = false ->
      ~ avg == 0
      /\ QTY_EPSILON <= Qabs qty
      /\ float_div (mark - avg) avg = Ok ((mark - avg) / avg)).
Proof.
  split; [| split].
  - destruct (Qltb (Qabs qty) QTY_EPSILON || Qeq_bool avg 0) eqn:G.
    + exists false. unfold _should_take_profit. rewrite G. reflexivity.
    + eexists. apply should_take_profit_value. exact G.
  - intros G. unfold _should_take_profit. rewrite G. reflexivity.
  - intros G. apply orb_false_iff in G. destruct G as [Hq Havg].
    split; [apply Qeq_bool_false; exact Havg |].
    split; [apply Qltb_ge; exact Hq |].
    unfold float_div. rewrite Havg. reflexivity.
Qed.

(** The only way [float_div] raises is a zero divisor. *)
Lemma float_div_raises_iff (x y : Q) :
  (exists e, float_div x y = Raise e) <-> y == 0.
Proof.
  unfold float_div. case_test.
  - split; [intros _; exact E | intros _; eexists; reflexivity].
  - split; [intros [e He]; discriminate | intros Hy; contradiction].
Qed.

Lemma stop_position_value :
  COLLATERAL_USD * MAX_LEVERAGE / REFERENCE_ETH_PRICE * STOP_THRESHOLD
  == 24 # 100.
Proof. reflexivity. Qed.

(** C7: [_should_stop_quoting] is true exactly when |qty| exceeds
    100*8/2000*0.6 = 0.24; it is true at 0.25, false at 0.20, and its result
    does not depend on the mark price passed to it. *)
Theorem should_stop_quoting_spec :
  (forall qty mark : Q,
     _should_stop_quoting qty mark = true
     <-> COLLATERAL_USD * MAX_LEVERAGE / REFERENCE_ETH_PRICE * STOP_THRESHOLD
         < Qabs qty)
  /\ (forall qty mark : Q,
        _should_stop_quoting qty mark = true <-> 24 # 100 < Qabs qty)
  /\ (forall mark : Q, _should_stop_quoting (25 # 100) mark = true)
  /\ (forall mark : Q, _should_stop_quoting (20 # 100) mark = false)
  /\ (forall qty mark1 mark2 : Q,
        _should_stop_quoting qty mark1 = _should_stop_quoting qty mark2).
Proof.
  assert (Hspec : forall qty mark : Q,
             _should_stop_quoting qty mark = true
             <-> COLLATERAL_USD * MAX_LEVERAGE / REFERENCE_ETH_PRICE
                 * STOP_THRESHOLD < Qabs qty).
  { intros qty mark. unfold _should_stop_quoting.
    case_test; split; intros Hx; try reflexivity; try discriminate.
    - exact E.
    - exfalso. apply (Qlt_not_le _ _ Hx). exact E. }
  split; [exact Hspec |].
  split.
  { intros qty mark. rewrite Hspec, stop_position_value. reflexivity. }
  split; [intros mark; reflexivity |].
  split; [intros mark; reflexivity |].
  intros qty mark1 mark2. reflexivity.
Qed.

(** ** Quote engine *)

(** The requote rule over exact rationals, as the idealised
    [_should_update_quotes] states it.  The program's own answer, in binary64
    arithmetic, is characterised further below; the two differ only at a
    threshold. *)
Theorem should_update_quotes_spec :
  (forall self mark qty,
     current_bid_price self = None \/ current_ask_price self = None ->
     _should_update_quotes self mark qty = true)
  /\ (forall self mark qty bid ask,
        current_bid_price self = Some bid ->
        current_ask_price self = Some ask ->
        (qty_tick self * 2 < Qabs (qty - last_position_qty self) ->
         _should_update_quotes self mark qty = true)
        /\ (~ qty_tick self * 2 < Qabs (qty - last_position_qty self) ->
            (_should_update_quotes self mark qty = true
             <-> ask + (ask - bid) * (6 # 10) < mark
                 \/ mark < bid - (ask - bid) * (6 # 10))))
  /\ (forall self mark qty,
        current_bid_price self = Some 1995 ->
        current_ask_price self = Some 2005 ->
        qty == last_position_qty self ->
        0 <= qty_tick self ->
        (_should_update_quotes self mark qty = true
         <-> 2011 < mark \/ mark < 1989)).
Proof.
  assert (Hgen : forall self mark qty bid ask,
             current_bid_price self = Some bid ->
             current_ask_price self = Some ask ->
             (qty_tick self * 2 < Qabs (qty - last_position_qty self) ->
              _should_update_quotes self mark qty = true)
             /\ (~ qty_tick self * 2 < Qabs (qty - last_position_qty self) ->
                 (_should_update_quotes self mark qty = true
                  <-> ask + (ask - bid) * (6 # 10) < mark
                      \/ mark < bid - (ask - bid) * (6 # 10)))).
  { intros self mark qty bid ask Hb Ha.
    unfold _should_update_quotes. rewrite Hb, Ha.
    destruct (Qgtb (Qabs (qty - last_position_qty self)) (qty_tick self * 2))
      eqn:Efill.
    - split; [reflexivity |].
      intros Hn. apply Qgtb_gt in Efill. contradiction.
    - apply Qgtb_le in Efill. split.
      + intros Hlt. exfalso. apply (Qlt_not_le _ _ Hlt). exact Efill.
      + intros _.
        destruct (Qgtb mark (ask + (ask - bid) * (6 # 10))) eqn:Eup.
        { apply Qgtb_gt in Eup. split; [left; exact Eup | reflexivity]. }
        destruct (Qltb mark (bid - (ask - bid) * (6 # 10))) eqn:Edown.
        { apply Qltb_lt in Edown. split; [right; exact Edown | reflexivity]. }
        apply Qgtb_le in Eup. apply Qltb_ge in Edown.
        split; [discriminate |].
        intros [Hup | Hdown]; exfalso.
        * apply (Qlt_not_le _ _ Hup). exact Eup.
        * apply (Qlt_not_le _ _ Hdown). exact Edown. }
  split; [| split; [exact Hgen |]].
  - intros self mark qty [Hb | Ha]; unfold _should_update_quotes.
    + rewrite Hb. reflexivity.
    + rewrite Ha. destruct (current_bid_price self); reflexivity.
  - intros self mark qty Hb Ha Hq Htick.
    destruct (Hgen self mark qty 1995 2005 Hb Ha) as [_ Hstill].
    rewrite Hstill.
    + split; (intros [Hup | Hdown]; [left | right]; lra).
    + assert (Hz : Qabs (qty - last_position_qty self) == 0).
      { setoid_replace (qty - last_position_qty self) with 0 by lra.
        reflexivity. }
      rewrite Hz. lra.
Qed.

(** Quoting 1995 / 2005: a mark of 2009 or of exactly 2011 does not
    trigger, 2011.01 does. *)
Lemma should_update_quotes_spec_witness :
  _should_update_quotes quoted_bot 2009 0 = false
  /\ _should_update_quotes quoted_bot 2011 0 = false
  /\ _should_update_quotes quoted_bot (201101 # 100) 0 = true.
Proof.
  destruct should_update_quotes_spec as (_ & _ & Hquoted).
  assert (Hiff : forall mark,
             _should_update_quotes quoted_bot mark 0 = true
             <-> 2011 < mark \/ mark < 1989).
  { intros mark. apply Hquoted; [reflexivity | reflexivity | reflexivity |].
    discriminate. }
  split; [| split].
  - apply not_true_iff_false. intros Ht. apply Hiff in Ht.
    destruct Ht as [Hup | Hdown]; [discriminate Hup | discriminate Hdown].
  - apply not_true_iff_false. intros Ht. apply Hiff in Ht.
    destruct Ht as [Hup | Hdown]; [discriminate Hup | discriminate Hdown].
  - apply Hiff. left. reflexivity.
Defined.

(** ** The decision functions as the program computes them *)

Lemma binary64_take_profit_value (qty mark avg : Q) :
  Qltb (Qabs qty) (Binary64.binary64 (1 # 10000)) || Qeq_bool avg 0 = false ->
  Binary64._should_take_profit qty mark avg
  = Ok (Qgtb (Binary64.fmul qty (Binary64.fsub mark avg))
             (Binary64.binary64 (8 # 100))
        || (Qgtb qty 0
            && Qgtb (Binary64.fmul
                       (Binary64.binary64 (Binary64.fsub mark avg / avg)) 100)
                    (1 # 2))
        || (Qltb qty 0
            && Qltb (Binary64.fmul
                       (Binary64.binary64 (Binary64.fsub mark avg / avg)) 100)
                    (- (1 # 2)))).
Proof.
  intros G. unfold Binary64._should_take_profit. rewrite G.
  apply orb_false_iff in G. destruct G as [_ Havg].
  unfold Binary64.fdiv. rewrite Havg. simpl.
  destruct (Qgtb (Binary64.fmul qty (Binary64.fsub mark avg))
              (Binary64.binary64 (8 # 100))); [reflexivity |].
  simpl.
  match goal with |- (if ?b then _ else _) = _ => destruct b end; reflexivity.
Qed.

(** *** Binary64 rounds to a nearest float

    [Binary64.binary64 q] is a binary64 value, an integer of at most 53 bits
    times a power of two not below 2^-1074, normalised unless the exponent
    is the smallest one, and it lies within half a unit in the last place of
    [q].  The exponent has no upper bound: overflow is outside the model. *)

Lemma pow2_nonneg_exponent (e : Z) : (0 <= e)%Z -> Binary64.pow2 e = inject_Z (2 ^ e).
Proof.
  intros He. unfold Binary64.pow2. apply Z.leb_le in He. rewrite He. reflexivity.
Qed.

Lemma pow2_pos (e : Z) : 0 < Binary64.pow2 e.
Proof.
  unfold Binary64.pow2. destruct (0 <=? e)%Z eqn:E.
  - apply Z.leb_le in E. change 0 with (inject_Z 0). rewrite <- Zlt_Qlt.
    apply Z.pow_pos_nonneg; lia.
  - reflexivity.
Qed.

Lemma pow2_succ (e : Z) : Binary64.pow2 (e + 1) == 2 * Binary64.pow2 e.
Proof.
  destruct (Z_lt_le_dec e 0) as [Hneg | Hpos].
  - destruct (Z.eq_dec e (-1)) as [-> | Hne]; [reflexivity |].
    unfold Binary64.pow2.
    assert (E1 : (0 <=? e + 1)%Z = false) by (apply Z.leb_gt; lia).
    assert (E2 : (0 <=? e)%Z = false) by (apply Z.leb_gt; lia).
    rewrite E1, E2.
    assert (Hp : (2 ^ (- e) = 2 * 2 ^ (- (e + 1)))%Z).
    { replace (- e)%Z with (Z.succ (- (e + 1))) by lia.
      apply Z.pow_succ_r. lia. }
    assert (H1 : (0 < 2 ^ (- (e + 1)))%Z) by (apply Z.pow_pos_nonneg; lia).
    unfold Qeq. simpl.
    rewrite !Z2Pos.id by lia. lia.
  - rewrite !pow2_nonneg_exponent by lia.
    rewrite Z.pow_add_r by lia. rewrite inject_Z_mult.
    change (inject_Z (2 ^ 1)) with 2. ring.
Qed.

Lemma pow2_add (x y : Z) : Binary64.pow2 (x + y) == Binary64.pow2 x * Binary64.pow2 y.
Proof.
  revert y. apply (Z.peano_ind (fun y => Binary64.pow2 (x + y) == Binary64.pow2 x * Binary64.pow2 y)).
  - rewrite Z.add_0_r. change (Binary64.pow2 0) with 1. ring.
  - intros y IH. replace (x + Z.succ y)%Z with ((x + y) + 1)%Z by lia.
    replace (Z.succ y) with (y + 1)%Z by lia.
    rewrite !pow2_succ, IH. ring.
  - intros y IH.
    pose proof (pow2_succ (x + Z.pred y)) as H1.
    replace (x + Z.pred y + 1)%Z with (x + y)%Z in H1 by lia.
    pose proof (pow2_succ (Z.pred y)) as H2.
    replace (Z.pred y + 1)%Z with y in H2 by lia.
    rewrite IH, H2 in H1. lra.
Qed.

Lemma pow2_opp (e : Z) : Binary64.pow2 e * Binary64.pow2 (- e) == 1.
Proof.
  rewrite <- pow2_add. replace (e + - e)%Z with 0%Z by lia. reflexivity.
Qed.

Lemma pow2_le (x y : Z) : (x <= y)%Z -> Binary64.pow2 x <= Binary64.pow2 y.
Proof.
  intros Hxy. replace y with (x + (y - x))%Z by lia. rewrite pow2_add.
  pose proof (pow2_pos x) as Hx.
  assert (H1 : 1 <= Binary64.pow2 (y - x)).
  { rewrite pow2_nonneg_exponent by lia. change 1 with (inject_Z 1).
    rewrite <- Zle_Qle.
    assert (0 < 2 ^ (y - x))%Z by (apply Z.pow_pos_nonneg; lia). lia. }
  nra.
Qed.

Lemma div_pow2 (a : Q) (e : Z) : a / Binary64.pow2 e == a * Binary64.pow2 (- e).
Proof.
  pose proof (pow2_pos e) as He. pose proof (pow2_opp e) as Ho.
  assert (Hinv : Binary64.pow2 (- e) == / Binary64.pow2 e).
  { apply (Qmult_inj_l _ _ (Binary64.pow2 e)); [lra |].
    rewrite Qmult_inv_r by lra. exact Ho. }
  unfold Qdiv. rewrite Hinv. reflexivity.
Qed.

Lemma round_half_even_near (q : Q) :
  Qabs (inject_Z (Binary64.round_half_even q) - q) <= 1 # 2.
Proof.
  unfold Binary64.round_half_even.
  pose proof (Qfloor_le q) as Hlo. pose proof (Qlt_floor q) as Hhi.
  rewrite inject_Z_plus in Hhi. change (inject_Z 1) with 1 in Hhi.
  set (f := Qfloor q) in *.
  assert (Hup : inject_Z (f + 1) == inject_Z f + 1)
    by (rewrite inject_Z_plus; reflexivity).
  apply Qabs_Qle_condition.
  destruct (Qcompare (q - inject_Z f) (1 # 2)) eqn:E.
  - apply Qeq_alt in E.
    destruct (Z.even f); [| rewrite Hup]; split; lra.
  - apply Qlt_alt in E. split; lra.
  - apply Qgt_alt in E. rewrite Hup. split; lra.
Qed.

Lemma round_half_even_between (q : Q) (lo hi : Z) :
  inject_Z lo <= q -> q <= inject_Z hi ->
  (lo <= Binary64.round_half_even q <= hi)%Z.
Proof.
  intros Hlo Hhi. unfold Binary64.round_half_even.
  assert (Hf_lo : (lo <= Qfloor q)%Z).
  { rewrite <- (Qfloor_Z lo). apply Qfloor_resp_le. exact Hlo. }
  assert (Hf_hi : (Qfloor q <= hi)%Z).
  { rewrite <- (Qfloor_Z hi). apply Qfloor_resp_le. exact Hhi. }
  pose proof (Qfloor_le q) as Hle.
  set (f := Qfloor q) in *.
  assert (Hstep : inject_Z f < q -> (f + 1 <= hi)%Z).
  { intros Hlt.
    assert (Hfh : inject_Z f < inject_Z hi) by lra.
    rewrite <- Zlt_Qlt in Hfh. lia. }
  destruct (Qcompare (q - inject_Z f) (1 # 2)) eqn:E.
  - apply Qeq_alt in E. destruct (Z.even f); [lia |].
    split; [lia |]. apply Hstep. lra.
  - lia.
  - apply Qgt_alt in E. split; [lia |]. apply Hstep. lra.
Qed.

(** The mantissa window: scaled by the chosen exponent, a positive number
    lies between 2^52 (included) and 2^53 (excluded). *)
Lemma normal_window (a : Q) :
  0 < a ->
  let e0 := (Z.log2 (Qnum a) - Z.log2 (Zpos (Qden a)) - 52)%Z in
  let e1 := if Qltb (a / Binary64.pow2 e0) (inject_Z (2 ^ 52)) then (e0 - 1)%Z else e0 in
  inject_Z (2 ^ 52) <= a / Binary64.pow2 e1 /\ a / Binary64.pow2 e1 < inject_Z (2 ^ 53).
Proof.
  intros Ha e0 e1.
  destruct a as [n d]. cbn [Qnum Qden] in e0.
  assert (Hn : (0 < n)%Z).
  { unfold Qlt in Ha. simpl in Ha. lia. }
  pose proof (Z.log2_spec n Hn) as [Hn1 Hn2].
  pose proof (Z.log2_spec (Zpos d) (Pos2Z.is_pos d)) as [Hd1 Hd2].
  pose proof (Z.log2_nonneg n) as Hln.
  pose proof (Z.log2_nonneg (Zpos d)) as Hld.
  set (ln := Z.log2 n) in *. set (ld := Z.log2 (Zpos d)) in *.
  assert (Hq : n # d == inject_Z n / inject_Z (Zpos d)) by apply Qmake_Qdiv.
  assert (Hdpos : 0 < inject_Z (Zpos d)) by reflexivity.
  assert (Hn1q : Binary64.pow2 ln <= inject_Z n).
  { rewrite pow2_nonneg_exponent by lia. rewrite <- Zle_Qle. exact Hn1. }
  assert (Hn2q : inject_Z n < Binary64.pow2 (ln + 1)).
  { rewrite pow2_nonneg_exponent by lia. rewrite <- Zlt_Qlt.
    replace (ln + 1)%Z with (Z.succ ln) by lia. exact Hn2. }
  assert (Hd1q : Binary64.pow2 ld <= inject_Z (Zpos d)).
  { rewrite pow2_nonneg_exponent by lia. rewrite <- Zle_Qle. exact Hd1. }
  assert (Hd2q : inject_Z (Zpos d) < Binary64.pow2 (ld + 1)).
  { rewrite pow2_nonneg_exponent by lia. rewrite <- Zlt_Qlt.
    replace (ld + 1)%Z with (Z.succ ld) by lia. exact Hd2. }
  set (N := inject_Z n) in *. set (D := inject_Z (Zpos d)) in *.
  (* a * D = N *)
  assert (HaD : (n # d) * D == N).
  { rewrite Hq. field. lra. }
  set (a := n # d) in *.
  pose proof (pow2_pos ln) as Pln. pose proof (pow2_pos ld) as Pld.
  pose proof (pow2_succ ln) as Sln. pose proof (pow2_succ ld) as Sld.
  (* bounds on the scaled value at e0 *)
  assert (Hs0 : a / Binary64.pow2 e0 == a * Binary64.pow2 ld * Binary64.pow2 (- ln) * inject_Z (2 ^ 52)).
  { rewrite div_pow2. unfold e0.
    replace (- (ln - ld - 52))%Z with (ld + (- ln + 52))%Z by lia.
    rewrite !pow2_add. rewrite (pow2_nonneg_exponent 52) by lia. ring. }
  pose proof (pow2_opp ln) as Oln. pose proof (pow2_pos (- ln)) as Pmln.
  set (t := a * Binary64.pow2 ld * Binary64.pow2 (- ln)) in *.
  assert (Ht_lo : 1 # 2 < t).
  { (* a * D >= Binary64.pow2 ln, D < 2 Binary64.pow2 ld => a * 2 Binary64.pow2 ld > Binary64.pow2 ln *)
    unfold t.
    assert (H1 : Binary64.pow2 ln < a * (2 * Binary64.pow2 ld)) by nra.
    assert (H2 : Binary64.pow2 ln * Binary64.pow2 (- ln) < a * (2 * Binary64.pow2 ld) * Binary64.pow2 (- ln))
      by nra.
    lra. }
  assert (Ht_hi : t < 2).
  { unfold t.
    assert (H1 : a * Binary64.pow2 ld < 2 * Binary64.pow2 ln) by nra.
    assert (H2 : a * Binary64.pow2 ld * Binary64.pow2 (- ln) < 2 * Binary64.pow2 ln * Binary64.pow2 (- ln))
      by nra.
    lra. }
  assert (H52 : inject_Z (2 ^ 52) == 4503599627370496) by reflexivity.
  assert (H53 : inject_Z (2 ^ 53) == 9007199254740992) by reflexivity.
  unfold e1. destruct (Qltb (a / Binary64.pow2 e0) (inject_Z (2 ^ 52))) eqn:E.
  - apply Qltb_lt in E.
    assert (Hs1 : a / Binary64.pow2 (e0 - 1) == 2 * (a / Binary64.pow2 e0)).
    { rewrite !div_pow2.
      replace (- (e0 - 1))%Z with (- e0 + 1)%Z by lia.
      rewrite pow2_succ. ring. }
    rewrite Hs1, Hs0 in *. rewrite H52, H53 in *. split; lra.
  - apply Qltb_ge in E. rewrite Hs0 in *. rewrite H52, H53 in *. split; lra.
Qed.

Theorem binary64_pos_nearest (a : Q) :
  0 < a ->
  exists m e : Z,
    Binary64.binary64_pos a == inject_Z m * Binary64.pow2 e
    /\ (-1074 <= e)%Z
    /\ (0 <= m <= 2 ^ 53)%Z
    /\ Qabs (Binary64.binary64_pos a - a) <= (1 # 2) * Binary64.pow2 e
    /\ ((-1074 < e)%Z -> (2 ^ 52 <= m)%Z).
Proof.
  intros Ha.
  destruct (normal_window a Ha) as [Hlo Hhi].
  unfold Binary64.binary64_pos.
  set (e0 := (Z.log2 (Qnum a) - Z.log2 (Zpos (Qden a)) - 52)%Z) in *.
  set (e1 := if Qltb (a / Binary64.pow2 e0) (inject_Z (2 ^ 52))
             then (e0 - 1)%Z else e0) in *.
  set (e := Z.max e1 (-1074)).
  set (s := a / Binary64.pow2 e).
  exists (Binary64.round_half_even s), e.
  pose proof (pow2_pos e) as Pe. pose proof (pow2_pos e1) as Pe1.
  assert (Has : a == s * Binary64.pow2 e) by (unfold s; field; lra).
  assert (Hs_pos : 0 < s).
  { unfold s. apply Qlt_shift_div_l; lra. }
  assert (Hs_hi : s < inject_Z (2 ^ 53)).
  { assert (Hle : Binary64.pow2 e1 <= Binary64.pow2 e) by (apply pow2_le; unfold e; lia).
    assert (Ha1 : a == a / Binary64.pow2 e1 * Binary64.pow2 e1) by (field; lra).
    assert (HK : 0 < inject_Z (2 ^ 53)) by reflexivity.
    unfold s. apply Qlt_shift_div_r; [lra |].
    set (s1 := a / Binary64.pow2 e1) in *. set (K := inject_Z (2 ^ 53)) in *.
    assert (H1 : a < K * Binary64.pow2 e1) by nra.
    nra. }
  split; [apply Qred_correct |].
  split; [unfold e; lia |].
  split.
  { apply round_half_even_between; [change (inject_Z 0) with 0 | ]; lra. }
  split.
  { rewrite Qred_correct.
    pose proof (round_half_even_near s) as Hnear.
    apply Qabs_Qle_condition in Hnear. apply Qabs_Qle_condition.
    set (m := inject_Z (Binary64.round_half_even s)) in *.
    assert (Hd : m * Binary64.pow2 e - a == (m - s) * Binary64.pow2 e) by (rewrite Has; ring).
    rewrite Hd.
    assert (H1 : 0 <= (m - s + (1 # 2)) * Binary64.pow2 e)
      by (apply Qmult_le_0_compat; lra).
    assert (H2 : 0 <= ((1 # 2) - (m - s)) * Binary64.pow2 e)
      by (apply Qmult_le_0_compat; lra).
    set (p := Binary64.pow2 e) in *. clearbody m p. clear - H1 H2.
    split; lra. }
  intros Hnormal.
  assert (He : e = e1) by (unfold e in *; lia).
  assert (Hs_lo : inject_Z (2 ^ 52) <= s) by (unfold s; rewrite He; exact Hlo).
  apply (round_half_even_between s (2 ^ 52) (2 ^ 53)); lra.
Qed.

Theorem binary64_nearest (q : Q) :
  exists m e : Z,
    Binary64.binary64 q == inject_Z m * Binary64.pow2 e
    /\ (-1074 <= e)%Z
    /\ (Z.abs m <= 2 ^ 53)%Z
    /\ Qabs (Binary64.binary64 q - q) <= (1 # 2) * Binary64.pow2 e
    /\ ((-1074 < e)%Z -> (2 ^ 52 <= Z.abs m)%Z).
Proof.
  destruct q as [n d]. destruct n as [| p | p].
  - exists 0%Z, (-1074)%Z. unfold Binary64.binary64. cbn [Qnum].
    split; [reflexivity |]. split; [lia |]. split; [simpl; lia |].
    split; [| intros Hlt; lia].
    assert (Hz : 0 - (0 # d) == 0) by reflexivity.
    rewrite Hz. discriminate.
  - assert (Hpos : 0 < Zpos p # d) by reflexivity.
    destruct (binary64_pos_nearest _ Hpos) as (m & e & Hr & He & Hm & Herr & Hn).
    exists m, e. unfold Binary64.binary64. cbn [Qnum].
    rewrite Z.abs_eq by lia.
    repeat split; try assumption; lia.
  - assert (Hpos : 0 < Zpos p # d) by reflexivity.
    destruct (binary64_pos_nearest _ Hpos) as (m & e & Hr & He & Hm & Herr & Hn).
    exists (- m)%Z, e. unfold Binary64.binary64. cbn [Qnum].
    change (- (Z.neg p # d)) with (Zpos p # d).
    rewrite Z.abs_opp, Z.abs_eq by lia.
    split; [rewrite inject_Z_opp, Hr; ring |].
    split; [exact He |]. split; [lia |].
    split; [| exact Hn].
    assert (Hflip : - Binary64.binary64_pos (Z.pos p # d) - (Z.neg p # d)
                    == - (Binary64.binary64_pos (Z.pos p # d) - (Z.pos p # d))).
    { assert (Hq : Z.neg p # d == - (Z.pos p # d)) by reflexivity.
      rewrite Hq. ring. }
    rewrite Hflip, Qabs_opp. exact Herr.
Qed.

(** The rounding function against values of IEEE 754 binary64 known from
    the language: the decimal literals of the source, 0.1 + 0.2, a tie that
    goes to the even neighbour (2^53 + 1), and a tie in the subnormal range
    that goes to zero (half of the smallest positive float). *)
Lemma binary64_known_values :
  Binary64.binary64 (1 # 10) = 3602879701896397 # 36028797018963968
  /\ Binary64.binary64 (8 # 100) = 5764607523034235 # 72057594037927936
  /\ Binary64.binary64 (1 # 10000)
     = 7378697629483821 # 73786976294838206464
  /\ Binary64.binary64 (6 # 10) = 5404319552844595 # 9007199254740992
  /\ Binary64.binary64 (20002 # 10) = 8796972631510221 # 4398046511104
  /\ Binary64.binary64 (- (1 # 3))
     = - (6004799503160661 # 18014398509481984)
  /\ Binary64.fadd (Binary64.binary64 (1 # 10)) (Binary64.binary64 (2 # 10))
     = 1351079888211149 # 4503599627370496
  /\ Binary64.binary64 2000 = 2000
  /\ Binary64.binary64 (inject_Z (2 ^ 53 + 1)) = inject_Z (2 ^ 53)
  /\ Binary64.binary64 (inject_Z (2 ^ 53 + 3)) = inject_Z (2 ^ 53 + 4)
  /\ Binary64.binary64 (Binary64.pow2 (- 1075)) = 0
  /\ Binary64.binary64 (3 * Binary64.pow2 (- 1075))
     = Qred (Binary64.pow2 (- 1073)).
Proof. repeat split; vm_compute; reflexivity. Qed.

(** Why the quote prices of the program can sit one tick under those of
    exact arithmetic.  At a mark of 2000 and a spread of 10 bps the program
    forms 2000 * (1 + 10/10000) in binary64 and obtains
    2001.9999999999998, just under the grid point 2002 that exact
    arithmetic gives; truncated to a tick of 0.01 that is 2001.99. *)
Lemma float_product_under_grid_point :
  let product :=
    Binary64.fmul 2000
      (Binary64.fadd 1 (Binary64.binary64 (10 / 10000))) in
  product < 2002
  /\ 2000 * (1 + 10 / 10000) == 2002
  /\ exists r, _round product (1 # 100) = Ok r /\ r == 200199 # 100.
Proof.
  split; [vm_compute; reflexivity |].
  split; [reflexivity |].
  eexists. split; [vm_compute; reflexivity | reflexivity].
Qed.

(** C6 fails as stated on the program.  For a long of 0.4 entered at 2000.0
    with the mark at 2000.2, each quantity being the float the venue's
    decimal parses to, the PnL of the claim is 0.4 * 0.2 = 0.08, which does
    not exceed 0.08, and the move is 0.01 %, far from 0.5 %: the claim's
    condition is false.  The code computes 0.0800000000000182 and answers
    true.  Reading the claim over the floats themselves, in exact
    arithmetic, does not save it: for a long of 0.08 entered at 2000 with
    the mark at 2001 the float nearest 0.08 lies above 0.08, so the exact
    PnL exceeds 0.08, and the code, comparing that float with itself,
    answers false. *)
Lemma take_profit_threshold_counterexamples :
  (Binary64._should_take_profit
     (Binary64.binary64 (4 # 10)) (Binary64.binary64 (20002 # 10))
     (Binary64.binary64 2000)
   = Ok true
   /\ ~ (Qabs (4 # 10) < 1 # 10000 \/ 2000 == 0)
   /\ ~ (8 # 100 < (4 # 10) * ((20002 # 10) - 2000)
         \/ (0 < 4 # 10 /\ 1 # 2 < ((20002 # 10) - 2000) / 2000 * 100)
         \/ (4 # 10 < 0 /\ ((20002 # 10) - 2000) / 2000 * 100 < - (1 # 2))))
  /\ (Binary64._should_take_profit (Binary64.binary64 (8 # 100)) 2001 2000
      = Ok false
      /\ ~ (Qabs (Binary64.binary64 (8 # 100)) < 1 # 10000 \/ 2000 == 0)
      /\ 8 # 100 < Binary64.binary64 (8 # 100) * (2001 - 2000)).
Proof.
  split.
  - split; [vm_compute; reflexivity |].
    split.
    + intros [Hflat | Hzero]; [discriminate Hflat | discriminate Hzero].
    + intros [Hpnl | [[_ Hmove] | [Hneg _]]];
        [apply (Qlt_not_le _ _ Hpnl) | apply (Qlt_not_le _ _ Hmove)
        | apply (Qlt_not_le _ _ Hneg)]; discriminate.
  - split; [vm_compute; reflexivity |].
    split.
    + intros [Hflat | Hzero];
        [vm_compute in Hflat; discriminate Hflat | discriminate Hzero].
    + vm_compute. reflexivity.
Qed.

(** C6 (amended): in the program's binary64 arithmetic, where [fl] rounds
    to the nearest float, [_should_take_profit] answers false when
    |qty| < fl(0.0001) or avgEntry == 0, and otherwise answers true exactly
    when fl(qty * fl(mark - avgEntry)) > fl(0.08) or the percentage move
    fl(fl(fl(mark - avgEntry) / avgEntry) * 100) is beyond 0.5 in the
    position's favour (> 0.5 when long, < -0.5 when short). *)
Theorem take_profit_binary64_spec (qty mark avg : Q) :
  let pnl := Binary64.fmul qty (Binary64.fsub mark avg) in
  let pct :=
    Binary64.fmul (Binary64.binary64 (Binary64.fsub mark avg / avg)) 100 in
  let favorable :=
    Binary64.binary64 (8 # 100) < pnl
    \/ (0 < qty /\ 1 # 2 < pct)
    \/ (qty < 0 /\ pct < - (1 # 2)) in
  (Qabs qty < Binary64.binary64 (1 # 10000) \/ avg == 0 ->
     Binary64._should_take_profit qty mark avg = Ok false)
  /\ (~ (Qabs qty < Binary64.binary64 (1 # 10000) \/ avg == 0) ->
      (Binary64._should_take_profit qty mark avg = Ok true <-> favorable)
      /\ (Binary64._should_take_profit qty mark avg = Ok false
          <-> ~ favorable)).
Proof.
  intros pnl pct favorable. subst pnl pct favorable.
  destruct (Qltb (Qabs qty) (Binary64.binary64 (1 # 10000))
            || Qeq_bool avg 0) eqn:G.
  - split.
    + intros _. unfold Binary64._should_take_profit. rewrite G. reflexivity.
    + intros Hn. exfalso. apply Hn.
      apply orb_true_iff in G. rewrite Qltb_lt, Qeq_bool_iff in G. exact G.
  - split.
    + intros Hg. rewrite <- Qltb_lt, <- Qeq_bool_iff, <- orb_true_iff in Hg.
      congruence.
    + intros _. rewrite (binary64_take_profit_value qty mark avg G).
      match goal with
      | |- (Ok ?b = _ <-> _) /\ _ =>
          destruct (Ok_bool_true_false b) as [Ht Hf]; rewrite Ht, Hf
      end.
      rewrite !orb_true_iff, !andb_true_iff, !Qgtb_gt, !Qltb_lt.
      tauto.
Qed.

(** A long of 0.05 bought at 1990 with the mark at 2000 triggers; the
    boundary position whose float PnL is exactly fl(0.08) does not. *)
Lemma take_profit_binary64_spec_witness :
  Binary64._should_take_profit (Binary64.binary64 (5 # 100)) 2000 1990
  = Ok true
  /\ Binary64._should_take_profit
       (Binary64.binary64 (128 # 100)) (Binary64.binary64 (160625 # 10000)) 16
     = Ok false.
Proof.
  split.
  - destruct (take_profit_binary64_spec
                (Binary64.binary64 (5 # 100)) 2000 1990) as [_ Hopen].
    destruct Hopen as [Htrue _].
    + intros [Hflat | Hzero];
        [vm_compute in Hflat; discriminate Hflat
        | vm_compute in Hzero; discriminate Hzero].
    + apply Htrue. left. vm_compute. reflexivity.
  - destruct (take_profit_binary64_spec
                (Binary64.binary64 (128 # 100))
                (Binary64.binary64 (160625 # 10000)) 16) as [_ Hopen].
    destruct Hopen as [_ Hfalse].
    + intros [Hflat | Hzero];
        [vm_compute in Hflat; discriminate Hflat
        | vm_compute in Hzero; discriminate Hzero].
    + apply Hfalse.
      intros [Hpnl | [[_ Hmove] | [Hneg _]]];
        [apply (Qlt_not_le _ _ Hpnl) | apply (Qlt_not_le _ _ Hmove)
        | apply (Qlt_not_le _ _ Hneg)]; vm_compute; discriminate.
Defined.

(** C8 fails as stated on the program, in the fill test and in the price
    test.

    Fill.  Quoting 1995 / 2005 with the mark at 2000, a position that moved
    from 0.015 to 0.017 on a quantity tick of 0.001 changed by exactly two
    ticks: |qty - lastQty| = 0.002 does not exceed 2*qtyTick = 0.002 and the
    mark is inside the band, so the claim says no requote.  The code
    computes 0.0020000000000000018 > 0.002 and requotes.

    Price.  Quoting 1990.0 / 1990.1 on an unchanged position, the literal
    threshold is 1990.1 + 0.6*0.1 = 1990.16; a mark of 1990.16 does not
    exceed it, and the code requotes.  Reading the claim over the floats
    themselves, in exact arithmetic, does not save it: quoting
    2389.46 / 2390.06 with the mark at 2390.42, the float mark exceeds the
    float ask plus 0.6 times the float width, and the code, whose rounded
    sum is the mark itself, does not requote. *)
Lemma requote_threshold_counterexamples :
  (Binary64._should_update_quotes float_quoted_bot 2000
     (Binary64.binary64 (17 # 1000)) = true
   /\ current_bid_price float_quoted_bot = Some 1995
   /\ current_ask_price float_quoted_bot = Some 2005
   /\ last_position_qty float_quoted_bot = Binary64.binary64 (15 # 1000)
   /\ qty_tick float_quoted_bot = Binary64.binary64 (1 # 1000)
   /\ ~ (2 * (1 # 1000) < Qabs ((17 # 1000) - (15 # 1000)))
   /\ ~ (2005 + (6 # 10) * (2005 - 1995) < 2000
         \/ 2000 < 1995 - (6 # 10) * (2005 - 1995)))
  /\ (Binary64._should_update_quotes
        (float_quoting_bot 1990 (19901 # 10) 0)
        (Binary64.binary64 (199016 # 100)) 0 = true
      /\ ~ ((19901 # 10) + (6 # 10) * ((19901 # 10) - 1990) < 199016 # 100
            \/ 199016 # 100 < 1990 - (6 # 10) * ((19901 # 10) - 1990)))
  /\ (Binary64._should_update_quotes
        (float_quoting_bot (238946 # 100) (239006 # 100) 0)
        (Binary64.binary64 (239042 # 100)) 0 = false
      /\ Binary64.binary64 (239006 # 100)
         + (6 # 10)
           * (Binary64.binary64 (239006 # 100)
              - Binary64.binary64 (238946 # 100))
         < Binary64.binary64 (239042 # 100)).
Proof.
  split; [| split].
  - split; [vm_compute; reflexivity |].
    repeat (split; [reflexivity |]).
    split.
    + intros Hfill. apply (Qlt_not_le _ _ Hfill). discriminate.
    + intros [Hup | Hdown];
        [apply (Qlt_not_le _ _ Hup) | apply (Qlt_not_le _ _ Hdown)];
        discriminate.
  - split; [vm_compute; reflexivity |].
    intros [Hup | Hdown];
      [apply (Qlt_not_le _ _ Hup) | apply (Qlt_not_le _ _ Hdown)];
      discriminate.
  - split; vm_compute; reflexivity.
Qed.

(** C8 (amended): in the program's binary64 arithmetic, where [fl] rounds
    to the nearest float, [_should_update_quotes] is true when either
    current quote price is unset; otherwise true when
    |fl(qty - lastQty)| > fl(2*qtyTick); otherwise true exactly when
    mark > fl(ask + t) or mark < fl(bid - t) with
    t = fl(fl(ask - bid) * fl(0.6)), the comparisons being strict; in every
    other case it is false.  With bid = 1995 and ask = 2005 the thresholds
    are exactly 2011 and 1989, so without a fill an upward move triggers
    exactly when mark > 2011. *)
Theorem requote_binary64_spec :
  (forall self mark qty,
     current_bid_price self = None \/ current_ask_price self = None ->
     Binary64._should_update_quotes self mark qty = true)
  /\ (forall self mark qty bid ask,
        current_bid_price self = Some bid ->
        current_ask_price self = Some ask ->
        let fill :=
          Binary64.fmul (qty_tick self) 2
          < Qabs (Binary64.fsub qty (last_position_qty self)) in
        let t :=
          Binary64.fmul (Binary64.fsub ask bid) (Binary64.binary64 (6 # 10)) in
        (fill -> Binary64._should_update_quotes self mark qty = true)
        /\ (~ fill ->
            (Binary64._should_update_quotes self mark qty = true
             <-> Binary64.fadd ask t < mark \/ mark < Binary64.fsub bid t)))
  /\ (forall self mark qty,
        current_bid_price self = Some 1995 ->
        current_ask_price self = Some 2005 ->
        Qabs (Binary64.fsub qty (last_position_qty self))
        <= Binary64.fmul (qty_tick self) 2 ->
        (Binary64._should_update_quotes self mark qty = true
         <-> 2011 < mark \/ mark < 1989)).
Proof.
  assert (Hgen : forall self mark qty bid ask,
             current_bid_price self = Some bid ->
             current_ask_price self = Some ask ->
             let fill :=
               Binary64.fmul (qty_tick self) 2
               < Qabs (Binary64.fsub qty (last_position_qty self)) in
             let t :=
               Binary64.fmul (Binary64.fsub ask bid)
                 (Binary64.binary64 (6 # 10)) in
             (fill -> Binary64._should_update_quotes self mark qty = true)
             /\ (~ fill ->
                 (Binary64._should_update_quotes self mark qty = true
                  <-> Binary64.fadd ask t < mark
                      \/ mark < Binary64.fsub bid t))).
  { intros self mark qty bid ask Hb Ha fill t. subst fill t.
    unfold Binary64._should_update_quotes. rewrite Hb, Ha.
    destruct (Qgtb (Qabs (Binary64.fsub qty (last_position_qty self)))
                (Binary64.fmul (qty_tick self) 2)) eqn:Efill.
    - split; [reflexivity |].
      intros Hn. apply Qgtb_gt in Efill. contradiction.
    - apply Qgtb_le in Efill. split.
      + intros Hlt. exfalso. apply (Qlt_not_le _ _ Hlt). exact Efill.
      + intros _.
        destruct (Qgtb mark
                    (Binary64.fadd ask
                       (Binary64.fmul (Binary64.fsub ask bid)
                          (Binary64.binary64 (6 # 10))))) eqn:Eup.
        { apply Qgtb_gt in Eup. split; [left; exact Eup | reflexivity]. }
        destruct (Qltb mark
                    (Binary64.fsub bid
                       (Binary64.fmul (Binary64.fsub ask bid)
                          (Binary64.binary64 (6 # 10))))) eqn:Edown.
        { apply Qltb_lt in Edown. split; [right; exact Edown | reflexivity]. }
        apply Qgtb_le in Eup. apply Qltb_ge in Edown.
        split; [discriminate |].
        intros [Hup | Hdown]; exfalso.
        * apply (Qlt_not_le _ _ Hup). exact Eup.
        * apply (Qlt_not_le _ _ Hdown). exact Edown. }
  split; [| split; [exact Hgen |]].
  - intros self mark qty [Hb | Ha]; unfold Binary64._should_update_quotes.
    + rewrite Hb. reflexivity.
    + rewrite Ha. destruct (current_bid_price self); reflexivity.
  - intros self mark qty Hb Ha Hstill.
    destruct (Hgen self mark qty 1995 2005 Hb Ha) as [_ Hband].
    rewrite Hband by (intros Hfill; apply (Qlt_not_le _ _ Hfill); exact Hstill).
    assert (Hup : Binary64.fadd 2005
                    (Binary64.fmul (Binary64.fsub 2005 1995)
                       (Binary64.binary64 (6 # 10))) = 2011)
      by (vm_compute; reflexivity).
    assert (Hdown : Binary64.fsub 1995
                      (Binary64.fmul (Binary64.fsub 2005 1995)
                         (Binary64.binary64 (6 # 10))) = 1989)
      by (vm_compute; reflexivity).
    rewrite Hup, Hdown. reflexivity.
Qed.

(** Quoting 1995 / 2005 with the position one tick away from the recorded
    one: a mark of 2009 or of exactly 2011 does not trigger, 2011.01
    does. *)
Lemma requote_binary64_spec_witness :
  Binary64._should_update_quotes float_quoted_bot 2009
    (Binary64.binary64 (16 # 1000)) = false
  /\ Binary64._should_update_quotes float_quoted_bot 2011
       (Binary64.binary64 (16 # 1000)) = false
  /\ Binary64._should_update_quotes float_quoted_bot
       (Binary64.binary64 (201101 # 100)) (Binary64.binary64 (16 # 1000))
     = true.
Proof.
  destruct requote_binary64_spec as (_ & _ & Hquoted).
  assert (Hiff : forall mark,
             Binary64._should_update_quotes float_quoted_bot mark
               (Binary64.binary64 (16 # 1000)) = true
             <-> 2011 < mark \/ mark < 1989).
  { intros mark. apply Hquoted; [reflexivity | reflexivity |].
    vm_compute. discriminate. }
  split; [| split].
  - apply not_true_iff_false. intros Ht. apply Hiff in Ht.
    destruct Ht as [Hup | Hdown]; [discriminate Hup | discriminate Hdown].
  - apply not_true_iff_false. intros Ht. apply Hiff in Ht.
    destruct Ht as [Hup | Hdown]; [discriminate Hup | discriminate Hdown].
  - apply Hiff. left. vm_compute. reflexivity.
Defined.

(** ** Loss protection *)

(** [_place_quotes] sees a loss exactly when the position is not flat, the
    entry price is positive and qty*(mark-avgEntry) is negative. *)
Lemma unrealized_pnl_negative_iff (qty mark avg : Q) :
  unrealized_pnl_of qty mark avg < 0
  <-> QTY_EPSILON < Qabs qty /\ 0 < avg /\ qty * (mark - avg) < 0.
Proof.
  unfold unrealized_pnl_of.
  destruct (Qgtb (Qabs qty) QTY_EPSILON) eqn:Eq;
    destruct (Qgtb avg 0) eqn:Ea; simpl;
    try apply Qgtb_gt in Eq; try apply Qgtb_gt in Ea;
    try apply Qgtb_le in Eq; try apply Qgtb_le in Ea;
    split; try (intros Hlt; exfalso; lra); try (intros [H1 [H2 H3]]);
    try (exfalso; lra); try lra.
Qed.

Lemma Qabs_nonzero_of_epsilon (qty : Q) :
  QTY_EPSILON < Qabs qty -> ~ Qabs qty == 0.
Proof.
  unfold QTY_EPSILON. intros Hq Hz. rewrite Hz in Hq. lra.
Qed.


Lemma base_quotes_ticks_nonzero (self : MarketMaker) (mark : Q) (base : Quotes) :
  base_quotes self mark = Ok base ->
  ~ price_tick self == 0 /\ ~ qty_tick self == 0.
Proof.
  unfold base_quotes. intros Hb.
  destruct (_round (mark * (1 - spread_bps (cfg self) / 10000)) (price_tick self))
    as [b | e] eqn:Eb; [| discriminate Hb].
  simpl in Hb.
  destruct (_round (mark * (1 + spread_bps (cfg self) / 10000)) (price_tick self))
    as [a | e] eqn:Ea; [| discriminate Hb].
  simpl in Hb.
  destruct (float_div (order_size_usd (cfg self)) ((b + a) / 2))
    as [sz | e] eqn:Es; [| discriminate Hb].
  simpl in Hb.
  destruct (_round sz (qty_tick self)) as [bq | e] eqn:Eq; [| discriminate Hb].
  split.
  - apply (round_ok_iff (mark * (1 - spread_bps (cfg self) / 10000))).
    exists b. exact Eb.
  - apply (round_ok_iff sz). exists bq. exact Eq.
Qed.

Lemma loss_protection_gate_iff (qty mark avg : Q) :
  Qltb (unrealized_pnl_of qty mark avg) 0 && Qgtb (Qabs qty) QTY_EPSILON = true
  <-> qty * (mark - avg) < 0 /\ QTY_EPSILON < Qabs qty /\ 0 < avg.
Proof.
  rewrite andb_true_iff, Qltb_lt, Qgtb_gt, unrealized_pnl_negative_iff.
  tauto.
Qed.




(** ** Tick grid of the orders sent to the venue *)

Lemma round_on_tick (v t r : Q) : _round v t = Ok r -> on_tick r t.
Proof.
  unfold _round. destruct (decimal_div v t) as [q | e]; simpl; intros Hr;
    [| discriminate Hr].
  injection Hr as <-. eexists. reflexivity.
Qed.

Lemma not_on_tick_0505 : ~ on_tick (Qabs (505 # 10000)) (1 # 1000).
Proof.
  intros [n Hn]. unfold Qeq in Hn. simpl in Hn. lia.
Qed.

(** The closing order: its price is rounded to the price tick, its quantity
    is |qty| as sampled, without rounding. *)
Lemma close_position_order {V} `{OrderlyClient V}
    (w : World V) (qty mark p : Q) :
  QTY_EPSILON <= Qabs qty ->
  _round (mark * (if Qgtb qty 0 then 999 # 1000 else 1001 # 1000))
    (price_tick (self w)) = Ok p ->
  exists w',
    _close_position qty mark w = (Ok tt, w')
    /\ self w' = self w
    /\ calls w'
       = calls w ++ [CreateOrder (if Qgtb qty 0 then SELL else BUY) p (Qabs qty)].
Proof.
  intros Hqty Hround. unfold _close_position.
  apply Qltb_ge in Hqty. rewrite Hqty.
  unfold try_except, bind, get_self, lift.
  destruct (Qgtb qty 0); rewrite Hround;
    unfold client_create_order, client;
    match goal with
    | |- context [create_order ?s ?a ?b ?v] =>
        destruct (create_order s a b v) as [[[] | e] v']
    end;
    eexists; (split; [reflexivity |]); split; reflexivity.
Qed.

(** C4 fails on the closing order: in a tick where take-profit fires on a
    long of 0.0505 (quantity tick 0.001), [_close_position] sends
    SELL 0.0505 @ 1998.00.  The price is on the price grid, the quantity is
    the raw |qty| and is not a multiple of the quantity tick. *)
Theorem close_position_quantity_off_tick :
  exists w' price quantity,
    run_iteration (example_world false take_profit_script) = (Ok tt, w')
    /\ calls w'
       = [GetMarkPrice; GetPosition; GetOpenOrders;
          CreateOrder SELL price quantity; Sleep 2]
    /\ on_tick price (price_tick (example_bot false))
    /\ quantity = Qabs (505 # 10000)
    /\ ~ on_tick quantity (qty_tick (example_bot false)).
Proof.
  do 3 eexists. split; [vm_compute; reflexivity |].
  split; [reflexivity |].
  split; [exists 199800%Z; reflexivity |].
  split; [reflexivity |].
  exact not_on_tick_0505.
Qed.

(** Steps through the [let?] chain of a hypothesis, naming every successful
    rounding. *)
Ltac step_result H :=
  repeat match type of H with
    | context [rbind (_round ?v ?t) _] =>
        let r := fresh "r" in
        let Er := fresh "Er" in
        destruct (_round v t) as [r | ?] eqn:Er; simpl in H;
        [apply round_on_tick in Er | discriminate H]
    | context [rbind (float_div ?x ?y) _] =>
        destruct (float_div x y) as [? | ?]; simpl in H; [| discriminate H]
    end.

Lemma base_quotes_on_tick (self : MarketMaker) (mark : Q) (base : Quotes) :
  base_quotes self mark = Ok base ->
  on_tick (bid_price base) (price_tick self)
  /\ on_tick (ask_price base) (price_tick self)
  /\ on_tick (bid_quantity base) (qty_tick self)
  /\ on_tick (ask_quantity base) (qty_tick self).
Proof.
  unfold base_quotes. intros Hb. step_result Hb.
  injection Hb as <-. simpl. auto.
Qed.

(** In normal quoting and in loss-protection quoting alike, both prices are
    multiples of the price tick and both sizes multiples of the quantity
    tick. *)
Lemma quote_prices_on_tick (self : MarketMaker) (mark qty avg : Q) (q : Quotes) :
  quote_prices self mark qty avg = Ok q ->
  on_tick (bid_price q) (price_tick self)
  /\ on_tick (ask_price q) (price_tick self)
  /\ on_tick (bid_quantity q) (qty_tick self)
  /\ on_tick (ask_quantity q) (qty_tick self).
Proof.
  unfold quote_prices. intros Hq.
  destruct (base_quotes self mark) as [base | e] eqn:Hbase; simpl in Hq;
    [| discriminate Hq].
  apply base_quotes_on_tick in Hbase.
  destruct Hbase as (Hbp & Hap & Hbq & Haq).
  unfold loss_protection in Hq.
  repeat match type of Hq with
    | context [if ?b then _ else _] => destruct b
    end;
    step_result Hq; injection Hq as <-; simpl; auto.
Qed.

(** ** Order lifecycle *)

Lemma non_400_failure_iff (r : result unit) :
  is_non_400_failure r = false
  <-> r = Ok tt \/ r = Raise (ClientResponseError 400).
Proof.
  destruct r as [[] | e]; simpl.
  - split; [intros _; left; reflexivity | reflexivity].
  - destruct e; simpl;
      try (split; [discriminate | intros [Hr | Hr]; discriminate Hr]).
    rewrite negb_false_iff, Z.eqb_eq. split.
    + intros ->. right. reflexivity.
    + intros [Hr | Hr]; [discriminate Hr | injection Hr as ->; reflexivity].
Qed.

Lemma failed_non_400_empty (results : list (result unit)) :
  (forall r, In r results -> r = Ok tt \/ r = Raise (ClientResponseError 400))
  -> filter is_non_400_failure results = [].
Proof.
  induction results as [| r rs IH]; intros Hall; [reflexivity |].
  simpl. assert (Hr : is_non_400_failure r = false).
  { apply non_400_failure_iff, Hall. left. reflexivity. }
  rewrite Hr. apply IH. intros r' Hin. apply Hall. right. exact Hin.
Qed.

Lemma failed_non_400_nonempty (results : list (result unit)) :
  (exists e, In (Raise e) results /\ e <> ClientResponseError 400)
  -> is_empty (filter is_non_400_failure results) = false.
Proof.
  intros (e & Hin & Hne).
  assert (Hf : In (Raise e) (filter is_non_400_failure results)).
  { apply filter_In. split; [exact Hin |].
    destruct (is_non_400_failure (Raise e)) eqn:E; [reflexivity |].
    apply non_400_failure_iff in E. destruct E as [E | E];
      [discriminate E | injection E as ->; contradiction]. }
  destruct (filter is_non_400_failure results); [contradiction | reflexivity].
Qed.

Lemma is_empty_false {A} (l : list A) : l <> [] -> is_empty l = false.
Proof. destruct l; [contradiction | reflexivity]. Qed.

Section OrderLifecycle.
Context {V : Type} `{OrderlyClient V}.

(** C3 (amended): [_cancel_all_orders] always returns a boolean.  It
    returns success when the first fetch is empty.  When at least one
    fetched order carries an id: it returns failure as soon as a cancel of
    the first batch fails with a non-400 error; if every cancel of the first
    batch succeeds or fails with 400, it returns success when the
    verification fetch is empty, and otherwise (remaining orders with ids)
    cancels them once more, ignoring how those cancels end, and returns
    success exactly when the final fetch is empty. *)
Theorem cancel_all_orders_spec (w : World V) :
  (exists b w', _cancel_all_orders w = (Ok b, w'))
  /\ (forall w1,
        client_get_open_orders w = (Ok [], w1) ->
        _cancel_all_orders w = (Ok true, w1))
  /\ (forall orders w1 results w2,
        client_get_open_orders w = (Ok orders, w1) ->
        order_ids_of orders <> [] ->
        gather_results (map client_cancel_order (order_ids_of orders)) w1
        = (results, w2) ->
        ((exists e, In (Raise e) results /\ e <> ClientResponseError 400) ->
         _cancel_all_orders w = (Ok false, w2))
        /\ ((forall r, In r results ->
               r = Ok tt \/ r = Raise (ClientResponseError 400)) ->
            forall remaining w3,
              client_get_open_orders (snd (sleep (3 # 10) w2))
              = (Ok remaining, w3) ->
              (remaining = [] -> _cancel_all_orders w = (Ok true, w3))
              /\ (order_ids_of remaining <> [] ->
                  forall results2 w4 final w5,
                    gather_results
                      (map client_cancel_order (order_ids_of remaining)) w3
                    = (results2, w4) ->
                    client_get_open_orders (snd (sleep (2 # 10) w4))
                    = (Ok final, w5) ->
                    (final = [] -> _cancel_all_orders w = (Ok true, w5))
                    /\ (final <> [] ->
                        _cancel_all_orders w = (Ok false, w5))))).
Proof.
  split; [| split].
  - unfold _cancel_all_orders, try_except.
    match goal with
    | |- exists b w', match ?body w with _ => _ end = _ =>
        destruct (body w) as [[b | e] w']
    end.
    + exists b, w'. reflexivity.
    + exists false, w'. reflexivity.
  - intros w1 Hfetch.
    unfold _cancel_all_orders, try_except, bind. rewrite Hfetch.
    reflexivity.
  - intros orders w1 results w2 Hfetch Hids Hgather.
    assert (Horders : is_empty orders = false).
    { destruct orders; [contradiction Hids; reflexivity | reflexivity]. }
    split.
    + intros Hfail.
      unfold _cancel_all_orders, try_except, bind. rewrite Hfetch.
      rewrite Horders, (is_empty_false _ Hids).
      unfold gather. rewrite Hgather.
      rewrite (failed_non_400_nonempty _ Hfail). reflexivity.
    + intros Hacc remaining w3 Hverify. split.
      * intros ->.
        unfold _cancel_all_orders, try_except, bind. rewrite Hfetch.
        rewrite Horders, (is_empty_false _ Hids).
        unfold gather. rewrite Hgather.
        rewrite (failed_non_400_empty _ Hacc). simpl.
        simpl in Hverify. rewrite Hverify. reflexivity.
      * intros Hrem results2 w4 final w5 Hgather2 Hfinal.
        assert (Hremaining : is_empty remaining = false).
        { destruct remaining; [contradiction Hrem; reflexivity | reflexivity]. }
        assert (Hrun :
          _cancel_all_orders w = (Ok (negb (negb (is_empty final))), w5)).
        { unfold _cancel_all_orders, try_except, bind. rewrite Hfetch.
          rewrite Horders, (is_empty_false _ Hids).
          unfold gather. rewrite Hgather.
          rewrite (failed_non_400_empty _ Hacc). simpl.
          simpl in Hverify. rewrite Hverify.
          rewrite Hremaining, (is_empty_false _ Hrem). simpl.
          rewrite Hgather2. simpl.
          simpl in Hfinal. rewrite Hfinal.
          destruct (is_empty final); reflexivity. }
        rewrite Hrun. split.
        -- intros ->. reflexivity.
        -- intros Hne. rewrite (is_empty_false _ Hne). reflexivity.
Qed.

End OrderLifecycle.

(** C3 fails as stated, twice.  In the first run the cancel of order 2, in
    the retry batch, fails with HTTP 500 and [_cancel_all_orders] still
    reports success, because the final fetch is empty.  In the second run
    the only fetched order carries no id: no cancel is issued (so none
    fails) and the next fetch would find nothing, yet the result is
    failure. *)
Lemma cancel_all_orders_counterexamples :
  (exists w1 w2 w3 w4 w5,
     client_get_open_orders (example_world false retry_500_script)
     = (Ok [{| order_id := Some 1%Z |}], w1)
     /\ client_cancel_order 1 w1 = (Ok tt, w2)
     /\ client_get_open_orders (snd (sleep (3 # 10) w2))
        = (Ok [{| order_id := Some 2%Z |}], w3)
     /\ client_cancel_order 2 w3 = (Raise (ClientResponseError 500), w4)
     /\ client_get_open_orders (snd (sleep (2 # 10) w4)) = (Ok [], w5)
     /\ _cancel_all_orders (example_world false retry_500_script)
        = (Ok true, w5)
     /\ calls w5
        = [GetOpenOrders; CancelOrder 1; Sleep (3 # 10); GetOpenOrders;
           CancelOrder 2; Sleep (2 # 10); GetOpenOrders])
  /\ (exists w1 w2,
        client_get_open_orders (example_world false no_id_script)
        = (Ok [{| order_id := None |}], w1)
        /\ client_get_open_orders w1 = (Ok [], w2)
        /\ _cancel_all_orders (example_world false no_id_script)
           = (Ok false, w1)
        /\ calls w1 = [GetOpenOrders]).
Proof.
  split.
  - do 5 eexists.
    split; [vm_compute; reflexivity |].
    split; [vm_compute; reflexivity |].
    split; [vm_compute; reflexivity |].
    split; [vm_compute; reflexivity |].
    split; [vm_compute; reflexivity |].
    split; [vm_compute; reflexivity | reflexivity].
  - do 2 eexists.
    split; [vm_compute; reflexivity |].
    split; [vm_compute; reflexivity |].
    split; [vm_compute; reflexivity | reflexivity].
Qed.

(** Cancel-all idempotence: every cancel answers "already resolved", the
    verification fetch is empty, and the batch is a success. *)
Lemma cancel_all_orders_spec_witness :
  exists w',
    _cancel_all_orders (example_world false already_resolved_script)
    = (Ok true, w')
    /\ calls w'
       = [GetOpenOrders; CancelOrder 1; CancelOrder 2; Sleep (3 # 10);
          GetOpenOrders].
Proof.
  pose (w := example_world false already_resolved_script).
  pose (orders := [{| order_id := Some 1%Z |}; {| order_id := Some 2%Z |}]).
  pose (w1 := snd (client_get_open_orders w)).
  pose (batch := gather_results
                   (map client_cancel_order (order_ids_of orders)) w1).
  pose (w3 := snd (client_get_open_orders (snd (sleep (3 # 10) (snd batch))))).
  destruct (cancel_all_orders_spec w) as (_ & _ & Hbatch).
  assert (Hfetch : client_get_open_orders w = (Ok orders, w1)) by reflexivity.
  assert (Hids : order_ids_of orders <> []) by discriminate.
  assert (Hgather : gather_results
                      (map client_cancel_order (order_ids_of orders)) w1
                    = (fst batch, snd batch)) by reflexivity.
  destruct (Hbatch orders w1 (fst batch) (snd batch) Hfetch Hids Hgather)
    as [_ Haccepted].
  assert (Hall : forall r, In r (fst batch) ->
                   r = Ok tt \/ r = Raise (ClientResponseError 400)).
  { intros r [Hr | [Hr | []]]; right; symmetry; exact Hr. }
  assert (Hverify : client_get_open_orders (snd (sleep (3 # 10) (snd batch)))
                    = (Ok [], w3)) by reflexivity.
  destruct (Haccepted Hall [] w3 Hverify) as [Hempty _].
  exists w3. split; [apply Hempty; reflexivity | reflexivity].
Defined.

(** ** Runs that send no order *)

Lemma orders_sent_app (l1 l2 : list call) :
  orders_sent (l1 ++ l2) = orders_sent l1 ++ orders_sent l2.
Proof. apply filter_app. Qed.

Lemma quiet_refl {V} (w : World V) : quiet w w.
Proof. split; reflexivity. Qed.

Lemma quiet_trans {V} (w1 w2 w3 : World V) :
  quiet w1 w2 -> quiet w2 w3 -> quiet w1 w3.
Proof.
  intros [Hs1 Hc1] [Hs2 Hc2]. split; congruence.
Qed.

Lemma quiet_ret {V A} (a : A) : quiet_m (@ret V A a).
Proof.
  intros w r w' Hrun. injection Hrun as _ <-. apply quiet_refl.
Qed.

Lemma quiet_lift {V A} (r : result A) : quiet_m (@lift V A r).
Proof.
  intros w r' w' Hrun. injection Hrun as _ <-. apply quiet_refl.
Qed.

Lemma quiet_get_self {V} : quiet_m (@get_self V).
Proof.
  intros w r w' Hrun. injection Hrun as _ <-. apply quiet_refl.
Qed.

Lemma quiet_sleep {V} (s : Q) : quiet_m (@sleep V s).
Proof.
  intros w r w' Hrun. injection Hrun as _ <-. split; [reflexivity |].
  simpl. rewrite orders_sent_app, app_nil_r. reflexivity.
Qed.

Lemma quiet_client {V A} (c : call) (op : V -> result A * V) :
  is_create_order c = false -> quiet_m (client c op).
Proof.
  intros Hc w r w' Hrun. unfold client in Hrun.
  destruct (op (venue w)) as [r0 v']. injection Hrun as _ <-.
  split; [reflexivity |]. simpl.
  rewrite orders_sent_app. simpl. rewrite Hc, app_nil_r. reflexivity.
Qed.

Lemma quiet_bind {V A B} (m : M V A) (k : A -> M V B) :
  quiet_m m -> (forall a, quiet_m (k a)) -> quiet_m (bind m k).
Proof.
  intros Hm Hk w r w' Hrun. unfold bind in Hrun.
  destruct (m w) as [[a | e] w1] eqn:Em.
  - apply (quiet_trans w w1 w'); [apply (Hm _ _ _ Em) | apply (Hk _ _ _ _ Hrun)].
  - injection Hrun as _ <-. apply (Hm _ _ _ Em).
Qed.

Lemma quiet_try_except {V A} (body : M V A) (handler : exn -> M V A) :
  quiet_m body -> (forall e, quiet_m (handler e)) ->
  quiet_m (try_except body handler).
Proof.
  intros Hb Hh w r w' Hrun. unfold try_except in Hrun.
  destruct (body w) as [[a | e] w1] eqn:Eb.
  - injection Hrun as _ <-. apply (Hb _ _ _ Eb).
  - apply (quiet_trans w w1 w'); [apply (Hb _ _ _ Eb) | apply (Hh _ _ _ _ Hrun)].
Qed.

Lemma quiet_gather_results {V A} (tasks : list (M V A)) :
  Forall quiet_m tasks ->
  forall w rs w', gather_results tasks w = (rs, w') -> quiet w w'.
Proof.
  induction 1 as [| t ts Ht Hts IH]; intros w rs w' Hrun; simpl in Hrun.
  - injection Hrun as _ <-. apply quiet_refl.
  - destruct (t w) as [r w1] eqn:Et.
    destruct (gather_results ts w1) as [rs1 w2] eqn:Ets.
    injection Hrun as _ <-.
    apply (quiet_trans w w1 w2); [apply (Ht _ _ _ Et) | apply (IH _ _ _ Ets)].
Qed.

Lemma quiet_gather {V A} (tasks : list (M V A)) :
  Forall quiet_m tasks -> quiet_m (gather tasks).
Proof.
  intros Hts w r w' Hrun. unfold gather in Hrun.
  destruct (gather_results tasks w) as [rs w1] eqn:Eg.
  injection Hrun as _ <-. apply (quiet_gather_results _ Hts _ _ _ Eg).
Qed.

Section Quiet.
Context {V : Type} `{OrderlyClient V}.

Lemma quiet_cancel_tasks (ids : list Z) :
  Forall quiet_m (map client_cancel_order ids).
Proof.
  induction ids as [| id ids IH]; simpl; constructor; [| exact IH].
  apply quiet_client. reflexivity.
Qed.

Lemma quiet_get_open_orders : quiet_m client_get_open_orders.
Proof. apply quiet_client. reflexivity. Qed.

Lemma quiet_get_mark_price : quiet_m client_get_mark_price.
Proof. apply quiet_client. reflexivity. Qed.

Lemma quiet_get_position : quiet_m _get_position.
Proof.
  apply quiet_try_except; [apply quiet_client; reflexivity |].
  intros e. apply quiet_ret.
Qed.

(** [_cancel_all_orders] never touches the bot object and never sends an
    order. *)
Lemma quiet_cancel_all_orders : quiet_m _cancel_all_orders.
Proof.
  unfold _cancel_all_orders.
  apply quiet_try_except; [| intros e; apply quiet_ret].
  apply quiet_bind; [apply quiet_get_open_orders |].
  intros orders. destruct (is_empty orders); [apply quiet_ret |].
  destruct (is_empty (order_ids_of orders)); [apply quiet_ret |].
  apply quiet_bind; [apply quiet_gather, quiet_cancel_tasks |].
  intros results.
  destruct (negb (is_empty (filter is_non_400_failure results)));
    [apply quiet_ret |].
  apply quiet_bind; [apply quiet_sleep |]. intros _.
  apply quiet_bind; [apply quiet_get_open_orders |].
  intros remaining.
  destruct (negb (is_empty remaining)); [| apply quiet_ret].
  destruct (negb (is_empty (order_ids_of remaining))); [| apply quiet_ret].
  apply quiet_bind; [apply quiet_gather, quiet_cancel_tasks |]. intros _.
  apply quiet_bind; [apply quiet_sleep |]. intros _.
  apply quiet_bind; [apply quiet_get_open_orders |].
  intros final. destruct (negb (is_empty final)); apply quiet_ret.
Qed.

End Quiet.

(** ** Placement and quote state *)

Section Placement.
Context {V : Type} `{OrderlyClient V}.

Lemma client_create_order_frame (sd : side) (price quantity : Q)
    (w : World V) (r : result unit) (w' : World V) :
  client_create_order sd price quantity w = (r, w') ->
  self w' = self w
  /\ calls w' = calls w ++ [CreateOrder sd price quantity].
Proof.
  unfold client_create_order, client. intros Hrun.
  destruct (create_order sd price quantity (venue w)) as [r0 v'].
  injection Hrun as _ <-. split; reflexivity.
Qed.

(** One call of [_place_quotes], written out as a function of the world. *)
Lemma place_quotes_unfold (w : World V) (mark qty avg : Q) :
  _place_quotes mark qty avg w
  = match quote_prices (self w) mark qty avg with
    | Raise e => (Raise e, w)
    | Ok q =>
        if dry_run (cfg (self w))
        then (Ok tt,
              {| self := set_current_ask_price (ask_price q)
                           (set_current_bid_price (bid_price q) (self w));
                 venue := venue w;
                 calls := calls w |})
        else
          let (rb, w1) :=
            client_create_order BUY (bid_price q) (bid_quantity q) w in
          let (ra, w2) :=
            client_create_order SELL (ask_price q) (ask_quantity q) w1 in
          (Ok tt,
           {| self :=
                (match ra with
                 | Ok _ => set_current_ask_price (ask_price q)
                 | Raise _ => fun s => s
                 end)
                  ((match rb with
                    | Ok _ => set_current_bid_price (bid_price q)
                    | Raise _ => fun s => s
                    end) (self w2));
              venue := venue w2;
              calls := calls w2 |})
    end.
Proof.
  unfold _place_quotes, bind, get_self, lift.
  destruct (quote_prices (self w) mark qty avg) as [q | e]; [| reflexivity].
  destruct (dry_run (cfg (self w))); [reflexivity |].
  unfold try_except, gather2.
  destruct (client_create_order BUY (bid_price q) (bid_quantity q) w)
    as [rb w1].
  destruct (client_create_order SELL (ask_price q) (ask_quantity q) w1)
    as [ra w2].
  destruct rb as [[] | eb]; destruct ra as [[] | ea]; simpl;
    destruct w2; reflexivity.
Qed.

(** C5 (amended): when dry-run is off, [_place_quotes] sends the bid and
    then the ask; afterwards [current_bid_price] is the new bid price if
    the bid placement succeeded and is unchanged if it failed, and likewise
    [current_ask_price] for the ask, each side on its own; nothing else of
    the bot object changes.  If the quote computation raises, nothing is
    sent and nothing changes.  In dry-run mode nothing is sent and both
    fields are set to the computed prices. *)
Theorem place_quotes_updates_confirmed_sides
    (w : World V) (mark qty avg : Q) :
  (forall e,
     quote_prices (self w) mark qty avg = Raise e ->
     _place_quotes mark qty avg w = (Raise e, w))
  /\ (forall q,
        quote_prices (self w) mark qty avg = Ok q ->
        (dry_run (cfg (self w)) = false ->
         forall rb w1 ra w2,
           client_create_order BUY (bid_price q) (bid_quantity q) w
           = (rb, w1) ->
           client_create_order SELL (ask_price q) (ask_quantity q) w1
           = (ra, w2) ->
           exists w',
             _place_quotes mark qty avg w = (Ok tt, w')
             /\ venue w' = venue w2
             /\ calls w'
                = calls w
                  ++ [CreateOrder BUY (bid_price q) (bid_quantity q);
                      CreateOrder SELL (ask_price q) (ask_quantity q)]
             /\ current_bid_price (self w')
                = match rb with
                  | Ok _ => Some (bid_price q)
                  | Raise _ => current_bid_price (self w)
                  end
             /\ current_ask_price (self w')
                = match ra with
                  | Ok _ => Some (ask_price q)
                  | Raise _ => current_ask_price (self w)
                  end
             /\ last_position_qty (self w') = last_position_qty (self w)
             /\ cfg (self w') = cfg (self w)
             /\ price_tick (self w') = price_tick (self w)
             /\ qty_tick (self w') = qty_tick (self w))
        /\ (dry_run (cfg (self w)) = true ->
            _place_quotes mark qty avg w
            = (Ok tt,
               {| self := set_current_ask_price (ask_price q)
                            (set_current_bid_price (bid_price q) (self w));
                  venue := venue w;
                  calls := calls w |}))).
Proof.
  rewrite place_quotes_unfold. split.
  - intros e Hq. rewrite Hq. reflexivity.
  - intros q Hq. rewrite Hq. split.
    + intros Hdry rb w1 ra w2 Hbid Hask. rewrite Hdry, Hbid, Hask.
      destruct (client_create_order_frame _ _ _ _ _ _ Hbid) as [Hs1 Hc1].
      destruct (client_create_order_frame _ _ _ _ _ _ Hask) as [Hs2 Hc2].
      eexists. split; [reflexivity |]. simpl.
      split; [reflexivity |].
      split; [rewrite Hc2, Hc1, <- app_assoc; reflexivity |].
      destruct rb as [[] | eb]; destruct ra as [[] | ea]; simpl;
        rewrite ?Hs2, ?Hs1; repeat split; reflexivity.
    + intros Hdry. rewrite Hdry. reflexivity.
Qed.

End Placement.

(** C5 fails as stated in dry-run mode: starting from unset quote prices,
    [_place_quotes] sends no order at all and still sets both fields. *)
Lemma place_quotes_dry_run_sets_quote_state :
  exists w',
    _place_quotes 2000 0 0 (example_world true (quoting_script 2000 []))
    = (Ok tt, w')
    /\ current_bid_price (self (example_world true (quoting_script 2000 [])))
       = None
    /\ current_ask_price (self (example_world true (quoting_script 2000 [])))
       = None
    /\ calls w' = []
    /\ current_bid_price (self w') <> None
    /\ current_ask_price (self w') <> None.
Proof.
  eexists. split; [vm_compute; reflexivity |].
  repeat split; try reflexivity; simpl; discriminate.
Qed.

(** A failed bid does not undo a successful ask: the bid price stays unset,
    the ask price is recorded. *)
Lemma place_quotes_updates_confirmed_sides_witness :
  exists q w',
    quote_prices (example_bot false) 2000 0 0 = Ok q
    /\ _place_quotes 2000 0 0
         (example_world false
            (quoting_script 2000 [Raise (ClientResponseError 500); Ok tt]))
       = (Ok tt, w')
    /\ current_bid_price (self w') = None
    /\ current_ask_price (self w') = Some (ask_price q).
Proof.
  pose (w := example_world false
               (quoting_script 2000 [Raise (ClientResponseError 500); Ok tt])).
  destruct (place_quotes_updates_confirmed_sides w 2000 0 0) as [_ Hok].
  eexists.
  destruct (Hok _ eq_refl) as [Hlive _].
  destruct (Hlive eq_refl _ _ _ _ eq_refl eq_refl)
    as (w' & Hrun & _ & _ & Hbid & Hask & _).
  exists w'. split; [reflexivity |].
  split; [exact Hrun |]. split; [exact Hbid | exact Hask].
Defined.

(** ** Control loop *)

Lemma orders_sent_sleep (l : list call) (s : Q) :
  orders_sent (l ++ [Sleep s]) = orders_sent l.
Proof. rewrite orders_sent_app. simpl. apply app_nil_r. Qed.

Section ControlLoop.
Context {V : Type} `{OrderlyClient V}.


End ControlLoop.



(** A failed cancel: nothing is placed and the bot object is untouched. *)
Example requote_skipped_on_cancel_failure :
  exists w',
    run_iteration (example_world false cancel_failure_script) = (Ok tt, w')
    /\ calls w' = [GetMarkPrice; GetPosition; GetOpenOrders; Sleep 5]
    /\ self w' = example_bot false.
Proof.
  eexists. split; [vm_compute; reflexivity |]. split; reflexivity.
Qed.

(** * Further properties *)

(** ** Rounding toward zero *)

Lemma to_integral_value_ROUND_DOWN_comp (q1 q2 : Q) :
  q1 == q2 ->
  to_integral_value_ROUND_DOWN q1 = to_integral_value_ROUND_DOWN q2.
Proof.
  intros Hq. rewrite !to_integral_value_ROUND_DOWN_toward_zero.
  rewrite (Qleb_comp 0 0 (Qeq_refl 0) q1 q2 Hq).
  rewrite (Qfloor_comp _ _ Hq), (Qceiling_comp _ _ Hq). reflexivity.
Qed.

Lemma to_integral_value_ROUND_DOWN_nonneg (q : Q) :
  0 <= q ->
  0 <= inject_Z (to_integral_value_ROUND_DOWN q)
  /\ inject_Z (to_integral_value_ROUND_DOWN q) <= q
  /\ q < inject_Z (to_integral_value_ROUND_DOWN q) + 1.
Proof.
  intros Hq. rewrite to_integral_value_ROUND_DOWN_toward_zero.
  pose proof Hq as Hb. apply Qle_bool_iff in Hb. rewrite Hb.
  pose proof (Qfloor_le q) as Hlo. pose proof (Qlt_floor q) as Hhi.
  rewrite inject_Z_plus in Hhi.
  split; [| split; [exact Hlo | exact Hhi]].
  change 0 with (inject_Z 0). rewrite <- Zle_Qle.
  rewrite <- (Qfloor_Z 0). apply Qfloor_resp_le. exact Hq.
Qed.

Lemma to_integral_value_ROUND_DOWN_nonpos (q : Q) :
  q <= 0 ->
  inject_Z (to_integral_value_ROUND_DOWN q) <= 0
  /\ q <= inject_Z (to_integral_value_ROUND_DOWN q)
  /\ inject_Z (to_integral_value_ROUND_DOWN q) - 1 < q.
Proof.
  intros Hq. rewrite to_integral_value_ROUND_DOWN_toward_zero.
  pose proof (Qle_ceiling q) as Hlo. pose proof (Qceiling_lt q) as Hhi.
  unfold Z.sub in Hhi. rewrite inject_Z_plus, inject_Z_opp in Hhi.
  change (inject_Z 1) with 1 in Hhi.
  assert (Hc : inject_Z (Qceiling q) <= 0).
  { change 0 with (inject_Z 0). rewrite <- Zle_Qle.
    rewrite <- (Qceiling_Z 0). apply Qceiling_resp_le. exact Hq. }
  destruct (Qle_bool 0 q) eqn:Hb.
  - apply Qle_bool_iff in Hb.
    assert (Hz : q == 0) by lra.
    rewrite (Qfloor_comp _ _ Hz). change (Qfloor 0) with 0%Z.
    change (inject_Z 0) with 0. repeat split; lra.
  - split; [exact Hc |]. split; [exact Hlo |].
    lra.
Qed.

Lemma to_integral_value_ROUND_DOWN_mono (q1 q2 : Q) :
  q1 <= q2 ->
  (to_integral_value_ROUND_DOWN q1 <= to_integral_value_ROUND_DOWN q2)%Z.
Proof.
  intros Hq. rewrite !to_integral_value_ROUND_DOWN_toward_zero.
  destruct (Qle_bool 0 q1) eqn:H1; destruct (Qle_bool 0 q2) eqn:H2.
  - apply Qfloor_resp_le. exact Hq.
  - apply Qle_bool_iff in H1.
    assert (Hn : ~ 0 <= q2) by (rewrite <- Qle_bool_iff; congruence).
    exfalso. apply Hn. lra.
  - apply Qle_bool_iff in H2.
    assert (Hn : ~ 0 <= q1) by (rewrite <- Qle_bool_iff; congruence).
    apply Qnot_le_lt in Hn.
    apply Z.le_trans with 0%Z.
    + rewrite <- (Qceiling_Z 0). apply Qceiling_resp_le.
      change (inject_Z 0) with 0. lra.
    + rewrite <- (Qfloor_Z 0). apply Qfloor_resp_le. exact H2.
  - apply Qceiling_resp_le. exact Hq.
Qed.

Lemma round_between_zero_and_value (v t : Q) :
  ~ t == 0 ->
  exists r,
    _round v t = Ok r
    /\ (0 <= r <= v \/ v <= r <= 0)
    /\ ((0 < t -> - t < v - r < t) /\ (t < 0 -> t < v - r < - t)).
Proof.
  intros Ht. rewrite (round_value v t Ht). eexists. split; [reflexivity |].
  set (q := v / t).
  set (n := inject_Z (to_integral_value_ROUND_DOWN q)).
  assert (Hv : v == q * t) by (unfold q; field; exact Ht).
  destruct (Qlt_le_dec q 0) as [Hq | Hq].
  - destruct (to_integral_value_ROUND_DOWN_nonpos q) as (H0 & Hlo & Hhi);
      [lra |].
    fold n in H0, Hlo, Hhi.
    destruct (Qlt_le_dec t 0) as [Htn | Htp].
    + split; [left; nra |]. split; intros; nra.
    + assert (Htpos : 0 < t).
      { destruct (Qle_lt_or_eq _ _ Htp) as [Hlt | Heq];
          [exact Hlt | exfalso; apply Ht; symmetry; exact Heq]. }
      split; [right; nra |]. split; intros; nra.
  - destruct (to_integral_value_ROUND_DOWN_nonneg q Hq) as (H0 & Hlo & Hhi).
    fold n in H0, Hlo, Hhi.
    destruct (Qlt_le_dec t 0) as [Htn | Htp].
    + split; [right; nra |]. split; intros; nra.
    + assert (Htpos : 0 < t).
      { destruct (Qle_lt_or_eq _ _ Htp) as [Hlt | Heq];
          [exact Hlt | exfalso; apply Ht; symmetry; exact Heq]. }
      split; [left; nra |]. split; intros; nra.
Qed.

Lemma Qlt_of_le_nonzero (t : Q) : 0 <= t -> ~ t == 0 -> 0 < t.
Proof.
  intros Hle Hnz. destruct (Qle_lt_or_eq _ _ Hle) as [Hlt | Heq];
    [exact Hlt | exfalso; apply Hnz; symmetry; exact Heq].
Qed.

Lemma round_mono_pos (v1 v2 t : Q) :
  0 < t -> v1 <= v2 ->
  inject_Z (to_integral_value_ROUND_DOWN (v1 / t)) * t
  <= inject_Z (to_integral_value_ROUND_DOWN (v2 / t)) * t.
Proof.
  intros Ht Hv. apply Qmult_le_compat_r; [| lra].
  rewrite <- Zle_Qle. apply to_integral_value_ROUND_DOWN_mono.
  unfold Qdiv. apply Qmult_le_compat_r; [exact Hv |].
  apply Qlt_le_weak, Qinv_lt_0_compat. exact Ht.
Qed.

(** X1: rounding to a non-zero tick moves a value toward zero by less than
    one tick: the result never has a larger magnitude than the value, never
    has the opposite sign, and differs from the value by less than |tick|. *)
Theorem round_moves_toward_zero (v t : Q) :
  ~ t == 0 ->
  exists r,
    _round v t = Ok r
    /\ Qabs r <= Qabs v
    /\ Qabs (v - r) < Qabs t
    /\ (0 <= v -> 0 <= r)
    /\ (v <= 0 -> r <= 0).
Proof.
  intros Ht.
  destruct (round_between_zero_and_value v t Ht)
    as (r & Hrun & Hside & Hpos & Hneg).
  exists r. split; [exact Hrun |].
  split; [| split; [| split]].
  - apply Qabs_Qle_condition.
    destruct Hside as [[H0 Hv] | [Hv H0]].
    + rewrite (Qabs_pos v) by lra. lra.
    + rewrite (Qabs_neg v) by lra. lra.
  - apply Qabs_Qlt_condition.
    destruct (Qlt_le_dec t 0) as [Htn | Htp].
    + rewrite (Qabs_neg t) by lra. specialize (Hneg Htn). lra.
    + pose proof (Qlt_of_le_nonzero t Htp Ht) as Htpos.
      rewrite (Qabs_pos t) by lra. specialize (Hpos Htpos). lra.
  - intros Hv. destruct Hside as [[H0 _] | [Hv' H0]]; lra.
  - intros Hv. destruct Hside as [[H0 Hv'] | [_ H0]]; lra.
Qed.

Lemma round_moves_toward_zero_witness :
  exists r,
    _round (- (17 # 10)) (1 # 2) = Ok r
    /\ Qabs r <= Qabs (- (17 # 10))
    /\ Qabs (- (17 # 10) - r) < Qabs (1 # 2)
    /\ (0 <= - (17 # 10) -> 0 <= r)
    /\ (- (17 # 10) <= 0 -> r <= 0).
Proof.
  apply (round_moves_toward_zero (- (17 # 10)) (1 # 2)). discriminate.
Defined.

(** X2: rounding is monotone in the value, for every non-zero tick (a
    negative one included): a larger value never rounds to a smaller
    result. *)
Theorem round_monotone (v1 v2 t : Q) :
  ~ t == 0 ->
  v1 <= v2 ->
  exists r1 r2,
    _round v1 t = Ok r1 /\ _round v2 t = Ok r2 /\ r1 <= r2.
Proof.
  intros Ht Hv. rewrite (round_value v1 t Ht), (round_value v2 t Ht).
  do 2 eexists. split; [reflexivity |]. split; [reflexivity |].
  destruct (Qlt_le_dec t 0) as [Htn | Htp].
  - assert (Hq : v2 / t <= v1 / t).
    { unfold Qdiv.
      assert (Hinv : / t < 0).
      { setoid_replace (/ t) with (- / (- t))
          by (field; exact Ht).
        assert (0 < / (- t)) by (apply Qinv_lt_0_compat; lra). lra. }
      nra. }
    apply to_integral_value_ROUND_DOWN_mono in Hq.
    rewrite Zle_Qle in Hq. nra.
  - apply round_mono_pos; [apply Qlt_of_le_nonzero; assumption | exact Hv].
Qed.

Lemma round_monotone_witness :
  exists r1 r2,
    _round (19979 # 10) (1 # 100) = Ok r1
    /\ _round 2002 (1 # 100) = Ok r2
    /\ r1 <= r2.
Proof.
  apply (round_monotone (19979 # 10) 2002 (1 # 100));
    [discriminate | discriminate].
Defined.

Lemma to_integral_value_ROUND_DOWN_inject (n : Z) :
  to_integral_value_ROUND_DOWN (inject_Z n) = n.
Proof.
  unfold to_integral_value_ROUND_DOWN. simpl. apply Z.quot_1_r.
Qed.

Lemma round_fixes_grid (x t : Q) :
  ~ t == 0 -> on_tick x t ->
  inject_Z (to_integral_value_ROUND_DOWN (x / t)) * t == x.
Proof.
  intros Ht [n Hn].
  assert (Hq : x / t == inject_Z n) by (rewrite Hn; field; exact Ht).
  rewrite (to_integral_value_ROUND_DOWN_comp _ _ Hq).
  rewrite to_integral_value_ROUND_DOWN_inject. symmetry. exact Hn.
Qed.

(** X3: a value that already is a multiple of the (non-zero) tick is
    returned unchanged, so rounding a rounded value changes nothing. *)
Theorem round_idempotent (t : Q) :
  ~ t == 0 ->
  (forall x, on_tick x t -> exists r, _round x t = Ok r /\ r == x)
  /\ (forall v,
        exists r r', _round v t = Ok r /\ _round r t = Ok r' /\ r' == r).
Proof.
  intros Ht. split.
  - intros x Hx. rewrite (round_value x t Ht). eexists.
    split; [reflexivity | apply round_fixes_grid; assumption].
  - intros v. rewrite (round_value v t Ht). eexists.
    rewrite (round_value _ t Ht). eexists.
    split; [reflexivity |]. split; [reflexivity |].
    apply round_fixes_grid; [exact Ht |]. eexists. reflexivity.
Qed.

Lemma round_idempotent_witness :
  (exists r, _round (199950 # 100) (1 # 100) = Ok r /\ r == 199950 # 100)
  /\ (exists r r',
        _round (2001999 # 1000) (1 # 100) = Ok r
        /\ _round r (1 # 100) = Ok r' /\ r' == r).
Proof.
  destruct (round_idempotent (1 # 100)) as [Hgrid Htwice]; [discriminate |].
  split.
  - apply Hgrid. exists 199950%Z. reflexivity.
  - apply Htwice.
Defined.

(** ** Risk controller, further *)

(** X4: with a positive entry price, take-profit never fires on a position
    whose unrealized PnL qty*(mark-avgEntry) is zero or negative; whenever
    it fires, the PnL is strictly positive. *)
Theorem take_profit_only_on_profit (qty mark avg : Q) :
  0 < avg ->
  (qty * (mark - avg) <= 0 -> _should_take_profit qty mark avg = Ok false)
  /\ (_should_take_profit qty mark avg = Ok true -> 0 < qty * (mark - avg)).
Proof.
  intros Havg.
  assert (Hfire : _should_take_profit qty mark avg = Ok true ->
                  0 < qty * (mark - avg)).
  { destruct (Qltb (Qabs qty) QTY_EPSILON || Qeq_bool avg 0) eqn:G.
    - unfold _should_take_profit. rewrite G. discriminate.
    - rewrite (should_take_profit_value qty mark avg G).
      intros Hrun. injection Hrun as Hb.
      set (ratio := (mark - avg) / avg) in *.
      assert (Hratio : mark - avg == ratio * avg).
      { unfold ratio. field. lra. }
      rewrite !orb_true_iff, !andb_true_iff, !Qgtb_gt, !Qltb_lt in Hb.
      destruct Hb as [[Hpnl | [Hq Hmove]] | [Hq Hmove]].
      + lra.
      + assert (0 < mark - avg) by nra. nra.
      + assert (mark - avg < 0) by nra. nra. }
  split; [| exact Hfire].
  intros Hloss.
  destruct (Qltb (Qabs qty) QTY_EPSILON || Qeq_bool avg 0) eqn:G.
  - unfold _should_take_profit. rewrite G. reflexivity.
  - pose proof (should_take_profit_value qty mark avg G) as Hb.
    match type of Hb with _ = Ok ?b => destruct b end; [| exact Hb].
    apply Hfire in Hb. lra.
Qed.

(** A long bought at 1990 with the mark at 1980 is never closed by
    take-profit. *)
Lemma take_profit_only_on_profit_witness :
  _should_take_profit (5 # 100) 1980 1990 = Ok false.
Proof.
  destruct (take_profit_only_on_profit (5 # 100) 1980 1990) as [Hquiet _];
    [reflexivity |].
  apply Hquiet. discriminate.
Defined.

(** ** Base quotes *)

Lemma round_result_bounds (v t : Q) :
  ~ t == 0 ->
  let r := inject_Z (to_integral_value_ROUND_DOWN (v / t)) * t in
  (0 <= r <= v \/ v <= r <= 0)
  /\ (0 < t -> - t < v - r < t)
  /\ (t < 0 -> t < v - r < - t).
Proof.
  intros Ht r.
  destruct (round_between_zero_and_value v t Ht) as (r' & Hrun & Hb).
  rewrite (round_value v t Ht) in Hrun. injection Hrun as <-.
  destruct Hb as [Hside [Hpos Hneg]]. repeat split; tauto.
Qed.

Lemma spread_fraction_nonneg (s : Q) : 0 <= s -> 0 <= s / 10000.
Proof.
  intros Hs. unfold Qdiv. apply Qmult_le_0_compat; [exact Hs | discriminate].
Qed.

(** The base quotes, once they are known to be computed, written out. *)
Lemma base_quotes_value (self : MarketMaker) (mark : Q) (b : Quotes) :
  base_quotes self mark = Ok b ->
  let s := spread_bps (cfg self) in
  let bid := inject_Z (to_integral_value_ROUND_DOWN
                         (mark * (1 - s / 10000) / price_tick self))
             * price_tick self in
  let ask := inject_Z (to_integral_value_ROUND_DOWN
                         (mark * (1 + s / 10000) / price_tick self))
             * price_tick self in
  let size := inject_Z (to_integral_value_ROUND_DOWN
                          (order_size_usd (cfg self) / ((bid + ask) / 2)
                           / qty_tick self))
              * qty_tick self in
  ~ price_tick self == 0
  /\ ~ qty_tick self == 0
  /\ ~ (bid + ask) / 2 == 0
  /\ b = {| bid_price := bid; bid_quantity := size;
            ask_price := ask; ask_quantity := size |}.
Proof.
  intros Hb s bid ask size.
  destruct (base_quotes_ticks_nonzero _ _ _ Hb) as [Hpt Hqt].
  split; [exact Hpt |]. split; [exact Hqt |].
  unfold base_quotes in Hb.
  rewrite !(round_value _ _ Hpt) in Hb. simpl in Hb.
  fold s bid ask in Hb. unfold float_div in Hb.
  destruct (Qeq_bool ((bid + ask) / 2) 0) eqn:Emid; [discriminate Hb |].
  simpl in Hb. rewrite (round_value _ _ Hqt) in Hb. simpl in Hb.
  fold size in Hb. injection Hb as <-.
  split; [apply Qeq_bool_false; exact Emid | reflexivity].
Qed.

(** X5: with a positive price tick, a positive mark price and a
    non-negative spread, the base bid never exceeds the base ask nor the
    mark price, the base ask is non-negative and never exceeds
    mark*(1 + spread/10000), and both sides carry the same size.  The bid is
    strictly below the mark when the spread is positive.  Each price, and
    likewise the grid point one tick below it, which is what the program
    quotes when its binary product lies just under a grid point
    ([float_product_under_grid_point]), is at most its target
    mark*(1 -/+ spread/10000) and less than two ticks below it (for the bid,
    with a spread of at most 10000 bps).  So when two price ticks fit into
    mark*spread/10000 the ask is strictly above the mark in either case;
    with room for one tick only, the lower price can be the mark itself. *)
Theorem base_quotes_ordered (self : MarketMaker) (mark : Q) (b : Quotes) :
  base_quotes self mark = Ok b ->
  0 < price_tick self ->
  0 < mark ->
  0 <= spread_bps (cfg self) ->
  bid_price b <= ask_price b
  /\ bid_price b <= mark
  /\ ask_price b <= mark * (1 + spread_bps (cfg self) / 10000)
  /\ 0 <= ask_price b
  /\ bid_quantity b = ask_quantity b
  /\ (0 < spread_bps (cfg self) -> bid_price b < mark)
  /\ (spread_bps (cfg self) <= 10000 ->
      forall bid,
        at_or_tick_below bid (bid_price b) (price_tick self) ->
        mark * (1 - spread_bps (cfg self) / 10000) - 2 * price_tick self < bid
        /\ bid <= mark * (1 - spread_bps (cfg self) / 10000))
  /\ (forall ask,
        at_or_tick_below ask (ask_price b) (price_tick self) ->
        mark * (1 + spread_bps (cfg self) / 10000) - 2 * price_tick self < ask
        /\ ask <= mark * (1 + spread_bps (cfg self) / 10000))
  /\ (2 * price_tick self <= mark * (spread_bps (cfg self) / 10000) ->
      forall ask,
        at_or_tick_below ask (ask_price b) (price_tick self) -> mark < ask).
Proof.
  intros Hb Htick Hmark Hspread.
  destruct (base_quotes_value self mark b Hb) as (Hpt & Hqt & Hmid & ->).
  simpl.
  pose proof (spread_fraction_nonneg _ Hspread) as Hd.
  set (d := spread_bps (cfg self) / 10000) in *.
  assert (Hraw : mark * (1 - d) <= mark * (1 + d)) by nra.
  split; [apply round_mono_pos; assumption |].
  destruct (round_result_bounds (mark * (1 - d)) (price_tick self) Hpt)
    as [Hbid [Herrb _]].
  destruct (round_result_bounds (mark * (1 + d)) (price_tick self) Hpt)
    as [Hask [Herr _]].
  simpl in Hbid, Hask, Herr, Herrb.
  specialize (Herr Htick). specialize (Herrb Htick).
  split; [destruct Hbid as [Hbid | Hbid]; nra |].
  split; [destruct Hask as [Hask | Hask]; nra |].
  split; [destruct Hask as [Hask | Hask]; nra |].
  split; [reflexivity |].
  split.
  { intros Hs.
    assert (Hdpos : 0 < d).
    { unfold d, Qdiv. apply Qmult_lt_0_compat; [exact Hs | reflexivity]. }
    destruct Hbid as [Hbid | Hbid]; nra. }
  split.
  { intros Hmax.
    assert (Hd1 : d <= 1).
    { unfold d, Qdiv.
      assert (Hs1 : spread_bps (cfg self) * (1 # 10000) <= 1) by lra.
      exact Hs1. }
    intros bid [Hq | Hq]; rewrite Hq; simpl;
      (split; [lra | destruct Hbid as [Hbid | Hbid]; nra]). }
  split.
  { intros ask [Hq | Hq]; rewrite Hq; simpl;
      (split; [lra | destruct Hask as [Hask | Hask]; nra]). }
  intros Hsmall ask [Hq | Hq]; rewrite Hq; simpl; nra.
Qed.

Lemma base_quotes_ordered_witness :
  exists b,
    base_quotes (example_bot false) 2000 = Ok b
    /\ bid_price b <= ask_price b
    /\ bid_price b <= 2000
    /\ 0 <= ask_price b
    /\ bid_quantity b = ask_quantity b
    /\ bid_price b < 2000
    /\ (forall ask,
          at_or_tick_below ask (ask_price b) (price_tick (example_bot false))
          -> 2002 - 2 * (1 # 100) < ask /\ ask <= 2002 /\ 2000 < ask).
Proof.
  destruct (base_quotes (example_bot false) 2000) as [b | e] eqn:Hb;
    [| vm_compute in Hb; discriminate Hb].
  exists b. split; [reflexivity |].
  destruct (base_quotes_ordered (example_bot false) 2000 b Hb)
    as (Hord & Hbid & _ & Hpos & Hsize & Hbelow & _ & Hask & Habove);
    [reflexivity | reflexivity | discriminate |].
  split; [exact Hord |]. split; [exact Hbid |]. split; [exact Hpos |].
  split; [exact Hsize |]. split; [apply Hbelow; reflexivity |].
  intros ask Hnear.
  destruct (Hask ask Hnear) as [Hlo Hhi].
  assert (Htarget : 2000 * (1 + spread_bps (cfg (example_bot false)) / 10000)
                    == 2002) by reflexivity.
  rewrite Htarget in Hlo, Hhi.
  split; [exact Hlo |]. split; [exact Hhi |].
  apply Habove; [discriminate | exact Hnear].
Defined.

(** X6: with positive ticks, a positive mark price, a spread between 0 and
    10000 bps and a non-negative order size, the quoted size is non-negative
    and its notional at the mid price never exceeds [order_size_usd]. *)
Theorem base_quotes_notional_bounded
    (self : MarketMaker) (mark : Q) (b : Quotes) :
  base_quotes self mark = Ok b ->
  0 < price_tick self ->
  0 < qty_tick self ->
  0 < mark ->
  0 <= spread_bps (cfg self) <= 10000 ->
  0 <= order_size_usd (cfg self) ->
  0 <= bid_quantity b
  /\ bid_quantity b * ((bid_price b + ask_price b) / 2)
     <= order_size_usd (cfg self).
Proof.
  intros Hb Htick Hqtick Hmark [Hs0 Hs1] Hsize.
  destruct (base_quotes_value self mark b Hb) as (Hpt & Hqt & Hmid & ->).
  simpl.
  pose proof (spread_fraction_nonneg _ Hs0) as Hd.
  assert (Hd1 : spread_bps (cfg self) / 10000 <= 1).
  { apply Qle_shift_div_r; [reflexivity | lra]. }
  set (d := spread_bps (cfg self) / 10000) in *.
  destruct (round_result_bounds (mark * (1 - d)) (price_tick self) Hpt)
    as [Hbid _].
  destruct (round_result_bounds (mark * (1 + d)) (price_tick self) Hpt)
    as [Hask _].
  simpl in Hbid, Hask.
  set (bid := inject_Z (to_integral_value_ROUND_DOWN
                          (mark * (1 - d) / price_tick self))
              * price_tick self) in *.
  set (ask := inject_Z (to_integral_value_ROUND_DOWN
                          (mark * (1 + d) / price_tick self))
              * price_tick self) in *.
  assert (Hbid0 : 0 <= bid) by (destruct Hbid as [Hbid | Hbid]; nra).
  assert (Hask0 : 0 <= ask) by (destruct Hask as [Hask | Hask]; nra).
  set (mid := (bid + ask) / 2) in *.
  assert (Hmid0 : 0 < mid).
  { apply Qlt_of_le_nonzero; [| exact Hmid].
    unfold mid. apply Qle_shift_div_l; [reflexivity | lra]. }
  set (raw := order_size_usd (cfg self) / mid).
  assert (Hraw : raw * mid == order_size_usd (cfg self)).
  { unfold raw. field. exact Hmid. }
  assert (Hraw0 : 0 <= raw).
  { unfold raw. apply Qle_shift_div_l; [exact Hmid0 | lra]. }
  destruct (round_result_bounds raw (qty_tick self) Hqt) as [Hq _].
  simpl in Hq.
  destruct Hq as [Hq | Hq]; split; nra.
Qed.

Lemma base_quotes_notional_bounded_witness :
  exists b,
    base_quotes (example_bot false) 2010 = Ok b
    /\ 0 <= bid_quantity b
    /\ bid_quantity b * ((bid_price b + ask_price b) / 2)
       <= order_size_usd (cfg (example_bot false)).
Proof.
  eexists. split; [vm_compute; reflexivity |].
  apply (base_quotes_notional_bounded (example_bot false) 2010);
    [vm_compute; reflexivity | reflexivity | reflexivity | reflexivity
    | split; discriminate | discriminate].
Defined.

Lemma loss_protection_ok (self : MarketMaker) (mark qty avg : Q) (base : Quotes) :
  ~ price_tick self == 0 ->
  ~ qty_tick self == 0 ->
  exists q, loss_protection self mark qty avg base = Ok q.
Proof.
  intros Hpt Hqt. unfold loss_protection.
  destruct (Qltb (unrealized_pnl_of qty mark avg) 0
            && Qgtb (Qabs qty) QTY_EPSILON) eqn:G;
    [| eexists; reflexivity].
  apply andb_true_iff in G. destruct G as [_ Heps]. apply Qgtb_gt in Heps.
  pose proof (Qabs_nonzero_of_epsilon qty Heps) as Hnz.
  unfold float_div. apply Qeq_bool_false in Hnz. rewrite Hnz. simpl.
  destruct (Qltb qty 0).
  - destruct (Qgtb (bid_price base) avg); [| eexists; reflexivity].
    rewrite (round_value _ _ Hpt). simpl.
    rewrite (round_value _ _ Hqt). simpl.
    rewrite (round_value _ _ Hpt). simpl. eexists. reflexivity.
  - destruct (Qgtb qty 0); [| eexists; reflexivity].
    destruct (Qltb (ask_price base) avg); [| eexists; reflexivity].
    rewrite (round_value _ _ Hpt). simpl.
    rewrite (round_value _ _ Hqt). simpl.
    rewrite (round_value _ _ Hpt). simpl. eexists. reflexivity.
Qed.

Lemma round_at_least_tick (v t : Q) :
  0 < t -> t <= v ->
  t <= inject_Z (to_integral_value_ROUND_DOWN (v / t)) * t.
Proof.
  intros Ht Hv.
  assert (Hq : inject_Z 1 <= v / t).
  { change (inject_Z 1) with 1. apply Qle_shift_div_l; [exact Ht | lra]. }
  apply to_integral_value_ROUND_DOWN_mono in Hq.
  rewrite to_integral_value_ROUND_DOWN_inject in Hq.
  rewrite Zle_Qle in Hq. change (inject_Z 1) with 1 in Hq. nra.
Qed.

(** X7: the quote computation cannot fault when the price tick is positive
    and not larger than the mark price, the quantity tick is non-zero and
    the spread lies between 0 and 10000 bps: for every position,
    [quote_prices] returns quotes. *)
Theorem quote_prices_succeeds (self : MarketMaker) (mark : Q) :
  0 < price_tick self ->
  price_tick self <= mark ->
  ~ qty_tick self == 0 ->
  0 <= spread_bps (cfg self) <= 10000 ->
  (exists b, base_quotes self mark = Ok b)
  /\ (forall qty avg, exists q, quote_prices self mark qty avg = Ok q).
Proof.
  intros Htick Hmark Hqt [Hs0 Hs1].
  assert (Hpt : ~ price_tick self == 0) by (intros Hz; rewrite Hz in Htick; lra).
  pose proof (spread_fraction_nonneg _ Hs0) as Hd.
  assert (Hd1 : spread_bps (cfg self) / 10000 <= 1).
  { apply Qle_shift_div_r; [reflexivity | lra]. }
  assert (Hbase : exists b, base_quotes self mark = Ok b).
  { unfold base_quotes. rewrite !(round_value _ _ Hpt). simpl.
    set (d := spread_bps (cfg self) / 10000) in *.
    destruct (round_result_bounds (mark * (1 - d)) (price_tick self) Hpt)
      as [Hbid _].
    simpl in Hbid.
    assert (Hask : price_tick self
                   <= inject_Z (to_integral_value_ROUND_DOWN
                                  (mark * (1 + d) / price_tick self))
                      * price_tick self).
    { apply round_at_least_tick; [exact Htick | nra]. }
    set (bid := inject_Z (to_integral_value_ROUND_DOWN
                            (mark * (1 - d) / price_tick self))
                * price_tick self) in *.
    set (ask := inject_Z (to_integral_value_ROUND_DOWN
                            (mark * (1 + d) / price_tick self))
                * price_tick self) in *.
    assert (Hbid0 : 0 <= bid) by (destruct Hbid as [Hbid | Hbid]; nra).
    assert (Hmid : ~ (bid + ask) / 2 == 0).
    { intros Hz.
      assert (Hsum : bid + ask == 0).
      { setoid_replace (bid + ask) with ((bid + ask) / 2 * 2) by field.
        rewrite Hz. reflexivity. }
      lra. }
    unfold float_div. apply Qeq_bool_false in Hmid. rewrite Hmid. simpl.
    rewrite (round_value _ _ Hqt). simpl. eexists. reflexivity. }
  split; [exact Hbase |].
  intros qty avg. destruct Hbase as [b Hb].
  unfold quote_prices. rewrite Hb. simpl.
  apply loss_protection_ok; assumption.
Qed.

Lemma quote_prices_succeeds_witness :
  (exists b, base_quotes (example_bot false) 2000 = Ok b)
  /\ (forall qty avg,
        exists q, quote_prices (example_bot false) 2000 qty avg = Ok q).
Proof.
  apply (quote_prices_succeeds (example_bot false) 2000);
    [reflexivity | discriminate | discriminate | split; discriminate].
Defined.

(** ** Loss protection, further *)



Lemma quote_prices_protected
    (self : MarketMaker) (mark qty avg : Q) (base : Quotes) :
  base_quotes self mark = Ok base ->
  qty * (mark - avg) < 0 ->
  QTY_EPSILON < Qabs qty ->
  0 < avg ->
  let round_to v t := inject_Z (to_integral_value_ROUND_DOWN (v / t)) * t in
  (qty < 0 -> avg < bid_price base ->
   quote_prices self mark qty avg
   = Ok {| bid_price :=
             round_to (avg - PROFIT_TARGET / Qabs qty) (price_tick self);
           bid_quantity := round_to (Qabs qty) (qty_tick self);
           ask_price :=
             round_to (mark * (1 + spread_bps (cfg self) * 2 / 10000))
               (price_tick self);
           ask_quantity := ask_quantity base |})
  /\ (0 < qty -> ask_price base < avg ->
      quote_prices self mark qty avg
      = Ok {| bid_price :=
                round_to (mark * (1 - spread_bps (cfg self) * 2 / 10000))
                  (price_tick self);
              bid_quantity := bid_quantity base;
              ask_price :=
                round_to (avg + PROFIT_TARGET / Qabs qty) (price_tick self);
              ask_quantity := round_to (Qabs qty) (qty_tick self) |}).
Proof.
  intros Hbase Hloss Heps Hentry round_to.
  assert (Hgate : Qltb (unrealized_pnl_of qty mark avg) 0
                  && Qgtb (Qabs qty) QTY_EPSILON = true).
  { apply loss_protection_gate_iff. repeat split; assumption. }
  destruct (base_quotes_ticks_nonzero _ _ _ Hbase) as [Hpt Hqt].
  pose proof (Qabs_nonzero_of_epsilon qty Heps) as Hnz.
  assert (Hoff : float_div PROFIT_TARGET (Qabs qty)
                 = Ok (PROFIT_TARGET / Qabs qty)).
  { unfold float_div. apply Qeq_bool_false in Hnz. rewrite Hnz. reflexivity. }
  split.
  - intros Hneg Hbid.
    unfold quote_prices. rewrite Hbase. simpl.
    unfold loss_protection. rewrite Hgate, Hoff. simpl.
    apply Qltb_lt in Hneg. rewrite Hneg.
    apply Qgtb_gt in Hbid. rewrite Hbid.
    rewrite !(round_value _ _ Hpt). simpl.
    rewrite (round_value _ _ Hqt). simpl. reflexivity.
  - intros Hpos Hask.
    unfold quote_prices. rewrite Hbase. simpl.
    unfold loss_protection. rewrite Hgate, Hoff. simpl.
    assert (Hnneg : Qltb qty 0 = false) by (apply Qltb_ge; lra).
    rewrite Hnneg.
    apply Qgtb_gt in Hpos. rewrite Hpos.
    apply Qltb_lt in Hask. rewrite Hask.
    rewrite !(round_value _ _ Hpt). simpl.
    rewrite (round_value _ _ Hqt). simpl. reflexivity.
Qed.

Lemma profit_offset_product (qty : Q) :
  ~ Qabs qty == 0 -> PROFIT_TARGET / Qabs qty * Qabs qty == PROFIT_TARGET.
Proof. intros Hnz. field. exact Hnz. Qed.

(** X9: what the protected closing price realises after tick rounding
    (positive price tick, positive entry price).  A short in loss whose
    entry is more than one tick below the base bid, and whose raw bid
    avgEntry - 0.05/|qty| is not negative, is protected: its bid, and
    likewise the grid point one tick below it that the program can quote,
    is below the entry and realises at least 0.05 USD and less than
    0.05 + 2*|qty|*priceTick on the full position.  A long in loss whose
    entry is more than one tick above the base ask is protected: its ask,
    and likewise the grid point one tick below it, realises at most 0.05 USD
    and more than 0.05 - 2*|qty|*priceTick.  Rounding down costs less than
    one tick per unit; the second tick is the one the program can lose to a
    binary value just under a grid point. *)
Theorem protected_close_within_one_tick
    (self : MarketMaker) (mark qty avg : Q) (base : Quotes) :
  base_quotes self mark = Ok base ->
  qty * (mark - avg) < 0 ->
  QTY_EPSILON < Qabs qty ->
  0 < avg ->
  0 < price_tick self ->
  (qty < 0 -> avg + price_tick self < bid_price base ->
   0 <= avg - PROFIT_TARGET / Qabs qty ->
   exists q,
     quote_prices self mark qty avg = Ok q
     /\ forall bid,
          at_or_tick_below bid (bid_price q) (price_tick self) ->
          bid < avg
          /\ PROFIT_TARGET <= qty * (bid - avg)
          /\ qty * (bid - avg)
             < PROFIT_TARGET + 2 * Qabs qty * price_tick self)
  /\ (0 < qty -> ask_price base + price_tick self < avg ->
      exists q,
        quote_prices self mark qty avg = Ok q
        /\ forall ask,
             at_or_tick_below ask (ask_price q) (price_tick self) ->
             PROFIT_TARGET - 2 * Qabs qty * price_tick self
             < qty * (ask - avg)
             /\ qty * (ask - avg) <= PROFIT_TARGET).
Proof.
  intros Hbase Hloss Heps Hentry Htick.
  destruct (quote_prices_protected self mark qty avg base
              Hbase Hloss Heps Hentry) as [Hshort Hlong].
  destruct (base_quotes_ticks_nonzero _ _ _ Hbase) as [Hpt _].
  pose proof (Qabs_nonzero_of_epsilon qty Heps) as Hnz.
  pose proof (profit_offset_product qty Hnz) as Hprod.
  assert (Htarget : PROFIT_TARGET == 5 # 100) by reflexivity.
  assert (Habs0 : 0 < Qabs qty) by (unfold QTY_EPSILON in Heps; lra).
  split.
  - intros Hneg Hbid Hraw.
    eexists. split; [apply Hshort; [assumption | lra] |]. simpl.
    destruct (round_result_bounds (avg - PROFIT_TARGET / Qabs qty)
                (price_tick self) Hpt) as [Hside [Herr _]].
    simpl in Hside, Herr. specialize (Herr Htick).
    set (r := inject_Z (to_integral_value_ROUND_DOWN
                          ((avg - PROFIT_TARGET / Qabs qty) / price_tick self))
              * price_tick self) in *.
    set (off := PROFIT_TARGET / Qabs qty) in *.
    assert (Ha : Qabs qty == - qty) by (apply Qabs_neg; lra).
    set (a := Qabs qty) in *.
    assert (Hoff0 : 0 < off) by nra.
    assert (Hq : qty == - a) by lra.
    assert (Hr : 0 <= r <= avg - off) by (destruct Hside as [Hs | Hs]; lra).
    intros bid [Hb | Hb].
    + split; [lra |]. split; nra.
    + split; [lra |]. split; nra.
  - intros Hpos Hask.
    eexists. split; [apply Hlong; [assumption | lra] |]. simpl.
    destruct (round_result_bounds (avg + PROFIT_TARGET / Qabs qty)
                (price_tick self) Hpt) as [Hside [Herr _]].
    simpl in Hside, Herr. specialize (Herr Htick).
    set (r := inject_Z (to_integral_value_ROUND_DOWN
                          ((avg + PROFIT_TARGET / Qabs qty) / price_tick self))
              * price_tick self) in *.
    set (off := PROFIT_TARGET / Qabs qty) in *.
    assert (Ha : Qabs qty == qty) by (apply Qabs_pos; lra).
    set (a := Qabs qty) in *.
    assert (Hoff0 : 0 < off) by nra.
    assert (Hr : 0 <= r <= avg + off) by (destruct Hside as [Hs | Hs]; lra).
    intros ask [Hb | Hb]; split; nra.
Qed.

(** A short of 0.1 entered at 2000 with the mark at 2010: the protected bid
    and the grid point below it both close below the entry, for at least
    0.05 USD. *)
Lemma protected_close_within_one_tick_witness :
  exists base,
    base_quotes (example_bot false) 2010 = Ok base
    /\ exists q,
         quote_prices (example_bot false) 2010 (- (1 # 10)) 2000 = Ok q
         /\ forall bid,
              at_or_tick_below bid (bid_price q)
                (price_tick (example_bot false)) ->
              bid < 2000
              /\ PROFIT_TARGET <= - (1 # 10) * (bid - 2000)
              /\ - (1 # 10) * (bid - 2000)
                 < PROFIT_TARGET
                   + 2 * Qabs (- (1 # 10)) * price_tick (example_bot false).
Proof.
  eexists. split; [vm_compute; reflexivity |].
  destruct (protected_close_within_one_tick
              (example_bot false) 2010 (- (1 # 10)) 2000 _
              eq_refl eq_refl eq_refl eq_refl eq_refl) as [Hshort _].
  apply Hshort; [reflexivity | reflexivity | discriminate].
Defined.



(** ** Requote trigger, further *)

(** X11: no churn.  Once the base quotes computed at a mark price are
    recorded as the current quotes (each at its computed price, or at the
    grid point one tick below it that the program can quote), a later tick
    that samples the same mark price and a position within one quantity tick
    of the recorded one needs no requote, provided the price tick is
    positive and two price ticks fit into mark*spread/10000.  (A change of
    exactly two quantity ticks is left out: in binary arithmetic
    0.017 - 0.015 exceeds 2 * 0.001.) *)
Theorem quotes_stable_at_same_mark
    (self : MarketMaker) (mark qty qty' : Q) (b : Quotes) :
  base_quotes self mark = Ok b ->
  0 < price_tick self ->
  0 < mark ->
  0 <= spread_bps (cfg self) ->
  2 * price_tick self <= mark * (spread_bps (cfg self) / 10000) ->
  Qabs (qty' - qty) <= qty_tick self ->
  forall bid ask,
    at_or_tick_below bid (bid_price b) (price_tick self) ->
    at_or_tick_below ask (ask_price b) (price_tick self) ->
    _should_update_quotes
      (set_last_position_qty qty
         (set_current_ask_price ask (set_current_bid_price bid self)))
      mark qty' = false.
Proof.
  intros Hb Htick Hmark Hspread Hsmall Hone bid ask Hbid' Hask'.
  pose proof (Qabs_nonneg (qty' - qty)) as Hqtick.
  assert (Hfill : Qabs (qty' - qty) <= qty_tick self * 2) by lra.
  destruct (base_quotes_value self mark b Hb) as (Hpt & _ & _ & ->).
  unfold _should_update_quotes.
  cbn [current_bid_price current_ask_price last_position_qty qty_tick
       set_last_position_qty set_current_ask_price set_current_bid_price
       bid_price ask_price] in *.
  apply Qgtb_le in Hfill. rewrite Hfill.
  pose proof (spread_fraction_nonneg _ Hspread) as Hd.
  set (d := spread_bps (cfg self) / 10000) in *.
  destruct (round_result_bounds (mark * (1 - d)) (price_tick self) Hpt)
    as [Hbid _].
  destruct (round_result_bounds (mark * (1 + d)) (price_tick self) Hpt)
    as [Hask [Herr _]].
  simpl in Hbid, Hask, Herr. specialize (Herr Htick).
  set (bid0 := inject_Z (to_integral_value_ROUND_DOWN
                           (mark * (1 - d) / price_tick self))
               * price_tick self) in *.
  set (ask0 := inject_Z (to_integral_value_ROUND_DOWN
                           (mark * (1 + d) / price_tick self))
               * price_tick self) in *.
  assert (Hbm : bid <= mark)
    by (destruct Hbid as [Hbid | Hbid]; destruct Hbid' as [He | He]; nra).
  assert (Hma : mark <= ask) by (destruct Hask' as [He | He]; nra).
  assert (Hup : Qgtb mark (ask + (ask - bid) * (6 # 10)) = false)
    by (apply Qgtb_le; lra).
  assert (Hdown : Qltb mark (bid - (ask - bid) * (6 # 10)) = false)
    by (apply Qltb_ge; lra).
  rewrite Hup, Hdown. reflexivity.
Qed.

(** The example bot at a mark of 2000: the exact quotes are 1998 / 2002; with
    the ask recorded one tick lower, at 2001.99, and the position one
    quantity tick away, no requote is due. *)
Lemma quotes_stable_at_same_mark_witness :
  exists b,
    base_quotes (example_bot false) 2000 = Ok b
    /\ _should_update_quotes
         (set_last_position_qty 0
            (set_current_ask_price (ask_price b - (1 # 100))
               (set_current_bid_price (bid_price b) (example_bot false))))
         2000 (1 # 1000) = false.
Proof.
  destruct (base_quotes (example_bot false) 2000) as [b | e] eqn:Hb;
    [| vm_compute in Hb; discriminate Hb].
  exists b. split; [reflexivity |].
  apply (quotes_stable_at_same_mark (example_bot false) 2000 0 (1 # 1000) b);
    [exact Hb | reflexivity | reflexivity | discriminate
    | discriminate | discriminate | left; reflexivity | right; reflexivity].
Defined.

(** ** Invariants of a run *)

Section Respects.
Context {V : Type}.
Variable R : World V -> World V -> Prop.
Hypothesis R_refl : forall w, R w w.
Hypothesis R_trans : forall w1 w2 w3, R w1 w2 -> R w2 w3 -> R w1 w3.

Lemma respects_ret {A} (a : A) : respects R (@ret V A a).
Proof. intros w r w' Hrun. injection Hrun as _ <-. apply R_refl. Qed.

Lemma respects_lift {A} (r : result A) : respects R (@lift V A r).
Proof. intros w r' w' Hrun. injection Hrun as _ <-. apply R_refl. Qed.

Lemma respects_get_self : respects R (@get_self V).
Proof. intros w r w' Hrun. injection Hrun as _ <-. apply R_refl. Qed.

Lemma respects_bind {A B} (m : M V A) (k : A -> M V B) :
  respects R m -> (forall a, respects R (k a)) -> respects R (bind m k).
Proof.
  intros Hm Hk w r w' Hrun. unfold bind in Hrun.
  destruct (m w) as [[a | e] w1] eqn:Em.
  - apply (R_trans w w1 w'); [apply (Hm _ _ _ Em) | apply (Hk _ _ _ _ Hrun)].
  - injection Hrun as _ <-. apply (Hm _ _ _ Em).
Qed.

Lemma respects_try_except {A} (body : M V A) (handler : exn -> M V A) :
  respects R body -> (forall e, respects R (handler e)) ->
  respects R (try_except body handler).
Proof.
  intros Hb Hh w r w' Hrun. unfold try_except in Hrun.
  destruct (body w) as [[a | e] w1] eqn:Eb.
  - injection Hrun as _ <-. apply (Hb _ _ _ Eb).
  - apply (R_trans w w1 w'); [apply (Hb _ _ _ Eb) | apply (Hh _ _ _ _ Hrun)].
Qed.

Lemma respects_gather_results {A} (tasks : list (M V A)) :
  Forall (respects R) tasks ->
  forall w rs w', gather_results tasks w = (rs, w') -> R w w'.
Proof.
  induction 1 as [| t ts Ht Hts IH]; intros w rs w' Hrun; simpl in Hrun.
  - injection Hrun as _ <-. apply R_refl.
  - destruct (t w) as [r w1] eqn:Et.
    destruct (gather_results ts w1) as [rs1 w2] eqn:Ets.
    injection Hrun as _ <-.
    apply (R_trans w w1 w2); [apply (Ht _ _ _ Et) | apply (IH _ _ _ Ets)].
Qed.

Lemma respects_gather {A} (tasks : list (M V A)) :
  Forall (respects R) tasks -> respects R (gather tasks).
Proof.
  intros Hts w r w' Hrun. unfold gather in Hrun.
  destruct (gather_results tasks w) as [rs w1] eqn:Eg.
  injection Hrun as _ <-. apply (respects_gather_results _ Hts _ _ _ Eg).
Qed.

Lemma respects_gather2 {A B} (t1 : M V A) (t2 : M V B) :
  respects R t1 -> respects R t2 -> respects R (gather2 t1 t2).
Proof.
  intros H1 H2 w r w' Hrun. unfold gather2 in Hrun.
  destruct (t1 w) as [r1 w1] eqn:E1. destruct (t2 w1) as [r2 w2] eqn:E2.
  injection Hrun as _ <-.
  apply (R_trans w w1 w2); [apply (H1 _ _ _ E1) | apply (H2 _ _ _ E2)].
Qed.

End Respects.

Lemma steady_refl {V} (w : World V) : steady w w.
Proof.
  repeat split. exists []. symmetry. apply app_nil_r.
Qed.

Lemma steady_trans {V} (w1 w2 w3 : World V) :
  steady w1 w2 -> steady w2 w3 -> steady w1 w3.
Proof.
  intros (Hc1 & Hp1 & Hq1 & l1 & Hl1) (Hc2 & Hp2 & Hq2 & l2 & Hl2).
  repeat split; try congruence.
  exists (l1 ++ l2). rewrite Hl2, Hl1, app_assoc. reflexivity.
Qed.

Lemma steady_client {V A} (c : call) (op : V -> result A * V) :
  respects steady (client c op).
Proof.
  intros w r w' Hrun. unfold client in Hrun.
  destruct (op (venue w)) as [r0 v']. injection Hrun as _ <-.
  repeat split. exists [c]. reflexivity.
Qed.

Lemma steady_sleep {V} (s : Q) : respects steady (@sleep V s).
Proof.
  intros w r w' Hrun. injection Hrun as _ <-.
  repeat split. exists [Sleep s]. reflexivity.
Qed.

Lemma steady_modify_self {V} (f : MarketMaker -> MarketMaker) :
  (forall s, cfg (f s) = cfg s
             /\ price_tick (f s) = price_tick s
             /\ qty_tick (f s) = qty_tick s) ->
  respects steady (@modify_self V f).
Proof.
  intros Hf w r w' Hrun. injection Hrun as _ <-.
  destruct (Hf (self w)) as (Hc & Hp & Hq).
  repeat split; try assumption. exists []. symmetry. apply app_nil_r.
Qed.

Lemma bind_ok_step {V A B} (m : M V A) (k : A -> M V B)
    (w w1 : World V) (a : A) :
  m w = (Ok a, w1) -> bind m k w = k a w1.
Proof. intros Hm. unfold bind. rewrite Hm. reflexivity. Qed.

Lemma bind_ok_inv {V A B} (m : M V A) (k : A -> M V B)
    (w w' : World V) (b : B) :
  bind m k w = (Ok b, w') ->
  exists a w1, m w = (Ok a, w1) /\ k a w1 = (Ok b, w').
Proof.
  unfold bind. destruct (m w) as [[a | e] w1]; intros Hrun;
    [exists a, w1; split; [reflexivity | exact Hrun] | discriminate Hrun].
Qed.

Section SteadyBot.
Context {V : Type} `{OrderlyClient V}.

Let steady_bind {A B} := @respects_bind V steady (@steady_trans V) A B.
Let steady_try {A} := @respects_try_except V steady (@steady_trans V) A.
Let steady_ret {A} := @respects_ret V steady (@steady_refl V) A.

Lemma steady_cancel_tasks (ids : list Z) :
  Forall (respects steady) (map client_cancel_order ids).
Proof.
  induction ids as [| id ids IH]; simpl; constructor; [| exact IH].
  apply steady_client.
Qed.

Lemma steady_get_position : respects steady _get_position.
Proof.
  apply steady_try; [apply steady_client | intros e; apply steady_ret].
Qed.

Lemma steady_cancel_all_orders : respects steady _cancel_all_orders.
Proof.
  unfold _cancel_all_orders.
  apply steady_try; [| intros e; apply steady_ret].
  apply steady_bind; [apply steady_client |].
  intros orders. destruct (is_empty orders); [apply steady_ret |].
  destruct (is_empty (order_ids_of orders)); [apply steady_ret |].
  apply steady_bind;
    [apply (respects_gather steady (@steady_refl V) (@steady_trans V)),
       steady_cancel_tasks |].
  intros results.
  destruct (negb (is_empty (filter is_non_400_failure results)));
    [apply steady_ret |].
  apply steady_bind; [apply steady_sleep |]. intros _.
  apply steady_bind; [apply steady_client |].
  intros remaining.
  destruct (negb (is_empty remaining)); [| apply steady_ret].
  destruct (negb (is_empty (order_ids_of remaining))); [| apply steady_ret].
  apply steady_bind;
    [apply (respects_gather steady (@steady_refl V) (@steady_trans V)),
       steady_cancel_tasks |].
  intros _.
  apply steady_bind; [apply steady_sleep |]. intros _.
  apply steady_bind; [apply steady_client |].
  intros final. destruct (negb (is_empty final)); apply steady_ret.
Qed.

Lemma steady_close_position (qty mark : Q) :
  respects steady (_close_position qty mark).
Proof.
  unfold _close_position.
  destruct (Qltb (Qabs qty) QTY_EPSILON); [apply steady_ret |].
  apply steady_try; [| intros e; apply steady_ret].
  apply steady_bind;
    [apply (respects_get_self steady (@steady_refl V)) |].
  intros self0.
  apply steady_bind;
    [apply (respects_lift steady (@steady_refl V)) |].
  intros price. apply steady_client.
Qed.

Lemma steady_place_quotes (mark qty avg : Q) :
  respects steady (_place_quotes mark qty avg).
Proof.
  unfold _place_quotes.
  apply steady_bind;
    [apply (respects_get_self steady (@steady_refl V)) |].
  intros self0.
  apply steady_bind;
    [apply (respects_lift steady (@steady_refl V)) |].
  intros q. destruct (dry_run (cfg self0)).
  - apply steady_bind; [| intros _];
      apply steady_modify_self; intros s; repeat split.
  - apply steady_try; [| intros e; apply steady_ret].
    apply steady_bind.
    + apply (respects_gather2 steady (@steady_trans V)); apply steady_client.
    + intros [rb ra].
      apply steady_bind.
      * destruct rb; [apply steady_modify_self; intros s; repeat split
                     | apply steady_ret].
      * intros _.
        destruct ra; [apply steady_modify_self; intros s; repeat split
                     | apply steady_ret].
Qed.

Lemma steady_evaluate_quotes (mark qty avg : Q) :
  respects steady (evaluate_quotes mark qty avg).
Proof.
  unfold evaluate_quotes.
  apply steady_bind;
    [apply (respects_get_self steady (@steady_refl V)) |].
  intros self0.
  destruct (_should_update_quotes self0 mark qty); [| apply steady_ret].
  apply steady_bind; [apply steady_cancel_all_orders |].
  intros [|]; [| apply steady_ret].
  apply steady_bind; [apply steady_place_quotes |]. intros _.
  apply steady_modify_self. intros s. repeat split.
Qed.

End SteadyBot.

(** ** One tick of the loop *)

Lemma ends_with_sleep_bind {V A B} (m : M V A) (k : A -> M V B) :
  respects steady m -> (forall a, ends_with_sleep (k a)) ->
  ends_with_sleep (bind m k).
Proof.
  intros Hm Hk w b w' Hrun.
  destruct (bind_ok_inv _ _ _ _ _ Hrun) as (a & w1 & Hm1 & Hk1).
  destruct (Hk a w1 b w' Hk1) as (w0 & s & Hst & Hcalls & Hself & Hs).
  exists w0, s. split; [| repeat split; assumption].
  apply (steady_trans w w1 w0); [apply (Hm _ _ _ Hm1) | exact Hst].
Qed.

Lemma ends_with_sleep_cooldown {V} : ends_with_sleep (@sleep V 2).
Proof.
  intros w a w' Hrun. injection Hrun as _ <-.
  exists w, 2. split; [apply steady_refl |]. repeat split. left. reflexivity.
Qed.

Lemma ends_with_sleep_refresh {V} :
  ends_with_sleep
    (@bind V _ _ get_self (fun self0 => sleep (refresh_interval (cfg self0)))).
Proof.
  intros w a w' Hrun. injection Hrun as _ <-.
  exists w, (refresh_interval (cfg (self w))).
  split; [apply steady_refl |]. repeat split. right. reflexivity.
Qed.

Lemma quote_prices_flat (self : MarketMaker) (mark : Q) :
  quote_prices self mark 0 0 = base_quotes self mark.
Proof.
  unfold quote_prices. destruct (base_quotes self mark) as [b | e];
    reflexivity.
Qed.


Section Tick.
Context {V : Type} `{OrderlyClient V}.

Lemma client_frame {A} (c : call) (op : V -> result A * V)
    (w : World V) (r : result A) (w' : World V) :
  client c op w = (r, w') ->
  self w' = self w
  /\ calls w' = calls w ++ [c]
  /\ op (venue w) = (r, venue w').
Proof.
  unfold client. destruct (op (venue w)) as [r0 v'] eqn:Eop.
  intros Hrun. injection Hrun as <- <-. repeat split.
Qed.


Lemma cancel_all_orders_returns (w : World V) :
  exists b w', _cancel_all_orders w = (Ok b, w').
Proof.
  unfold _cancel_all_orders, try_except.
  match goal with
  | |- exists b w', match ?body w with _ => _ end = _ =>
      destruct (body w) as [[b | e] w']
  end.
  - exists b, w'. reflexivity.
  - exists false, w'. reflexivity.
Qed.


(** X12: a tick never raises and never ends without sleeping.  Whatever
    the venue answers, [run_iteration] returns, the last thing it did is a
    sleep of 2 seconds (take-profit cool-down), of 5 seconds (fault
    back-off) or of the refresh interval, and it leaves the configuration
    and both tick sizes as they were. *)
Theorem tick_completes_with_sleep (w : World V) :
  exists w' before s,
    run_iteration w = (Ok tt, w')
    /\ calls w' = calls w ++ before ++ [Sleep s]
    /\ (s = 2 \/ s = 5 \/ s = refresh_interval (cfg (self w)))
    /\ cfg (self w') = cfg (self w)
    /\ price_tick (self w') = price_tick (self w)
    /\ qty_tick (self w') = qty_tick (self w).
Proof.
  unfold run_iteration, try_except.
  match goal with
  | |- context [match ?b w with _ => _ end] => set (body := b)
  end.
  assert (Hsteady : respects steady body).
  { unfold body.
    apply (respects_bind steady (@steady_trans V)); [apply steady_client |].
    intros mark.
    apply (respects_bind steady (@steady_trans V));
      [apply steady_get_position |].
    intros [qty avg].
    apply (respects_bind steady (@steady_trans V));
      [apply (respects_lift steady (@steady_refl V)) |].
    intros tp. destruct tp.
    - apply (respects_bind steady (@steady_trans V));
        [apply steady_cancel_all_orders |]. intros _.
      apply (respects_bind steady (@steady_trans V));
        [apply steady_close_position |]. intros _.
      apply steady_sleep.
    - destruct (_should_stop_quoting qty mark).
      + apply (respects_bind steady (@steady_trans V));
          [apply steady_cancel_all_orders |]. intros _.
        apply (respects_bind steady (@steady_trans V));
          [apply (respects_get_self steady (@steady_refl V)) |].
        intros self0. apply steady_sleep.
      + apply (respects_bind steady (@steady_trans V));
          [apply steady_evaluate_quotes |]. intros _.
        apply (respects_bind steady (@steady_trans V));
          [apply (respects_get_self steady (@steady_refl V)) |].
        intros self0. apply steady_sleep. }
  assert (Hends : ends_with_sleep body).
  { unfold body.
    apply ends_with_sleep_bind; [apply steady_client |]. intros mark.
    apply ends_with_sleep_bind; [apply steady_get_position |].
    intros [qty avg].
    apply ends_with_sleep_bind;
      [apply (respects_lift steady (@steady_refl V)) |].
    intros tp. destruct tp.
    - apply ends_with_sleep_bind; [apply steady_cancel_all_orders |].
      intros _.
      apply ends_with_sleep_bind; [apply steady_close_position |].
      intros _. apply ends_with_sleep_cooldown.
    - destruct (_should_stop_quoting qty mark).
      + apply ends_with_sleep_bind; [apply steady_cancel_all_orders |].
        intros _. apply ends_with_sleep_refresh.
      + apply ends_with_sleep_bind; [apply steady_evaluate_quotes |].
        intros _. apply ends_with_sleep_refresh. }
  destruct (body w) as [[[] | e] w1] eqn:Ebody.
  - destruct (Hends _ _ _ Ebody)
      as (w0 & s & (Hc & Hp & Hq & l & Hl) & Hcalls & Hself & Hs).
    exists w1, l, s. split; [reflexivity |].
    split; [rewrite Hcalls, Hl, app_assoc; reflexivity |].
    split; [destruct Hs as [-> | ->]; [left; reflexivity
                                      | right; right; congruence] |].
    rewrite Hself. repeat split; assumption.
  - destruct (Hsteady _ _ _ Ebody) as (Hc & Hp & Hq & l & Hl).
    eexists. exists l, 5. split; [reflexivity |]. simpl.
    split; [rewrite Hl, app_assoc; reflexivity |].
    split; [right; left; reflexivity |].
    repeat split; assumption.
Qed.

(** X13: when the mark price cannot be fetched the tick does nothing else:
    no position fetch, no cancel, no order; the bot object is untouched and
    the tick backs off for 5 seconds. *)
Theorem tick_mark_price_failure (w wa : World V) (e : exn) :
  client_get_mark_price w = (Raise e, wa) ->
  run_iteration w
  = (Ok tt,
     {| self := self w; venue := venue wa;
        calls := calls w ++ [GetMarkPrice; Sleep 5] |}).
Proof.
  intros Hmark.
  destruct (client_frame _ _ _ _ _ Hmark) as (Hs & Hc & _).
  unfold run_iteration, try_except, bind. rewrite Hmark.
  unfold sleep. rewrite Hs, Hc, <- app_assoc. reflexivity.
Qed.

(** X14: fail-open position.  When the position cannot be fetched the tick
    goes on as with a flat position: take-profit and the inventory stop stay
    silent, and whatever the tick sends to the venue is the plain pair of
    base quotes, never a closing order and never a loss-protected quote. *)
Theorem tick_position_failure_quotes_flat
    (w wa wb : World V) (mark : Q) (e : exn) :
  client_get_mark_price w = (Ok mark, wa) ->
  client_get_position wa = (Raise e, wb) ->
  _get_position wa = (Ok (0, 0), wb)
  /\ _should_take_profit 0 mark 0 = Ok false
  /\ _should_stop_quoting 0 mark = false
  /\ exists w',
       run_iteration w = (Ok tt, w')
       /\ (orders_sent (calls w') = orders_sent (calls w)
           \/ exists b,
                base_quotes (self w) mark = Ok b
                /\ orders_sent (calls w')
                   = orders_sent (calls w)
                     ++ [CreateOrder BUY (bid_price b) (bid_quantity b);
                         CreateOrder SELL (ask_price b) (ask_quantity b)]).
Proof.
  intros Hmark Hpos.
  assert (Hget : _get_position wa = (Ok (0, 0), wb)).
  { unfold _get_position, try_except. rewrite Hpos. reflexivity. }
  split; [exact Hget |]. split; [reflexivity |]. split; [reflexivity |].
  destruct (quiet_get_mark_price _ _ _ Hmark) as [Hsa Hca].
  destruct (quiet_get_position _ _ _ Hget) as [Hsb Hcb].
  unfold run_iteration, try_except, bind. rewrite Hmark, Hget.
  unfold lift.
  change (_should_take_profit 0 mark 0) with (@Ok bool false).
  change (_should_stop_quoting 0 mark) with false.
  unfold evaluate_quotes, bind, get_self.
  destruct (_should_update_quotes (self wb) mark 0).
  - destruct (cancel_all_orders_returns wb) as (b & wc & Hcancel).
    destruct (quiet_cancel_all_orders _ _ _ Hcancel) as [Hsc Hcc].
    assert (Hself : self wc = self w) by congruence.
    assert (Hsent : orders_sent (calls wc) = orders_sent (calls w))
      by congruence.
    rewrite Hcancel. destruct b.
    + rewrite place_quotes_unfold, Hself, quote_prices_flat.
      destruct (base_quotes (self w) mark) as [q | eq] eqn:Hq.
      * destruct (dry_run (cfg (self w))).
        -- eexists. split; [reflexivity |]. left. simpl.
           rewrite orders_sent_sleep. exact Hsent.
        -- destruct (client_create_order BUY (bid_price q) (bid_quantity q) wc)
             as [rb w1] eqn:Hbid.
           destruct (client_create_order SELL (ask_price q) (ask_quantity q) w1)
             as [ra w2] eqn:Hask.
           destruct (client_create_order_frame _ _ _ _ _ _ Hbid) as [_ Hc1].
           destruct (client_create_order_frame _ _ _ _ _ _ Hask) as [_ Hc2].
           eexists. split; [reflexivity |]. right. exists q.
           split; [reflexivity |]. simpl.
           rewrite orders_sent_sleep, Hc2, Hc1, <- app_assoc.
           rewrite orders_sent_app, Hsent. reflexivity.
      * eexists. split; [reflexivity |]. left. simpl.
        rewrite orders_sent_sleep. exact Hsent.
    + eexists. split; [reflexivity |]. left. simpl.
      rewrite orders_sent_sleep. exact Hsent.
  - eexists. split; [reflexivity |]. left. simpl.
    rewrite orders_sent_sleep. congruence.
Qed.


(** X16: an inventory-stop tick.  When the stop fires and take-profit does
    not (by the exact rule, and in the program's binary arithmetic on the
    floats nearest the sampled numbers, which can differ at the threshold),
    the tick runs [_cancel_all_orders] once and ignores what it reports:
    after a reported failure orders may still rest on the venue.  Either way
    the tick sends no order, leaves the bot object untouched and sleeps for
    the refresh interval. *)
Theorem tick_inventory_stop_sends_nothing
    (w wa wb wc : World V) (mark qty avg : Q) (cancel_result : result bool) :
  client_get_mark_price w = (Ok mark, wa) ->
  _get_position wa = (Ok (qty, avg), wb) ->
  _should_take_profit qty mark avg = Ok false ->
  Binary64._should_take_profit
    (Binary64.binary64 qty) (Binary64.binary64 mark) (Binary64.binary64 avg)
  = Ok false ->
  _should_stop_quoting qty mark = true ->
  _cancel_all_orders wb = (cancel_result, wc) ->
  exists w',
    run_iteration w = (Ok tt, w')
    /\ self w' = self w
    /\ calls w' = calls wc ++ [Sleep (refresh_interval (cfg (self w)))]
    /\ orders_sent (calls w') = orders_sent (calls w).
Proof.
  intros Hmark Hpos Htp _ Hstop Hcancel.
  destruct (quiet_get_mark_price _ _ _ Hmark) as [Hsa Hca].
  destruct (quiet_get_position _ _ _ Hpos) as [Hsb Hcb].
  destruct (quiet_cancel_all_orders _ _ _ Hcancel) as [Hsc Hcc].
  assert (Hself : self wc = self w) by congruence.
  destruct (cancel_all_orders_returns wb) as (b & wc' & Hret).
  rewrite Hret in Hcancel. injection Hcancel as <- <-.
  unfold run_iteration, try_except, bind. rewrite Hmark, Hpos.
  unfold lift. rewrite Htp, Hstop, Hret. unfold get_self, sleep.
  eexists. split; [reflexivity |]. simpl.
  split; [exact Hself |]. split; [rewrite Hself; reflexivity |].
  rewrite orders_sent_sleep. congruence.
Qed.


(** X18: the closing order goes through the mark.  With a positive price
    tick and a positive mark price, [_close_position] on a position that is
    not flat sends exactly one order for the whole |qty|, at a multiple of
    the price tick: a SELL for a long, a BUY for a short.  The price, and
    likewise the grid point one tick below it, which is what the program
    sends when its binary product lies just under a grid point, is at most
    its target (mark*0.999 for the SELL, mark*1.001 for the BUY) and less
    than two ticks below it.  The SELL is strictly below the mark.  When two
    price ticks fit into mark/1000 the BUY is strictly above the mark in
    either case; with room for one tick only, the lower price can be the
    mark itself. *)
Theorem close_price_through_mark (w : World V) (qty mark : Q) :
  0 < price_tick (self w) ->
  0 < mark ->
  QTY_EPSILON <= Qabs qty ->
  exists w' p,
    _close_position qty mark w = (Ok tt, w')
    /\ calls w'
       = calls w
         ++ [CreateOrder (if Qgtb qty 0 then SELL else BUY) p (Qabs qty)]
    /\ on_tick p (price_tick (self w))
    /\ (0 < qty ->
        p < mark
        /\ forall price,
             at_or_tick_below price p (price_tick (self w)) ->
             mark * (999 # 1000) - 2 * price_tick (self w) < price
             /\ price <= mark * (999 # 1000))
    /\ (qty <= 0 ->
        (forall price,
           at_or_tick_below price p (price_tick (self w)) ->
           mark * (1001 # 1000) - 2 * price_tick (self w) < price
           /\ price <= mark * (1001 # 1000))
        /\ (2 * price_tick (self w) <= mark * (1 # 1000) ->
            forall price,
              at_or_tick_below price p (price_tick (self w)) ->
              mark < price)).
Proof.
  intros Htick Hmark Hqty.
  assert (Hpt : ~ price_tick (self w) == 0)
    by (intros Hz; rewrite Hz in Htick; lra).
  destruct (close_position_order w qty mark _ Hqty (round_value _ _ Hpt))
    as (w' & Hrun & _ & Hcalls).
  exists w'. eexists. split; [exact Hrun |]. split; [exact Hcalls |].
  split; [apply (round_on_tick _ _ _ (round_value _ _ Hpt)) |].
  destruct (Qgtb qty 0) eqn:Eside.
  - apply Qgtb_gt in Eside.
    destruct (round_result_bounds (mark * (999 # 1000)) (price_tick (self w))
                Hpt) as [Hside [Herr _]].
    simpl in Hside, Herr. specialize (Herr Htick).
    split; [| intros Hq; lra]. intros _.
    split; [destruct Hside as [Hs | Hs]; lra |].
    intros price [Hq | Hq]; (split; [| destruct Hside as [Hs | Hs]]; lra).
  - apply Qgtb_le in Eside.
    destruct (round_result_bounds (mark * (1001 # 1000))
                (price_tick (self w)) Hpt) as [Hside [Herr _]].
    simpl in Hside, Herr. specialize (Herr Htick).
    split; [intros Hq; lra |]. intros _.
    split.
    + intros price [Hq | Hq]; (split; [| destruct Hside as [Hs | Hs]]; lra).
    + intros Hsmall price [Hq | Hq]; lra.
Qed.

(** X25: whatever [_place_quotes] sends is on the tick grid.  A call sends
    either nothing (dry-run, or a fault in the quote computation) or exactly
    a BUY followed by a SELL, and each of the two has a price that is a
    multiple of the price tick and a quantity that is a multiple of the
    quantity tick, in normal and in loss-protected quoting alike. *)
Theorem placed_orders_on_grid (w : World V) (mark qty avg : Q) :
  exists r w' sent,
    _place_quotes mark qty avg w = (r, w')
    /\ calls w' = calls w ++ sent
    /\ (sent = []
        \/ exists bp bq ap aq,
             sent = [CreateOrder BUY bp bq; CreateOrder SELL ap aq]
             /\ on_tick bp (price_tick (self w))
             /\ on_tick ap (price_tick (self w))
             /\ on_tick bq (qty_tick (self w))
             /\ on_tick aq (qty_tick (self w))).
Proof.
  rewrite place_quotes_unfold.
  destruct (quote_prices (self w) mark qty avg) as [q | e] eqn:Hq.
  - destruct (dry_run (cfg (self w))).
    + do 2 eexists. exists []. split; [reflexivity |]. simpl.
      split; [symmetry; apply app_nil_r | left; reflexivity].
    + destruct (client_create_order BUY (bid_price q) (bid_quantity q) w)
        as [rb w1] eqn:Hbid.
      destruct (client_create_order SELL (ask_price q) (ask_quantity q) w1)
        as [ra w2] eqn:Hask.
      destruct (client_create_order_frame _ _ _ _ _ _ Hbid) as [_ Hc1].
      destruct (client_create_order_frame _ _ _ _ _ _ Hask) as [_ Hc2].
      destruct (quote_prices_on_tick _ _ _ _ _ Hq) as (Hbp & Hap & Hbq & Haq).
      do 3 eexists. split; [reflexivity |]. simpl.
      split; [rewrite Hc2, Hc1, <- app_assoc; reflexivity |].
      right. do 4 eexists. split; [reflexivity |].
      repeat split; assumption.
  - do 2 eexists. exists []. split; [reflexivity |].
    split; [symmetry; apply app_nil_r | left; reflexivity].
Qed.

End Tick.

(** ** Cancel-all, further *)

Section CancelAll.
Context {V : Type} `{OrderlyClient V}.

Lemma gather_cancel_frame (ids : list Z) (w : World V)
    (rs : list (result unit)) (w' : World V) :
  gather_results (map client_cancel_order ids) w = (rs, w') ->
  self w' = self w
  /\ calls w' = calls w ++ map CancelOrder ids
  /\ length rs = length ids.
Proof.
  revert w rs w'. induction ids as [| id ids IH]; intros w rs w' Hrun;
    simpl in Hrun.
  - injection Hrun as <- <-. repeat split. symmetry. apply app_nil_r.
  - destruct (client_cancel_order id w) as [r w1] eqn:Ecancel.
    destruct (gather_results (map client_cancel_order ids) w1)
      as [rs1 w2] eqn:Erest.
    injection Hrun as <- <-.
    assert (Hf : self w1 = self w /\ calls w1 = calls w ++ [CancelOrder id]).
    { unfold client_cancel_order, client in Ecancel.
      destruct (cancel_order id (venue w)) as [r0 v'].
      injection Ecancel as _ <-. split; reflexivity. }
    destruct Hf as [Hs1 Hc1].
    destruct (IH _ _ _ Erest) as (Hs2 & Hc2 & Hlen).
    split; [congruence |].
    split; [rewrite Hc2, Hc1, <- app_assoc; reflexivity |].
    simpl. rewrite Hlen. reflexivity.
Qed.

(** X19: a fetch of the open orders that fails never escapes
    [_cancel_all_orders]: whether it is the first fetch, the verification
    fetch or the final fetch after the retry, the result is failure, and
    nothing more is requested after the failed fetch. *)
Theorem cancel_all_orders_fetch_failure (w : World V) :
  (forall e w1,
     client_get_open_orders w = (Raise e, w1) ->
     _cancel_all_orders w = (Ok false, w1))
  /\ (forall orders w1 results w2,
        client_get_open_orders w = (Ok orders, w1) ->
        order_ids_of orders <> [] ->
        gather_results (map client_cancel_order (order_ids_of orders)) w1
        = (results, w2) ->
        (forall r, In r results ->
           r = Ok tt \/ r = Raise (ClientResponseError 400)) ->
        (forall e w3,
           client_get_open_orders (snd (sleep (3 # 10) w2)) = (Raise e, w3) ->
           _cancel_all_orders w = (Ok false, w3))
        /\ (forall remaining w3 results2 w4 e w5,
              client_get_open_orders (snd (sleep (3 # 10) w2))
              = (Ok remaining, w3) ->
              order_ids_of remaining <> [] ->
              gather_results
                (map client_cancel_order (order_ids_of remaining)) w3
              = (results2, w4) ->
              client_get_open_orders (snd (sleep (2 # 10) w4))
              = (Raise e, w5) ->
              _cancel_all_orders w = (Ok false, w5))).
Proof.
  split.
  - intros e w1 Hfetch.
    unfold _cancel_all_orders, try_except, bind. rewrite Hfetch. reflexivity.
  - intros orders w1 results w2 Hfetch Hids Hgather Hacc.
    assert (Horders : is_empty orders = false).
    { destruct orders; [contradiction Hids; reflexivity | reflexivity]. }
    split.
    + intros e w3 Hverify.
      unfold _cancel_all_orders, try_except, bind. rewrite Hfetch.
      rewrite Horders, (is_empty_false _ Hids).
      unfold gather. rewrite Hgather.
      rewrite (failed_non_400_empty _ Hacc). simpl.
      simpl in Hverify. rewrite Hverify. reflexivity.
    + intros remaining w3 results2 w4 e w5 Hverify Hrem Hgather2 Hfinal.
      assert (Hremaining : is_empty remaining = false).
      { destruct remaining; [contradiction Hrem; reflexivity | reflexivity]. }
      unfold _cancel_all_orders, try_except, bind. rewrite Hfetch.
      rewrite Horders, (is_empty_false _ Hids).
      unfold gather. rewrite Hgather.
      rewrite (failed_non_400_empty _ Hacc). simpl.
      simpl in Hverify. rewrite Hverify.
      rewrite Hremaining, (is_empty_false _ Hrem). simpl.
      rewrite Hgather2. simpl.
      simpl in Hfinal. rewrite Hfinal. reflexivity.
Qed.

(** X20: orders that remain but carry no id end the verification early.
    When every cancel of the first batch was accepted and the verification
    fetch still lists orders, none of which has an ["order_id"], no retry is
    made, no final fetch is made and [_cancel_all_orders] reports
    success. *)
Theorem cancel_all_orders_remaining_without_id
    (w w1 w2 w3 : World V) (orders remaining : list order)
    (results : list (result unit)) :
  client_get_open_orders w = (Ok orders, w1) ->
  order_ids_of orders <> [] ->
  gather_results (map client_cancel_order (order_ids_of orders)) w1
  = (results, w2) ->
  (forall r, In r results ->
     r = Ok tt \/ r = Raise (ClientResponseError 400)) ->
  client_get_open_orders (snd (sleep (3 # 10) w2)) = (Ok remaining, w3) ->
  remaining <> [] ->
  order_ids_of remaining = [] ->
  _cancel_all_orders w = (Ok true, w3)
  /\ calls w3
     = calls w
       ++ GetOpenOrders :: map CancelOrder (order_ids_of orders)
       ++ [Sleep (3 # 10); GetOpenOrders].
Proof.
  intros Hfetch Hids Hgather Hacc Hverify Hrem Hnoid.
  assert (Horders : is_empty orders = false).
  { destruct orders; [contradiction Hids; reflexivity | reflexivity]. }
  split.
  - unfold _cancel_all_orders, try_except, bind. rewrite Hfetch.
    rewrite Horders, (is_empty_false _ Hids).
    unfold gather. rewrite Hgather.
    rewrite (failed_non_400_empty _ Hacc). simpl.
    simpl in Hverify. rewrite Hverify.
    rewrite (is_empty_false _ Hrem), Hnoid. reflexivity.
  - assert (Hc1 : calls w1 = calls w ++ [GetOpenOrders]).
    { unfold client_get_open_orders, client in Hfetch.
      destruct (get_open_orders (venue w)) as [r0 v'].
      injection Hfetch as _ <-. reflexivity. }
    destruct (gather_cancel_frame _ _ _ _ Hgather) as (_ & Hc2 & _).
    assert (Hc3 : calls w3 = calls w2 ++ [Sleep (3 # 10); GetOpenOrders]).
    { unfold client_get_open_orders, client in Hverify. simpl in Hverify.
      destruct (get_open_orders (venue w2)) as [r0 v'].
      injection Hverify as _ <-. simpl. rewrite <- app_assoc. reflexivity. }
    rewrite Hc3, Hc2, Hc1, <- !app_assoc. reflexivity.
Qed.

(** X21: the request log of a cancel-all.  After a successful first fetch
    that lists at least one order with an id, [_cancel_all_orders] makes
    these requests and no others, in this order: the fetch; one cancel per
    listed id, in the order of the listing; then nothing more when one of
    those cancels failed with a non-400 error (the result is failure);
    otherwise a pause of 0.3 s and the verification fetch; and, only when
    that fetch returns a listing with at least one id, one cancel per id it
    lists, a pause of 0.2 s and the final fetch. *)
Theorem cancel_all_orders_first_batch
    (w w1 w2 w3 : World V) (orders : list order)
    (results : list (result unit)) (verification : result (list order)) :
  client_get_open_orders w = (Ok orders, w1) ->
  order_ids_of orders <> [] ->
  gather_results (map client_cancel_order (order_ids_of orders)) w1
  = (results, w2) ->
  client_get_open_orders (snd (sleep (3 # 10) w2)) = (verification, w3) ->
  exists b w',
    _cancel_all_orders w = (Ok b, w')
    /\ calls w'
       = calls w
         ++ GetOpenOrders :: map CancelOrder (order_ids_of orders)
         ++ (if is_empty (filter is_non_400_failure results)
             then [Sleep (3 # 10); GetOpenOrders]
                  ++ match verification with
                     | Ok remaining =>
                         if is_empty (order_ids_of remaining) then []
                         else map CancelOrder (order_ids_of remaining)
                              ++ [Sleep (2 # 10); GetOpenOrders]
                     | Raise _ => []
                     end
             else [])
    /\ (is_empty (filter is_non_400_failure results) = false -> b = false).
Proof.
  intros Hfetch Hids Hgather Hverify.
  assert (Horders : is_empty orders = false).
  { destruct orders; [contradiction Hids; reflexivity | reflexivity]. }
  destruct (gather_cancel_frame _ _ _ _ Hgather) as (_ & Hc2 & _).
  assert (Hc1 : calls w1 = calls w ++ [GetOpenOrders]).
  { unfold client_get_open_orders, client in Hfetch.
    destruct (get_open_orders (venue w)) as [r0 v'].
    injection Hfetch as _ <-. reflexivity. }
  assert (Hprefix : calls w2
                    = calls w
                      ++ GetOpenOrders
                         :: map CancelOrder (order_ids_of orders)).
  { rewrite Hc2, Hc1, <- app_assoc. reflexivity. }
  assert (Hc3 : calls w3 = calls w2 ++ [Sleep (3 # 10); GetOpenOrders]).
  { unfold client_get_open_orders, client in Hverify. simpl in Hverify.
    destruct (get_open_orders (venue w2)) as [r0 v'].
    injection Hverify as _ <-. simpl. rewrite <- app_assoc. reflexivity. }
  unfold _cancel_all_orders, try_except, bind. rewrite Hfetch.
  rewrite Horders, (is_empty_false _ Hids).
  unfold gather. rewrite Hgather.
  destruct (is_empty (filter is_non_400_failure results)) eqn:Efailed; simpl.
  - simpl in Hverify. rewrite Hverify.
    destruct verification as [remaining | e].
    + destruct (is_empty remaining) eqn:Erem; simpl.
      * assert (Hnone : order_ids_of remaining = [])
          by (destruct remaining; [reflexivity | discriminate Erem]).
        rewrite Hnone. simpl.
        exists true, w3. split; [reflexivity |].
        split; [| intros Hf; discriminate Hf].
        rewrite Hc3, Hprefix, <- !app_assoc. reflexivity.
      * destruct (is_empty (order_ids_of remaining)) eqn:Eids; simpl.
        -- exists true, w3. split; [reflexivity |].
           split; [| intros Hf; discriminate Hf].
           rewrite Hc3, Hprefix, <- !app_assoc. reflexivity.
        -- destruct (gather_results
                       (map client_cancel_order (order_ids_of remaining)) w3)
             as [results2 w4] eqn:Hgather2.
           destruct (gather_cancel_frame _ _ _ _ Hgather2) as (_ & Hc4 & _).
           destruct (client_get_open_orders
                       {| self := self w4; venue := venue w4;
                          calls := calls w4 ++ [Sleep (2 # 10)] |})
             as [final w5] eqn:Hfinal.
           assert (Hc5 : calls w5
                         = calls w4 ++ [Sleep (2 # 10); GetOpenOrders]).
           { unfold client_get_open_orders, client in Hfinal.
             simpl in Hfinal.
             destruct (get_open_orders (venue w4)) as [r0 v'].
             injection Hfinal as _ <-. simpl. rewrite <- app_assoc.
             reflexivity. }
           assert (Hlog : calls w5
                          = calls w
                            ++ GetOpenOrders
                               :: map CancelOrder (order_ids_of orders)
                            ++ [Sleep (3 # 10); GetOpenOrders]
                            ++ map CancelOrder (order_ids_of remaining)
                            ++ [Sleep (2 # 10); GetOpenOrders]).
           { rewrite Hc5, Hc4, Hc3, Hprefix.
             repeat (rewrite <- app_assoc; simpl). reflexivity. }
           destruct final as [final | e]; simpl.
           ++ destruct (is_empty final); simpl.
              ** exists true, w5. split; [reflexivity |].
                 split; [exact Hlog | intros Hf; discriminate Hf].
              ** exists false, w5. split; [reflexivity |].
                 split; [exact Hlog | intros Hf; discriminate Hf].
           ++ exists false, w5. split; [reflexivity |].
              split; [exact Hlog | intros Hf; discriminate Hf].
    + exists false, w3. split; [reflexivity |].
      split; [| intros Hf; discriminate Hf].
      rewrite Hc3, Hprefix, <- !app_assoc. reflexivity.
  - exists false, w2. split; [reflexivity |].
    split; [| intros _; reflexivity].
    rewrite Hprefix, app_nil_r. reflexivity.
Qed.

End CancelAll.

(** ** The client's own cancel-all *)

Section ClientCancelAll.
Context {V : Type} `{OrderlyClient V}.

(** X22: [OrderlyClient.cancel_all] is best effort.  It fetches once and
    requests one cancellation per listed id, in order; however those
    requests end, it returns normally, without any verification fetch.  Only
    a failure of the fetch itself is raised to the caller, before any cancel
    is requested. *)
Theorem client_cancel_all_best_effort (w : World V) :
  (forall e w1,
     client_get_open_orders w = (Raise e, w1) ->
     cancel_all w = (Raise e, w1)
     /\ calls w1 = calls w ++ [GetOpenOrders])
  /\ (forall orders w1 results w2,
        client_get_open_orders w = (Ok orders, w1) ->
        gather_results (map client_cancel_order (order_ids_of orders)) w1
        = (results, w2) ->
        cancel_all w = (Ok tt, w2)
        /\ self w2 = self w
        /\ calls w2
           = calls w
             ++ GetOpenOrders :: map CancelOrder (order_ids_of orders)).
Proof.
  assert (Hframe : forall r w1,
             client_get_open_orders w = (r, w1) ->
             self w1 = self w /\ calls w1 = calls w ++ [GetOpenOrders]).
  { intros r w1 Hfetch. unfold client_get_open_orders, client in Hfetch.
    destruct (get_open_orders (venue w)) as [r0 v'].
    injection Hfetch as _ <-. split; reflexivity. }
  split.
  - intros e w1 Hfetch. destruct (Hframe _ _ Hfetch) as [_ Hc].
    split; [| exact Hc].
    unfold cancel_all, bind. rewrite Hfetch. reflexivity.
  - intros orders w1 results w2 Hfetch Hgather.
    destruct (Hframe _ _ Hfetch) as [Hs1 Hc1].
    destruct (gather_cancel_frame _ _ _ _ Hgather) as (Hs2 & Hc2 & _).
    split; [| split; [congruence
                     | rewrite Hc2, Hc1, <- app_assoc; reflexivity]].
    unfold cancel_all. rewrite (bind_ok_step _ _ _ _ _ Hfetch).
    destruct orders as [| o orders'].
    + simpl in Hgather. injection Hgather as _ <-. reflexivity.
    + change (is_empty (o :: orders')) with false. cbv iota.
      assert (Hgather' :
        gather (map client_cancel_order (order_ids_of (o :: orders'))) w1
        = (Ok results, w2)).
      { unfold gather. rewrite Hgather. reflexivity. }
      rewrite (bind_ok_step _ _ _ _ _ Hgather'). reflexivity.
Qed.

End ClientCancelAll.

(** ** Start-up and the loop *)

Section RunProperties.
Context {V : Type} `{OrderlyClient V} `{MarketInfoClient V}.

Lemma run_iteration_returns (w : World V) :
  exists w', run_iteration w = (Ok tt, w').
Proof.
  unfold run_iteration, try_except.
  match goal with
  | |- exists w', match ?body w with _ => _ end = _ =>
      destruct (body w) as [[[] | e] w1]
  end; eexists; reflexivity.
Qed.

Lemma run_loop_returns (fuel : nat) (w : World V) :
  exists w', run_loop fuel w = (Ok tt, w').
Proof.
  revert w. induction fuel as [| n IH]; intros w; simpl.
  - eexists. reflexivity.
  - destruct (run_iteration_returns w) as [w1 Hrun].
    rewrite (bind_ok_step _ _ _ _ _ Hrun). apply IH.
Qed.

(** X23: which tick sizes the start-up fetch installs, for a market info
    whose keys, where present, hold numbers.  The price tick is the value of
    [quote_tick] when that key is present and non-zero; otherwise the value
    of the [price_tick] key when present; otherwise 0.01.  The quantity tick
    is the value of [base_tick] when present, otherwise 0.001.  So the
    installed price tick is zero exactly when [quote_tick] is missing or
    zero and the venue sent a zero [price_tick], and the installed quantity
    tick is zero exactly when the venue sent a zero [base_tick].
    Configuration, quote state and tracked position are not touched. *)
Theorem load_market_info_ticks (w w1 : World V) (info : MarketInfo) :
  client_get_market_info w = (Ok info, w1) ->
  let quote_tick_falsy :=
    quote_tick info = None \/ exists q, quote_tick info = Some q /\ q == 0 in
  exists w',
    _load_market_info w = (Ok tt, w')
    /\ (forall q, quote_tick info = Some q -> ~ q == 0 ->
        price_tick (self w') = q)
    /\ (quote_tick_falsy ->
        forall p, info_price_tick info = Some p -> price_tick (self w') = p)
    /\ (quote_tick_falsy ->
        info_price_tick info = None -> price_tick (self w') = 1 # 100)
    /\ (forall b, base_tick info = Some b -> qty_tick (self w') = b)
    /\ (base_tick info = None -> qty_tick (self w') = 1 # 1000)
    /\ (price_tick (self w') == 0
        <-> (forall q, quote_tick info = Some q -> q == 0)
            /\ exists p, info_price_tick info = Some p /\ p == 0)
    /\ (qty_tick (self w') == 0
        <-> exists b, base_tick info = Some b /\ b == 0)
    /\ cfg (self w') = cfg (self w)
    /\ current_bid_price (self w') = current_bid_price (self w)
    /\ current_ask_price (self w') = current_ask_price (self w)
    /\ last_position_qty (self w') = last_position_qty (self w)
    /\ calls w' = calls w.
Proof.
  intros Hinfo quote_tick_falsy.
  assert (Hframe : self w1 = self w /\ calls w1 = calls w).
  { unfold client_get_market_info in Hinfo.
    destruct (get_market_info (venue w)) as [r0 v'].
    injection Hinfo as _ <-. split; reflexivity. }
  destruct Hframe as [Hs Hc].
  assert (Hfallback :
            quote_tick_falsy ->
            price_tick_of info = match info_price_tick info with
                                 | Some p => p
                                 | None => 1 # 100
                                 end).
  { unfold price_tick_of. intros [Hnone | (q & Hq & Hz)].
    - rewrite Hnone. reflexivity.
    - rewrite Hq. apply Qeq_bool_iff in Hz. rewrite Hz. reflexivity. }
  eexists. split.
  { unfold _load_market_info. rewrite (bind_ok_step _ _ _ _ _ Hinfo).
    reflexivity. }
  simpl. rewrite Hs, Hc.
  split; [| split; [| split; [| split; [| split;
    [| split; [| split; [| repeat split]]]]]]].
  - intros q Hq Hnz. unfold price_tick_of. rewrite Hq.
    apply Qeq_bool_false in Hnz. rewrite Hnz. reflexivity.
  - intros Hfalsy p Hp. rewrite (Hfallback Hfalsy), Hp. reflexivity.
  - intros Hfalsy Hp. rewrite (Hfallback Hfalsy), Hp. reflexivity.
  - intros b Hb. unfold qty_tick_of. rewrite Hb. reflexivity.
  - intros Hb. unfold qty_tick_of. rewrite Hb. reflexivity.
  - unfold price_tick_of.
    destruct (quote_tick info) as [q |]; destruct (info_price_tick info) as [p |].
    + destruct (Qeq_bool q 0) eqn:Eq.
      * apply Qeq_bool_iff in Eq. split.
        -- intros Hp. split; [intros q' Hq'; injection Hq' as <-; exact Eq |].
           exists p. split; [reflexivity | exact Hp].
        -- intros [_ (p' & Hp' & Hz)]. injection Hp' as <-. exact Hz.
      * apply Qeq_bool_false in Eq. split.
        -- intros Hq. contradiction.
        -- intros [Hall _]. exfalso. apply Eq. apply Hall. reflexivity.
    + destruct (Qeq_bool q 0) eqn:Eq.
      * split; [intros Hz; discriminate Hz
               | intros [_ (p' & Hp' & _)]; discriminate Hp'].
      * apply Qeq_bool_false in Eq. split.
        -- intros Hq. contradiction.
        -- intros [_ (p' & Hp' & _)]. discriminate Hp'.
    + split.
      * intros Hp. split; [intros q' Hq'; discriminate Hq' |].
        exists p. split; [reflexivity | exact Hp].
      * intros [_ (p' & Hp' & Hz)]. injection Hp' as <-. exact Hz.
    + split; [intros Hz; discriminate Hz
             | intros [_ (p' & Hp' & _)]; discriminate Hp'].
  - unfold qty_tick_of. destruct (base_tick info) as [b |].
    + split; [intros Hb; exists b; split; [reflexivity | exact Hb]
             | intros (b' & Hb' & Hz); injection Hb' as <-; exact Hz].
    + split; [intros Hz; discriminate Hz
             | intros (b' & Hb' & _); discriminate Hb'].
Qed.

(** X24: the loop outlives every tick, the start-up does not.  However many
    iterations are run and whatever the venue answers, the loop returns
    without raising.  [run] as a whole raises exactly when the start-up
    fetch of the market info raises, with that exception, before any
    request of the loop is made and with the bot object untouched. *)
Theorem run_raises_only_at_startup (fuel : nat) (w : World V) :
  (exists w', run_loop fuel w = (Ok tt, w'))
  /\ (forall e w1,
        client_get_market_info w = (Raise e, w1) ->
        run fuel w = (Raise e, w1)
        /\ self w1 = self w
        /\ calls w1 = calls w)
  /\ (forall info w1,
        client_get_market_info w = (Ok info, w1) ->
        exists w', run fuel w = (Ok tt, w')).
Proof.
  split; [apply run_loop_returns |]. split.
  - intros e w1 Hinfo.
    assert (Hframe : self w1 = self w /\ calls w1 = calls w).
    { unfold client_get_market_info in Hinfo.
      destruct (get_market_info (venue w)) as [r0 v'].
      injection Hinfo as _ <-. split; reflexivity. }
    split; [| exact Hframe].
    unfold run, _load_market_info, bind. rewrite Hinfo. reflexivity.
  - intros info w1 Hinfo.
    unfold run, _load_market_info.
    unfold bind at 1. unfold bind at 1. rewrite Hinfo.
    cbv beta iota. unfold modify_self at 1. cbv beta iota.
    apply run_loop_returns.
Qed.

End RunProperties.

(** ** Concrete runs *)

Lemma tick_mark_price_failure_witness :
  exists wa,
    run_iteration (example_world false mark_failure_script)
    = (Ok tt,
       {| self := example_bot false; venue := venue wa;
          calls := [GetMarkPrice; Sleep 5] |}).
Proof.
  pose (w := example_world false mark_failure_script).
  pose (wa := snd (client_get_mark_price w)).
  assert (Hmark : client_get_mark_price w
                  = (Raise (ClientResponseError 503), wa)) by reflexivity.
  exists wa. exact (tick_mark_price_failure w wa _ Hmark).
Defined.

Lemma tick_position_failure_quotes_flat_witness :
  exists (wa wb w' : World Script) (b : Quotes),
    _get_position wa = (Ok (0, 0), wb)
    /\ run_iteration (example_world false position_failure_script)
       = (Ok tt, w')
    /\ base_quotes (example_bot false) 2000 = Ok b
    /\ orders_sent (calls w')
       = [CreateOrder BUY (bid_price b) (bid_quantity b);
          CreateOrder SELL (ask_price b) (ask_quantity b)].
Proof.
  pose (w := example_world false position_failure_script).
  pose (wa := snd (client_get_mark_price w)).
  pose (wb := snd (client_get_position wa)).
  assert (Hmark : client_get_mark_price w = (Ok 2000, wa)) by reflexivity.
  assert (Hpos : client_get_position wa
                 = (Raise (ClientResponseError 503), wb)) by reflexivity.
  destruct (tick_position_failure_quotes_flat w wa wb 2000 _ Hmark Hpos)
    as (Hget & _ & _ & w' & Hrun & Hsent).
  exists wa, wb, w'. eexists.
  split; [exact Hget |]. split; [exact Hrun |].
  split; [vm_compute; reflexivity |].
  assert (Hw' : w' = snd (run_iteration w)) by (rewrite Hrun; reflexivity).
  rewrite Hw'. vm_compute. reflexivity.
Defined.


Lemma tick_inventory_stop_sends_nothing_witness :
  exists w',
    run_iteration (example_world false (position_script 2000 (3 # 10) 2000))
    = (Ok tt, w')
    /\ self w' = example_bot false
    /\ calls w'
       = [GetMarkPrice; GetPosition; GetOpenOrders; CancelOrder 7;
          Sleep (3 # 10); GetOpenOrders; Sleep 5]
    /\ orders_sent (calls w') = [].
Proof.
  pose (w := example_world false (position_script 2000 (3 # 10) 2000)).
  pose (wa := snd (client_get_mark_price w)).
  pose (wb := snd (_get_position wa)).
  pose (wc := snd (_cancel_all_orders wb)).
  assert (Hmark : client_get_mark_price w = (Ok 2000, wa)) by reflexivity.
  assert (Hpos : _get_position wa = (Ok (3 # 10, 2000), wb)) by reflexivity.
  assert (Hfloat : Binary64._should_take_profit
                     (Binary64.binary64 (3 # 10)) (Binary64.binary64 2000)
                     (Binary64.binary64 2000) = Ok false)
    by (vm_compute; reflexivity).
  assert (Hcancel : _cancel_all_orders wb = (Ok true, wc)) by reflexivity.
  destruct (tick_inventory_stop_sends_nothing w wa wb wc 2000 (3 # 10) 2000 _
              Hmark Hpos eq_refl Hfloat eq_refl Hcancel)
    as (w' & Hrun & Hself & Hcalls & Hsent).
  exists w'. split; [exact Hrun |]. split; [exact Hself |].
  split; [rewrite Hcalls; reflexivity | exact Hsent].
Defined.


Lemma close_price_through_mark_witness :
  exists w' p,
    _close_position (- (1 # 10)) 2000 (example_world false take_profit_script)
    = (Ok tt, w')
    /\ calls w' = [CreateOrder BUY p (Qabs (- (1 # 10)))]
    /\ p <= 2000 * (1001 # 1000)
    /\ 2000 < p
    /\ 2000 < p - (1 # 100).
Proof.
  destruct (close_price_through_mark
              (example_world false take_profit_script) (- (1 # 10)) 2000)
    as (w' & p & Hrun & Hcalls & _ & _ & Hbuy);
    [reflexivity | reflexivity | discriminate |].
  exists w', p. split; [exact Hrun |]. split; [exact Hcalls |].
  destruct Hbuy as [Hnear Hgt]; [discriminate |].
  split; [apply (Hnear p); left; reflexivity |].
  split; apply Hgt; try discriminate; [left | right]; reflexivity.
Defined.

Lemma cancel_all_orders_remaining_without_id_witness :
  exists w3,
    _cancel_all_orders (example_world false remaining_without_id_script)
    = (Ok true, w3)
    /\ calls w3
       = [GetOpenOrders; CancelOrder 1; Sleep (3 # 10); GetOpenOrders]
    /\ open_orders remaining_without_id_script
       = [Ok [{| order_id := Some 1%Z |}]; Ok [{| order_id := None |}]].
Proof.
  pose (w := example_world false remaining_without_id_script).
  pose (orders := [{| order_id := Some 1%Z |}]).
  pose (w1 := snd (client_get_open_orders w)).
  pose (batch := gather_results
                   (map client_cancel_order (order_ids_of orders)) w1).
  pose (w3 := snd (client_get_open_orders (snd (sleep (3 # 10) (snd batch))))).
  assert (Hfetch : client_get_open_orders w = (Ok orders, w1)) by reflexivity.
  assert (Hids : order_ids_of orders <> []) by discriminate.
  assert (Hgather : gather_results
                      (map client_cancel_order (order_ids_of orders)) w1
                    = (fst batch, snd batch)) by reflexivity.
  assert (Hall : forall r, In r (fst batch) ->
                   r = Ok tt \/ r = Raise (ClientResponseError 400)).
  { intros r [Hr | []]. left. symmetry. exact Hr. }
  assert (Hverify : client_get_open_orders (snd (sleep (3 # 10) (snd batch)))
                    = (Ok [{| order_id := None |}], w3)) by reflexivity.
  destruct (cancel_all_orders_remaining_without_id
              w w1 (snd batch) w3 orders [{| order_id := None |}] (fst batch)
              Hfetch Hids Hgather Hall Hverify)
    as [Hrun Hcalls]; [discriminate | reflexivity |].
  exists w3. split; [exact Hrun |]. split; [exact Hcalls | reflexivity].
Defined.

Lemma cancel_all_orders_first_batch_witness :
  exists b w',
    _cancel_all_orders (example_world false retry_500_script) = (Ok b, w')
    /\ calls w'
       = [GetOpenOrders; CancelOrder 1; Sleep (3 # 10); GetOpenOrders;
          CancelOrder 2; Sleep (2 # 10); GetOpenOrders].
Proof.
  pose (w := example_world false retry_500_script).
  pose (orders := [{| order_id := Some 1%Z |}]).
  pose (remaining := [{| order_id := Some 2%Z |}]).
  pose (w1 := snd (client_get_open_orders w)).
  pose (batch := gather_results
                   (map client_cancel_order (order_ids_of orders)) w1).
  pose (w3 := snd (client_get_open_orders
                     (snd (sleep (3 # 10) (snd batch))))).
  assert (Hfetch : client_get_open_orders w = (Ok orders, w1)) by reflexivity.
  assert (Hids : order_ids_of orders <> []) by discriminate.
  assert (Hgather : gather_results
                      (map client_cancel_order (order_ids_of orders)) w1
                    = (fst batch, snd batch)) by reflexivity.
  assert (Hverify : client_get_open_orders
                      (snd (sleep (3 # 10) (snd batch)))
                    = (Ok remaining, w3)) by reflexivity.
  destruct (cancel_all_orders_first_batch
              w w1 (snd batch) w3 orders (fst batch) (Ok remaining)
              Hfetch Hids Hgather Hverify)
    as (b & w' & Hrun & Hcalls & _).
  exists b, w'. split; [exact Hrun | exact Hcalls].
Defined.

Lemma load_market_info_ticks_witness :
  (exists w',
     _load_market_info
       (info_world [Ok zero_quote_tick_info] (quoting_script 2000 []))
     = (Ok tt, w')
     /\ price_tick (self w') = 1 # 100
     /\ qty_tick (self w') = 1 # 1000)
  /\ (exists w',
        _load_market_info
          (info_world [Ok price_tick_only_info] (quoting_script 2000 []))
        = (Ok tt, w')
        /\ price_tick (self w') = 5 # 100
        /\ qty_tick (self w') = 1 # 1000).
Proof.
  split.
  - pose (w := info_world [Ok zero_quote_tick_info] (quoting_script 2000 [])).
    pose (w1 := snd (client_get_market_info w)).
    assert (Hinfo : client_get_market_info w = (Ok zero_quote_tick_info, w1))
      by reflexivity.
    destruct (load_market_info_ticks w w1 zero_quote_tick_info Hinfo)
      as (w' & Hrun & _ & _ & Hdefault & Hbase & _).
    exists w'. split; [exact Hrun |].
    split.
    + apply Hdefault; [| reflexivity].
      right. exists 0. split; reflexivity.
    + apply Hbase. reflexivity.
  - pose (w := info_world [Ok price_tick_only_info] (quoting_script 2000 [])).
    pose (w1 := snd (client_get_market_info w)).
    assert (Hinfo : client_get_market_info w = (Ok price_tick_only_info, w1))
      by reflexivity.
    destruct (load_market_info_ticks w w1 price_tick_only_info Hinfo)
      as (w' & Hrun & _ & Hkey & _ & _ & Hdefault & _).
    exists w'. split; [exact Hrun |].
    split.
    + apply Hkey; [left; reflexivity | reflexivity].
    + apply Hdefault. reflexivity.
Defined.
